(** * djangoseo.base: metadata resolution, caching and signal callbacks

    A shallow embedding of [djangoseo/base.py].  Python objects become
    records, dictionaries that keep their insertion order become
    association lists, the Django cache and the database tables become
    finite maps and lists that are passed explicitly, and code that can
    raise returns a [result]. *)

From Stdlib Require Import ZArith Lia Sorted.
From stdpp Require Import gmap strings list fin_maps.

(** ** Python values, truthiness and exceptions *)

(** The values that flow through the resolution chain: [None] or a text. *)
Inductive pyval : Type :=
  | PNone
  | PStr (s : string).

Global Instance pyval_eq_dec : EqDecision pyval.
Proof. solve_decision. Defined.

(** [bool(v)]: [None] and the empty text are falsy. *)
Definition truthy (v : pyval) : bool :=
  match v with
  | PNone => false
  | PStr s => if decide (s = "") then false else true
  end.

(** [v or d] *)
Definition py_or (v d : pyval) : pyval := if truthy v then v else d.

(** The exceptions (all subclasses of Python's [Exception]) that the
    embedded code raises or lets through. *)
Inductive exn : Type :=
  | TypeError
  | RecursionError
  | AttributeError
  | KeyError (key : string)
  | AssertionError (msg : string)
  | NotInstalled (backend_name : string)
  | NoSuchMetadata (name : string)
  | DoesNotExist
  | MultipleObjectsReturned
  | OtherError (msg : string).

Inductive result (A : Type) : Type :=
  | Return (a : A)
  | Raise (e : exn).
Arguments Return {A} a.
Arguments Raise {A} e.

Global Instance exn_eq_dec : EqDecision exn.
Proof. solve_decision. Defined.

Global Instance result_eq_dec {A} `{EqDecision A} : EqDecision (result A).
Proof. solve_decision. Defined.

Global Instance result_bind : MBind result := λ A B k r,
  match r with
  | Return a => k a
  | Raise e => Raise e
  end.

Global Instance result_ret : MRet result := λ A a, Return a.

(** ** Dictionaries that keep insertion order *)

Fixpoint assoc {V} (k : string) (d : list (string * V)) : option V :=
  match d with
  | [] => None
  | (k', v) :: d' => if decide (k = k') then Some v else assoc k d'
  end.

(** [k in d] *)
Definition has_key {V} (k : string) (d : list (string * V)) : bool :=
  match assoc k d with Some _ => true | None => false end.

(** ** Fields and options *)

(** [populate_from] of a field, in the order [_resolve_value] tests it:
    a callable, a [Literal], the [NotSet] marker, or the name of
    another field. *)
Inductive populate : Type :=
  | PFCallable (f : pyval → pyval)
  | PFLiteral (value : pyval)
  | PFNotSet
  | PFName (name : string).

(** A [MetadataField]: what the functions below read of it. *)
Record MetadataField : Type := {
  creation_counter : nat;
  populate_from : populate;
  clean : pyval → pyval;
  render : pyval → string
}.

(** [metadata._meta]: the options of a metadata class. *)
Record Options : Type := {
  use_cache : bool;
  use_sites : bool;
  use_i18n : bool;
  use_subdomains : bool;
  elements : list (string * MetadataField);
  groups : list (string * list string);
  backends : list string;
  models : list (string * string)
}.

(** The object handed to [FormattedMetadata] as [metadata]: the name of
    its class ([metadata.__class__.__name__]) and its [_meta]. *)
Record MetadataObj : Type := {
  class_name : string;
  _meta : Options
}.

Record Site : Type := { domain : string }.

(** ** FormattedMetadata *)

(** What [instances] can be: a generator, which hands out each item
    once and keeps its position between loops, or a list, which every
    [for] loop walks from its start. *)
Inductive iterable (I : Type) : Type :=
  | Generator (rest : list I)
  | PyList (items : list I).
Arguments Generator {I} rest.
Arguments PyList {I} items.

Record FormattedMetadata (I : Type) : Type := {
  fm_metadata : MetadataObj;
  cache_prefix : option string;
  instances_original : iterable I;
  instances_cache : list I
}.
Arguments fm_metadata {I} _.
Arguments cache_prefix {I} _.
Arguments instances_original {I} _.
Arguments instances_cache {I} _.

(** ['.'.join(bits)]: a bit that is [None] makes [join] raise. *)
Fixpoint all_str (bits : list (option string)) : option (list string) :=
  match bits with
  | [] => Some []
  | Some s :: bits' => cons s <$> all_str bits'
  | None :: _ => None
  end.

Definition join_bits (bits : list (option string)) : result string :=
  match all_str bits with
  | Some ss => Return (String.concat "." ss)
  | None => Raise TypeError
  end.

Section Formatted.
(** The instance type of the backends and its [_resolve_value], and
    the library functions [hashlib.md5(..).hexdigest()] (over the
    UTF-8 encoding), [iri_to_uri] and [str.strip]. *)
Context {I : Type}.
Variable inst_resolve : I → string → pyval.
Variable md5_hex : string → string.
Variable iri_to_uri : string → string.
Variable strip : string → string.

Definition hexpath (meta : Options) (path : string) (site : option Site) : string :=
  match site with
  | Some s =>
      if use_sites meta then md5_hex (iri_to_uri (domain s +:+ path))
      else md5_hex (iri_to_uri path)
  | None => md5_hex (iri_to_uri path)
  end.

Definition prefix_bits (metadata : MetadataObj) (path : string)
    (site : option Site) (language subdomain : option string)
    : list (option string) :=
  let meta := _meta metadata in
  let bits := [Some "djangoseo"; Some (class_name metadata);
               Some (hexpath meta path site)] in
  let bits := if use_i18n meta then bits ++ [language] else bits in
  match subdomain with
  | Some sd => if use_subdomains meta then bits ++ [Some sd] else bits
  | None => bits
  end.

Definition FormattedMetadata__init__ (metadata : MetadataObj)
    (instances : iterable I) (path : string) (site : option Site)
    (language subdomain : option string) : result (FormattedMetadata I) :=
  if use_cache (_meta metadata) then
    prefix ← join_bits (prefix_bits metadata path site language subdomain);
    Return {| fm_metadata := metadata; cache_prefix := Some prefix;
              instances_original := instances; instances_cache := [] |}
  else
    Return {| fm_metadata := metadata; cache_prefix := None;
              instances_original := instances; instances_cache := [] |}.

(** *** The instance generator

    One [for] loop over [self.__instances()], left at the first item
    for which [stop] holds.  [take_until stop l] is the part of [l]
    the loop sees, the part it leaves, and whether it stopped. *)
Fixpoint take_until (stop : I → bool) (l : list I) : list I * list I * bool :=
  match l with
  | [] => ([], [], false)
  | x :: l' =>
      if stop x then ([x], l', true)
      else let '(seen, rest, b) := take_until stop l' in (x :: seen, rest, b)
  end.

(** The instances one loop yields, the instances it drew from
    [__instances_original], whether it stopped early, and the object
    afterwards.  The cache is replayed first; only then is the
    original advanced, each item being appended to the cache before
    it is yielded. *)
Definition instances_run (stop : I → bool) (fm : FormattedMetadata I)
    : list I * list I * bool * FormattedMetadata I :=
  let '(seen, _, stopped) := take_until stop (instances_cache fm) in
  if stopped then (seen, [], true, fm)
  else
    match instances_original fm with
    | Generator rest =>
        let '(drawn, rest', stopped') := take_until stop rest in
        (instances_cache fm ++ drawn, drawn, stopped',
         {| fm_metadata := fm_metadata fm; cache_prefix := cache_prefix fm;
            instances_original := Generator rest';
            instances_cache := instances_cache fm ++ drawn |})
    | PyList items =>
        let '(drawn, _, stopped') := take_until stop items in
        (instances_cache fm ++ drawn, drawn, stopped',
         {| fm_metadata := fm_metadata fm; cache_prefix := cache_prefix fm;
            instances_original := PyList items;
            instances_cache := instances_cache fm ++ drawn |})
    end.

(** *** _resolve_value *)

Definition nonempty_for (name : string) (i : I) : bool :=
  truthy (inst_resolve i name).

(** [depth] is the number of Python stack frames still available: a
    cycle of [populate_from] names ends in a [RecursionError]. *)
Fixpoint _resolve_value (depth : nat) (name : string) (fm : FormattedMetadata I)
    : result pyval * FormattedMetadata I :=
  match depth with
  | O => (Raise RecursionError, fm)
  | S depth' =>
      let '(yielded, _, stopped, fm') := instances_run (nonempty_for name) fm in
      match (if stopped then last yielded else None) with
      | Some i => (Return (inst_resolve i name), fm')
      | None =>
          match assoc name (elements (_meta (fm_metadata fm'))) with
          | Some e =>
              match populate_from e with
              | PFCallable f => (Return (f PNone), fm')
              | PFLiteral v => (Return v, fm')
              | PFNotSet => (Return PNone, fm')
              | PFName name' => _resolve_value depth' name' fm'
              end
          | None => (Return PNone, fm')
          end
      end
  end.


(** *** BoundMetadataField and attribute access *)

Record BoundMetadataField : Type := {
  bf_field : MetadataField;
  bf_value : pyval
}.

Definition BoundMetadataField__init__ (field : MetadataField) (value : pyval)
    : BoundMetadataField :=
  {| bf_field := field;
     bf_value := if truthy value then clean field value else PNone |}.

(** [six.text_type(bound)], that is [make_safe] *)
Definition make_safe (b : BoundMetadataField) : string :=
  if truthy (bf_value b) then render (bf_field b) (bf_value b) else "".

Definition newline : string := String (Ascii.ascii_of_nat 10) EmptyString.

(** What [__getattr__] hands back: the text of a group (or [None]),
    or a bound field. *)
Inductive attribute : Type :=
  | GroupText (v : pyval)
  | Bound (b : BoundMetadataField).

(** [cache.get(key)]: the stored value, [None] when there is none. *)
Definition cache_get (c : gmap string pyval) (key : string) : pyval :=
  default PNone (c !! key).

(** [cache.set(key, value)] where [key] may be [None] (no caching). *)
Definition cache_set_opt (c : gmap string pyval) (key : option string) (v : pyval)
    : gmap string pyval :=
  match key with
  | Some k => <[k := v]> c
  | None => c
  end.

(** [if self.__cache_prefix: cache_key = '%s.%s' % (prefix, name)] *)
Definition cache_key_of (fm : FormattedMetadata I) (name : string) : option string :=
  match cache_prefix fm with
  | Some p => if decide (p = "") then None else Some (p +:+ "." +:+ name)
  | None => None
  end.

(** The generator expression of the group branch: the rendered text of
    every member, each resolved in turn. *)
Fixpoint group_texts (depth : nat) (members : list string) (fm : FormattedMetadata I)
    : result (list string) * FormattedMetadata I :=
  match members with
  | [] => (Return [], fm)
  | f :: members' =>
      match assoc f (elements (_meta (fm_metadata fm))) with
      | None => (Raise (KeyError f), fm)
      | Some e =>
          match _resolve_value depth f fm with
          | (Raise ex, fm') => (Raise ex, fm')
          | (Return v, fm') =>
              match group_texts depth members' fm' with
              | (Raise ex, fm'') => (Raise ex, fm'')
              | (Return texts, fm'') =>
                  (Return (make_safe (BoundMetadataField__init__ e v) :: texts), fm'')
              end
          end
      end
  end.

Definition FormattedMetadata__getattr__ (depth : nat) (name : string)
    (fm : FormattedMetadata I) (c : gmap string pyval)
    : result attribute * FormattedMetadata I * gmap string pyval :=
  let meta := _meta (fm_metadata fm) in
  let cache_key := cache_key_of fm name in
  let value := match cache_key with Some k => cache_get c k | None => PNone end in
  match assoc name (groups meta) with
  | Some members =>
      if decide (value = PNone) then
        match group_texts depth members fm with
        | (Raise ex, fm') => (Raise ex, fm', c)
        | (Return texts, fm') =>
            let value := PStr (strip (String.concat newline texts)) in
            (Return (GroupText (py_or value PNone)), fm',
             cache_set_opt c cache_key (py_or value (PStr "")))
        end
      else (Return (GroupText (py_or value PNone)), fm, c)
  | None =>
      match assoc name (elements meta) with
      | Some e =>
          if decide (value = PNone) then
            match _resolve_value depth name fm with
            | (Raise ex, fm') => (Raise ex, fm', c)
            | (Return value, fm') =>
                (Return (Bound (BoundMetadataField__init__ e value)), fm',
                 cache_set_opt c cache_key (py_or value (PStr "")))
            end
          else
            (Return (Bound (BoundMetadataField__init__ e (py_or value PNone))), fm, c)
      | None => (Raise AttributeError, fm, c)
      end
  end.

End Formatted.

Arguments take_until {I} stop l.
Arguments instances_run {I} stop fm.
Arguments cache_key_of {I} fm name.

(** ** The metaclass MetadataBase *)

(** An attribute of a class body: a [MetadataField] or anything else. *)
Inductive class_attr : Type :=
  | AField (f : MetadataField)
  | AOther (v : pyval).

(** A class made by the metaclass: its name, the attributes left in
    its body and its [_meta] (the parent class [Metadata] has none). *)
Record MetaClass : Type := {
  mc_name : string;
  mc_attrs : list (string * class_attr);
  mc_meta : option Options
}.

(** An entry of [backend_registry]: the backend's name, the model it
    contributes and its [validate]. *)
Record Backend : Type := {
  backend_name : string;
  backend_model : string;
  backend_validate : Options → option exn
}.

(** [d[k] = v]: an existing key keeps its place. *)
Fixpoint dict_set {V} (k : string) (v : V) (d : list (string * V)) : list (string * V) :=
  match d with
  | [] => [(k, v)]
  | (k', v') :: d' =>
      if decide (k = k') then (k, v) :: d' else (k', v') :: dict_set k v d'
  end.

(** [d.pop(k, default)]: the dictionary without [k]. *)
Definition dict_pop {V} (k : string) (d : list (string * V)) : list (string * V) :=
  filter (λ kv, kv.1 ≠ k) d.

(** [OrderedDict(pairs)] *)
Definition OrderedDict_of {V} (pairs : list (string * V)) : list (string * V) :=
  foldl (λ d kv, dict_set kv.1 kv.2 d) [] pairs.

Definition field_of (a : class_attr) : option MetadataField :=
  match a with
  | AField f => Some f
  | AOther _ => None
  end.

(** [[(key, attrs.pop(key)) for key, obj in attrs.items()
      if isinstance(obj, MetadataField)]] and what is left of [attrs]. *)
Definition collect_fields (attrs : list (string * class_attr))
    : list (string * MetadataField) :=
  omap (λ kv, pair kv.1 <$> field_of kv.2) attrs.

Definition without_fields (attrs : list (string * class_attr))
    : list (string * class_attr) :=
  filter (λ kv, field_of kv.2 = None) attrs.

(** [elements.sort(key=lambda x: x[1].creation_counter)]: a stable sort. *)
Fixpoint insert_by_counter (x : string * MetadataField)
    (l : list (string * MetadataField)) : list (string * MetadataField) :=
  match l with
  | [] => [x]
  | y :: l' =>
      if decide (creation_counter x.2 ≤ creation_counter y.2) then x :: y :: l'
      else y :: insert_by_counter x l'
  end.

Definition sort_by_counter (l : list (string * MetadataField))
    : list (string * MetadataField) :=
  foldr insert_by_counter [] l.

Definition set_elements (o : Options) (els : list (string * MetadataField)) : Options :=
  {| use_cache := use_cache o; use_sites := use_sites o; use_i18n := use_i18n o;
     use_subdomains := use_subdomains o; elements := els; groups := groups o;
     backends := backends o; models := models o |}.

Definition set_models (o : Options) (ms : list (string * string)) : Options :=
  {| use_cache := use_cache o; use_sites := use_sites o; use_i18n := use_i18n o;
     use_subdomains := use_subdomains o; elements := elements o; groups := groups o;
     backends := backends o; models := ms |}.

(** Modelled from the spec: [Options._register_elements] is in
    options.py, which is not among the sources; the metaclass
    "assembles declarative field definitions into a queryable model",
    so the collected elements become [options.elements]. *)
Definition _register_elements (o : Options) (els : list (string * MetadataField))
    : Options :=
  set_elements o els.

(** Modelled from the spec: [Options._add_backend] is in options.py,
    which is not among the sources; a backend is "a strategy for
    resolving metadata instances", and contributes the model that
    [get_model] finds under the backend's name. *)
Definition _add_backend (o : Options) (b : Backend) : Options :=
  set_models o (dict_set (backend_name b) (backend_model b) (models o)).

(** Modelled from the spec: [Options.get_model] is in options.py, which
    is not among the sources; the model of the named backend, [None]
    when that backend is not installed. *)
Definition get_model (o : Options) (name : string) : option string :=
  assoc name (models o).

(** The inner loop of the validation: every member is an element. *)
Fixpoint check_members (members : list string)
    (els : list (string * MetadataField)) : result unit :=
  match members with
  | [] => Return tt
  | member :: members' =>
      if has_key member els then check_members members' els
      else Raise (AssertionError
                    ("Group member '" +:+ member +:+ "' is not a valid field"))
  end.

Fixpoint check_groups (gs : list (string * list string))
    (els : list (string * MetadataField)) : result unit :=
  match gs with
  | [] => Return tt
  | (key, members) :: gs' =>
      if has_key key els then
        Raise (AssertionError ("Group name '" +:+ key +:+ "' clashes with field name"))
      else
        _ ← check_members members els;
        check_groups gs' els
  end.

Fixpoint check_reserved (RESERVED_FIELD_NAMES : list string)
    (els : list (string * MetadataField)) : result unit :=
  match els with
  | [] => Return tt
  | (key, _) :: els' =>
      if decide (key ∈ RESERVED_FIELD_NAMES) then
        Raise (AssertionError ("Field name '" +:+ key +:+ "' is not allowed"))
      else check_reserved RESERVED_FIELD_NAMES els'
  end.

(** The two loops under [try: ... except KeyError:]: a [KeyError]
    becomes the "is not installed" exception for the backend name the
    loop is at. *)
Fixpoint add_backends (backend_registry : list (string * Backend))
    (names : list string) (o : Options) : result Options :=
  match names with
  | [] => Return o
  | name :: names' =>
      match assoc name backend_registry with
      | Some b => add_backends backend_registry names' (_add_backend o b)
      | None => Raise (NotInstalled name)
      end
  end.

Fixpoint validate_backends (backend_registry : list (string * Backend))
    (names : list string) (o : Options) : result unit :=
  match names with
  | [] => Return tt
  | name :: names' =>
      match assoc name backend_registry with
      | Some b =>
          match backend_validate b o with
          | Some (KeyError _) => Raise (NotInstalled name)
          | Some e => Raise e
          | None => validate_backends backend_registry names' o
          end
      | None => Raise (NotInstalled name)
      end
  end.

Section Metaclass.
(** [Options(Meta, help_text)] (options.py), and the constants
    [backend_registry] and [RESERVED_FIELD_NAMES] (backends.py). *)
Variable Options__init__ : option class_attr → option class_attr → Options.
Variable backend_registry : list (string * Backend).
Variable RESERVED_FIELD_NAMES : list string.

(** [is_base] is the test [bases == (object,)]; the second component
    of the result is the module's [registry] afterwards. *)
Definition MetadataBase__new__ (registry : list (string * MetaClass))
    (name : string) (is_base : bool) (attrs : list (string * class_attr))
    : result (MetaClass * list (string * MetaClass)) :=
  if is_base then
    Return ({| mc_name := name; mc_attrs := attrs; mc_meta := None |}, registry)
  else
    let Meta := assoc "Meta" attrs in
    let attrs := dict_pop "Meta" attrs in
    let help_text := assoc "HelpText" attrs in
    let attrs := dict_pop "HelpText" attrs in
    let options := Options__init__ Meta help_text in
    let els := OrderedDict_of (sort_by_counter (collect_fields attrs)) in
    let attrs := without_fields attrs in
    _ ← check_groups (groups options) els;
    _ ← check_reserved RESERVED_FIELD_NAMES els;
    let options := _register_elements options els in
    options ← add_backends backend_registry (backends options) options;
    _ ← validate_backends backend_registry (backends options) options;
    let new_class := {| mc_name := name; mc_attrs := attrs; mc_meta := Some options |} in
    Return (new_class, dict_set name new_class registry).

End Metaclass.

(** ** The database and the signal callbacks *)

(** An instance of a tracked model: its model (what
    [ContentType.objects.get_for_model] gives), its primary key
    ([None] before the first save), the outcome of reading its
    attribute [id] (the primary key, with its [None], when the primary
    key of the model is the field [id]; [AttributeError] when the
    model has no [id]),
    the outcome of [get_absolute_url()] ([AttributeError] when the
    model has no such method) and the flag
    [_MetadataFormset__seo_metadata_handled]. *)
Record Tracked : Type := {
  t_model : nat;
  t_pk : option Z;
  t_id : result (option Z);
  t_url : result string;
  t_handled : bool
}.

(** A row of a metadata model; [row_id] is [None] for an object that
    was never saved. *)
Record MetadataRow : Type := {
  row_id : option nat;
  _content_type : option nat;
  _object_id : option Z;
  _path : string
}.

(** Modelled from the spec: the [Redirect] model is in models.py, which
    is not among the sources; "a stored mapping from an old URL path to
    a new one", with the site and the flag the callback sets. *)
Record Redirect : Type := {
  old_path : string;
  new_path : string;
  redirect_site : nat;
  all_subdomains : bool
}.

Global Instance Redirect_eq_dec : EqDecision Redirect.
Proof. solve_decision. Defined.

(** The stored rows of the tracked models (those of one model in the
    order in which [first()] takes them), the tables of the metadata
    models by model name, the redirects, [Site.objects.get_current()]
    and what was written to the logger. *)
Record Database : Type := {
  tracked : list Tracked;
  metadata : gmap string (list MetadataRow);
  redirects : list Redirect;
  current_site : result nat;
  log : list string
}.

Definition set_metadata (db : Database) (m : gmap string (list MetadataRow)) : Database :=
  {| tracked := tracked db; metadata := m; redirects := redirects db;
     current_site := current_site db; log := log db |}.

Definition set_redirects (db : Database) (rs : list Redirect) : Database :=
  {| tracked := tracked db; metadata := metadata db; redirects := rs;
     current_site := current_site db; log := log db |}.

Definition add_log (db : Database) (line : string) : Database :=
  {| tracked := tracked db; metadata := metadata db; redirects := redirects db;
     current_site := current_site db; log := log db ++ [line] |}.

Definition table (db : Database) (model_class : string) : list MetadataRow :=
  default [] (metadata db !! model_class).

Definition set_path (md : MetadataRow) (path : string) : MetadataRow :=
  {| row_id := row_id md; _content_type := _content_type md;
     _object_id := _object_id md; _path := path |}.

Definition fresh_id (rows : list MetadataRow) : nat :=
  S (max_list (omap row_id rows)).

(** The save of Django's [Model], which [super().save()] reaches: the
    row with the same id is overwritten; a row that is not stored yet
    is inserted. *)
Definition save_row (md : MetadataRow) (rows : list MetadataRow) : list MetadataRow :=
  match row_id md with
  | Some id =>
      if decide (Some id ∈ row_id <$> rows)
      then (λ r, if decide (row_id r = Some id) then md else r) <$> rows
      else rows ++ [md]
  | None =>
      rows ++ [{| row_id := Some (fresh_id rows); _content_type := _content_type md;
                  _object_id := _object_id md; _path := _path md |}]
  end.

Definition Model_save (model_class : string) (md : MetadataRow) (db : Database)
    : Database :=
  set_metadata db (<[model_class := save_row md (table db model_class)]> (metadata db)).

(** [md._content_object]: the generic foreign key, [None] when the
    target is not stored. *)
Definition _content_object (md : MetadataRow) (db : Database) : option Tracked :=
  match _content_type md, _object_id md with
  | Some ct, Some oid =>
      head (filter (λ t, t_model t = ct ∧ t_pk t = Some oid) (tracked db))
  | _, _ => None
  end.

Definition IntegrityError : exn := OtherError "IntegrityError".

(** Modelled from the spec: [save] of a row of the model-instance
    backend is in backends.py, which is not among the sources.  The
    rows are kept "in lockstep with the lifecycle of arbitrary tracked
    models": the method overrides Django's and first takes [_path]
    from [self._content_object.get_absolute_url], the stored object
    the row points to, leaving [_path] as it is when there is no such
    object or it has no such method (an exception of the call itself
    goes to the caller); then the row is stored, and the column
    [_object_id] refuses [None].  What is returned is the object
    afterwards and the database; no other constraint of the table is
    modelled. *)
Definition save (model_class : string) (md : MetadataRow) (db : Database)
    : result (MetadataRow * Database) :=
  md ← match _content_object md db with
       | Some content_object =>
           match t_url content_object with
           | Return path => Return (set_path md path)
           | Raise AttributeError => Return md
           | Raise e => Raise e
           end
       | None => Return md
       end;
  if decide (_object_id md = None) then Raise IntegrityError
  else
    let md :=
      match row_id md with
      | Some _ => md
      | None =>
          {| row_id := Some (fresh_id (table db model_class));
             _content_type := _content_type md; _object_id := _object_id md;
             _path := _path md |}
      end in
    Return (md, Model_save model_class md db).

(** Modelled from the spec: the manager method [get_instances] is in
    backends.py, which is not among the sources; for the model-instance
    backend it gives the rows stored for the path. *)
Definition get_instances (path : string) (rows : list MetadataRow) : list MetadataRow :=
  filter (λ r, _path r = path) rows.

Definition linked_to (content_type : nat) (pk : option Z) (r : MetadataRow) : Prop :=
  _content_type r = Some content_type ∧ _object_id r = pk.

Global Instance linked_to_dec ct pk r : Decision (linked_to ct pk r).
Proof. unfold linked_to. apply _. Defined.

(** [objects.get_or_create(_content_type=.., _object_id=..)]: the one
    matching row, or, when none matches, a new row, which is saved
    (with [save] above) before it is returned. *)
Definition get_or_create (model_class : string) (content_type : nat) (pk : option Z)
    (db : Database) : result (MetadataRow * Database) :=
  match filter (linked_to content_type pk) (table db model_class) with
  | [] =>
      save model_class
        {| row_id := None; _content_type := Some content_type; _object_id := pk;
           _path := "" |} db
  | [md] => Return (md, db)
  | _ => Raise MultipleObjectsReturned
  end.

(** How the [for] loop of [create_metadata_instance] ends: it runs to
    its end with [metadata] set or not, or the function returns from
    inside it. *)
Inductive loop_exit : Type :=
  | Completed (found : option MetadataRow) (db : Database)
  | Returned (db : Database).

Fixpoint repoint_loop (metadata_class : string) (content_type : nat)
    (instance : Tracked) (mds : list MetadataRow) (found : option MetadataRow)
    (db : Database) : result loop_exit :=
  match mds with
  | [] => Return (Completed found db)
  | md :: mds' =>
      if decide (linked_to content_type (t_pk instance) md) then
        repoint_loop metadata_class content_type instance mds' (Some md) db
      else
        match _content_object md db with
        | None => Return (Returned db)
        | Some other =>
            url ← t_url other;
            '(_, db') ← save metadata_class (set_path md url) db;
            repoint_loop metadata_class content_type instance mds' found db'
        end
  end.

Definition create_metadata_instance (metadata_class : string) (instance : Tracked)
    (db : Database) : result Database :=
  if t_handled instance then Return db
  else
    let content_type := t_model instance in
    match t_url instance with
    | Raise AttributeError => Return db
    | Raise e => Raise e
    | Return path =>
        exit ← repoint_loop metadata_class content_type instance
                 (get_instances path (table db metadata_class)) None db;
        match exit with
        | Returned db' => Return db'
        | Completed (Some _) db' => Return db'
        | Completed None db' =>
            '(md, db'') ← get_or_create metadata_class content_type (t_pk instance) db';
            '(_, db''') ← save metadata_class (set_path md path) db'';
            Return db'''
        end
    end.

(** [populate_metadata]: "ensure there is metadata for every instance". *)
Definition populate_metadata (model : nat) (MetadataClass : string) (db : Database)
    : result Database :=
  foldl (λ r instance, db' ← r; create_metadata_instance MetadataClass instance db')
        (Return db) (filter (λ t, t_model t = model) (tracked db)).

Definition _update_callback (model_class : string) (sender : nat)
    (instance : Tracked) (created : bool) (db : Database) : result Database :=
  create_metadata_instance model_class instance db.

(** [not instance.pk] *)
Definition pk_truthy (pk : option Z) : bool :=
  match pk with
  | Some k => if decide (k = 0%Z) then false else true
  | None => false
  end.

(** [Redirect.objects.get_or_create(...)] *)
Definition get_or_create_redirect (r : Redirect) (rs : list Redirect)
    : result (list Redirect) :=
  match filter (λ r', r' = r) rs with
  | [] => Return (rs ++ [r])
  | [_] => Return rs
  | _ => Raise MultipleObjectsReturned
  end.

(** The body of the [try] block; [before] is the URL of the first
    stored object of [sender] whose [id] is [instance.id]
    ([filter(id=instance.id).first()], with [AttributeError] from
    [None.get_absolute_url] when there is none). *)
Definition redirect_for_change (sender : nat) (instance : Tracked) (db : Database)
    : result Database :=
  after ← t_url instance;
  instance_id ← t_id instance;
  stored ← match head (filter (λ t, t_model t = sender ∧ t_id t = Return instance_id)
                              (tracked db)) with
           | Some o => Return o
           | None => Raise AttributeError
           end;
  before ← t_url stored;
  if decide (before ≠ after) then
    site ← current_site db;
    rs ← get_or_create_redirect
           {| old_path := before; new_path := after; redirect_site := site;
              all_subdomains := true |} (redirects db);
    Return (set_redirects db rs)
  else Return db.

(** The callback's outcome for its caller and the database afterwards.
    [import_Redirect] is the outcome of [from .models import Redirect]
    in the first line of the body, outside the [try] (models.py is not
    among the sources; "avoid RuntimeError for apps without enabled
    redirects", says the comment above the import). *)
Definition _handle_redirects_callback (import_Redirect : result unit) (sender : nat)
    (instance : Tracked) (db : Database) : result unit * Database :=
  match import_Redirect with
  | Raise e => (Raise e, db)
  | Return _ =>
      if negb (pk_truthy (t_pk instance)) then (Return tt, db)
      else
        match redirect_for_change sender instance db with
        | Return db' => (Return tt, db')
        | Raise e => (Return tt, add_log db "Failed to create new redirect")
        end
  end.

Definition _delete_callback (model_class : string) (sender : nat)
    (instance : Tracked) (db : Database) : Database :=
  let content_type := t_model instance in
  set_metadata db
    (alter (filter (λ r, ¬ linked_to content_type (t_pk instance) r))
           model_class (metadata db)).

(** ** Looking metadata up *)

Definition _get_metadata_model (registry : list (string * MetaClass))
    (name : option string) : result MetaClass :=
  match name with
  | Some n =>
      match assoc n registry with
      | Some c => Return c
      | None => Raise (NoSuchMetadata n)
      end
  | None =>
      match registry with
      | [(_, c)] => Return c
      | _ => Raise (AssertionError "You must have exactly one Metadata class, if using get_metadata() without a 'name' parameter.")
      end
  end.

(** [objects.get(...)] over the rows that satisfy the lookup. *)
Definition objects_get (matching : list MetadataRow) : result MetadataRow :=
  match matching with
  | [] => Raise DoesNotExist
  | [md] => Return md
  | _ => Raise MultipleObjectsReturned
  end.

(** [try: md = ...get(...) except DoesNotExist: md = fresh] *)
Definition get_or_fresh (matching : list MetadataRow) (fresh : MetadataRow)
    : result MetadataRow :=
  match objects_get matching with
  | Raise DoesNotExist => Return fresh
  | r => r
  end.

(** [InstanceMetadata(_content_object=obj)] and
    [ModelMetadata(_content_type=content_type)], both unsaved. *)
Definition fresh_instance_md (obj : Tracked) : MetadataRow :=
  {| row_id := None; _content_type := Some (t_model obj);
     _object_id := t_pk obj; _path := "" |}.

Definition fresh_model_md (content_type : nat) : MetadataRow :=
  {| row_id := None; _content_type := Some content_type;
     _object_id := None; _path := "" |}.

(** The metadata class's [_meta]. *)
Definition meta_of (cls : MetaClass) : result Options :=
  match mc_meta cls with
  | Some o => Return o
  | None => Raise AttributeError
  end.

Section Lookup.
Variable md5_hex : string → string.
Variable iri_to_uri : string → string.

(** The instances [get_linked_metadata] gathers, in order. *)
Definition linked_instances (meta : Options) (obj : Tracked) (db : Database)
    : result (list MetadataRow) :=
  let InstanceMetadata := get_model meta "modelinstance" in
  let ModelMetadata := get_model meta "model" in
  let content_type := t_model obj in
  instances ←
    match InstanceMetadata with
    | Some m =>
        instance_md ← get_or_fresh
          (filter (linked_to content_type (t_pk obj)) (table db m))
          (fresh_instance_md obj);
        Return [instance_md]
    | None => Return []
    end;
  match ModelMetadata with
  | Some m =>
      model_md ← get_or_fresh
        (filter (λ r, _content_type r = Some content_type) (table db m))
        (fresh_model_md content_type);
      Return (instances ++ [model_md])
  | None => Return instances
  end.

(** [get_linked_metadata] hands the class itself to [FormattedMetadata],
    so [metadata.__class__] is the metaclass. *)
Definition get_linked_metadata (registry : list (string * MetaClass))
    (obj : Tracked) (name : option string) (site : option Site)
    (language subdomain : option string) (db : Database)
    : result (FormattedMetadata MetadataRow) :=
  Metadata ← _get_metadata_model registry name;
  meta ← meta_of Metadata;
  instances ← linked_instances meta obj db;
  FormattedMetadata__init__ md5_hex iri_to_uri
    {| class_name := "MetadataBase"; _meta := meta |}
    (PyList instances) "" site language subdomain.

(** [_get_formatted_data] hands over an object of the class and the
    generator [_get_instances]; [found] is what that generator yields. *)
Definition _get_formatted_data (cls : MetaClass) (found : list MetadataRow)
    (path : string) (site : option Site) (language subdomain : option string)
    : result (FormattedMetadata MetadataRow) :=
  meta ← meta_of cls;
  FormattedMetadata__init__ md5_hex iri_to_uri
    {| class_name := mc_name cls; _meta := meta |}
    (Generator found) path site language subdomain.

Definition get_metadata (registry : list (string * MetaClass))
    (found : list MetadataRow) (path : string) (name : option string)
    (site : option Site) (language subdomain : option string)
    : result (FormattedMetadata MetadataRow) :=
  metadata ← _get_metadata_model registry name;
  _get_formatted_data metadata found path site language subdomain.

End Lookup.

(** ** FormattedMetadata.__str__ *)

Section Str.
(** [e.head] of a field (fields.py), and the ordinary attribute lookup:
    [getattr(self, f)] reaches [__getattr__] only for a name that the
    object and its class do not have themselves; for a name they have
    ([_resolve_value], the mangled private names, the names of every
    object) [own_attribute] gives the text of what is found. *)
Context {I : Type}.
Variable inst_resolve : I → string → pyval.
Variable strip : string → string.
Variable is_head : MetadataField → bool.
Variable own_attribute : string → option (FormattedMetadata I → string).

(** [bool(bound)] *)
Definition BoundMetadataField__bool__ (b : BoundMetadataField) : bool :=
  truthy (bf_value b).

(** [six.text_type(...)] of what [__getattr__] hands back *)
Definition text_type (a : attribute) : string :=
  match a with
  | GroupText (PStr s) => s
  | GroupText PNone => "None"
  | Bound b => make_safe b
  end.

(** [six.text_type(getattr(self, f))] *)
Definition getattr_text (depth : nat) (f : string) (fm : FormattedMetadata I)
    (c : gmap string pyval)
    : result string * FormattedMetadata I * gmap string pyval :=
  match own_attribute f with
  | Some text => (Return (text fm), fm, c)
  | None =>
      match FormattedMetadata__getattr__ inst_resolve strip depth f fm c with
      | (Raise ex, fm', c') => (Raise ex, fm', c')
      | (Return a, fm', c') => (Return (text_type a), fm', c')
      end
  end.

(** The generator expression of [__str__]: the text of every element
    with [head] set, in the order of [elements.items()]. *)
Fixpoint head_texts (depth : nat) (items : list (string * MetadataField))
    (fm : FormattedMetadata I) (c : gmap string pyval)
    : result (list string) * FormattedMetadata I * gmap string pyval :=
  match items with
  | [] => (Return [], fm, c)
  | (f, e) :: items' =>
      if is_head e then
        match getattr_text depth f fm c with
        | (Raise ex, fm', c') => (Raise ex, fm', c')
        | (Return text, fm', c') =>
            match head_texts depth items' fm' c' with
            | (Raise ex, fm'', c'') => (Raise ex, fm'', c'')
            | (Return texts, fm'', c'') => (Return (text :: texts), fm'', c'')
            end
        end
      else head_texts depth items' fm c
  end.

Definition FormattedMetadata__str__ (depth : nat) (fm : FormattedMetadata I)
    (c : gmap string pyval)
    : result string * FormattedMetadata I * gmap string pyval :=
  let value :=
    match cache_prefix fm with
    | Some p => cache_get c p
    | None => PNone
    end in
  match value with
  | PStr s => (Return s, fm, c)
  | PNone =>
      match head_texts depth (elements (_meta (fm_metadata fm))) fm c with
      | (Raise ex, fm', c') => (Raise ex, fm', c')
      | (Return texts, fm', c') =>
          let value := String.concat newline texts in
          (Return value, fm',
           cache_set_opt c' (cache_prefix fm') (py_or (PStr value) (PStr "")))
      end
  end.

End Str.

(** ** MetadataBase._get_instances *)

Section GetInstances.
(** The manager method [get_instances] of a backend's model ([None]
    for a falsy result, which [or []] replaces by the empty list) and
    [_process_context] of an instance ([None] when the instance has no
    such method) are in backends.py; the arguments of the lookup are
    fixed for the generator. *)
Context {I Ctx : Type}.
Variable manager_get_instances :
  string → string → option Site → option string → option string → Ctx → option (list I).
Variable _process_context : I → option (Ctx → Ctx).
Variable path : string.
Variable site : option Site.
Variable language subdomain : option string.

(** [model.objects.get_instances(...) or []] *)
Definition query (model : string) (backend_context : Ctx) : list I :=
  default [] (manager_get_instances model path site language subdomain backend_context).

(** [if hasattr(instance, '_process_context'): ...] *)
Definition process (backend_context : Ctx) (instance : I) : Ctx :=
  match _process_context instance with
  | Some f => f backend_context
  | None => backend_context
  end.

(** The suspended generator: [backend_context], what is left of the
    inner loop, and what is left of [cls._meta.models.values()]. *)
Record generator : Type := {
  backend_context : Ctx;
  pending : list I;
  remaining : list string
}.

(** The call itself runs nothing of the body; [backend_context] is the
    dictionary [{'view_context': context}]. *)
Definition _get_instances (meta : Options) (backend_context : Ctx) : generator :=
  {| backend_context := backend_context; pending := [];
     remaining := (models meta).*2 |}.

(** [next(generator)]: the instance that is yielded ([None] for
    StopIteration), the generator afterwards, and the models whose
    manager was queried on the way. *)
Fixpoint generator_resume (backend_context : Ctx) (pending : list I)
    (remaining : list string) {struct remaining}
    : option I * generator * list string :=
  match pending with
  | instance :: pending' =>
      (Some instance,
       {| backend_context := process backend_context instance;
          pending := pending'; remaining := remaining |}, [])
  | [] =>
      match remaining with
      | [] =>
          (None, {| backend_context := backend_context; pending := [];
                    remaining := [] |}, [])
      | model :: remaining' =>
          let '(r, g, queried) :=
            generator_resume backend_context (query model backend_context) remaining' in
          (r, g, model :: queried)
      end
  end.

Definition generator_next (g : generator) : option I * generator * list string :=
  generator_resume (backend_context g) (pending g) (remaining g).

(** A consumer that asks for [n] instances (and stops earlier when the
    generator is exhausted): the instances, the models queried, and the
    generator afterwards. *)
Fixpoint draw (n : nat) (g : generator) : list I * list string * generator :=
  match n with
  | O => ([], [], g)
  | S n' =>
      match generator_next g with
      | (Some instance, g', queried) =>
          let '(instances, queried', g'') := draw n' g' in
          (instance :: instances, queried ++ queried', g'')
      | (None, g', queried) => ([], queried, g')
      end
  end.

(** What the loops yield when they run to their end, model by model:
    each model is queried with the context as the instances before it
    have left it. *)
Fixpoint instances_by_model (models : list string) (backend_context : Ctx)
    : list (list I) :=
  match models with
  | [] => []
  | model :: models' =>
      let found := query model backend_context in
      found :: instances_by_model models' (foldl process backend_context found)
  end.

End GetInstances.

(** ** register_signals *)

(** The three callbacks as [functools.partial] binds them, the signals
    they are connected to, and a call of [signal.connect(receiver,
    sender=model, weak=False)]. *)
Inductive callback : Type :=
  | update_callback (model_class : string)
  | delete_callback (model_class : string)
  | redirects_callback (model_class : option string).

Inductive signal : Type :=
  | post_save
  | pre_delete
  | pre_save.

Record connection : Type := {
  c_signal : signal;
  c_receiver : callback;
  c_sender : nat
}.

Global Instance callback_eq_dec : EqDecision callback.
Proof. solve_decision. Defined.

Global Instance signal_eq_dec : EqDecision signal.
Proof. solve_decision. Defined.

Global Instance connection_eq_dec : EqDecision connection.
Proof. solve_decision. Defined.

(** Reading the local variable [model_instance] before the first loop
    has assigned it. *)
Definition UnboundLocalError : exn :=
  OtherError "local variable 'model_instance' referenced before assignment".

Section RegisterSignals.
(** [metadata_class._meta.seo_models] (options.py),
    [getattr(settings, 'SEO_USE_REDIRECTS', False)] and the models that
    [import_tracked_models()] returns (utils.py). *)
Variable seo_models : Options → list nat.
Variable SEO_USE_REDIRECTS : bool.
Variable import_tracked_models : list nat.

(** The first loop: [model_instance] is the local variable, [None]
    while it is unbound; [calls] are the calls of [connect] so far. *)
Fixpoint connect_classes (classes : list MetaClass)
    (model_instance : option (option string)) (calls : list connection)
    : result (option (option string)) * list connection :=
  match classes with
  | [] => (Return model_instance, calls)
  | metadata_class :: classes' =>
      match mc_meta metadata_class with
      | None => (Raise AttributeError, calls)
      | Some meta =>
          match get_model meta "modelinstance" with
          | Some m =>
              connect_classes classes' (Some (Some m))
                (calls ++
                 flat_map (λ model,
                   [ {| c_signal := post_save; c_receiver := update_callback m;
                        c_sender := model |};
                     {| c_signal := pre_delete; c_receiver := delete_callback m;
                        c_sender := model |} ])
                   (seo_models meta))
          | None => connect_classes classes' (Some None) calls
          end
      end
  end.

(** The second loop. *)
Fixpoint connect_redirects (redirects_models : list nat)
    (model_instance : option (option string)) (calls : list connection)
    : result unit * list connection :=
  match redirects_models with
  | [] => (Return tt, calls)
  | model :: redirects_models' =>
      match model_instance with
      | None => (Raise UnboundLocalError, calls)
      | Some bound =>
          connect_redirects redirects_models' model_instance
            (calls ++ [ {| c_signal := pre_save;
                           c_receiver := redirects_callback bound;
                           c_sender := model |} ])
      end
  end.

(** The outcome and the calls of [connect] that were made, in order. *)
Definition register_signals (registry : list (string * MetaClass))
    : result unit * list connection :=
  match connect_classes registry.*2 None [] with
  | (Raise e, calls) => (Raise e, calls)
  | (Return model_instance, calls) =>
      if SEO_USE_REDIRECTS
      then connect_redirects import_tracked_models model_instance calls
      else (Return tt, calls)
  end.

End RegisterSignals.

(** ** Statements about the instance sequence

    [instances_of original] is what the backends provide, in order.
    [consistent all fm] relates an object to that sequence: a generator
    has handed out exactly what is in the cache; with a list, the cache
    holds a sequence of initial segments of the list. *)

Definition instances_of {I} (original : iterable I) : list I :=
  match original with
  | Generator rest => rest
  | PyList items => items
  end.

Definition consistent {I} (all : list I) (fm : FormattedMetadata I) : Prop :=
  match instances_original fm with
  | Generator rest => instances_cache fm ++ rest = all
  | PyList items =>
      items = all ∧
      ∃ segments, instances_cache fm = concat segments ∧
                  Forall (λ p, p `prefix_of` all) segments
  end.

(** Several loops in a row, each with its own stopping test: what each
    loop yielded, everything drawn from the original, and the object at
    the end. *)
Fixpoint instances_runs {I} (stops : list (I → bool)) (fm : FormattedMetadata I)
    : list (list I) * list I * FormattedMetadata I :=
  match stops with
  | [] => ([], [], fm)
  | stop :: stops' =>
      let '(yielded, drawn, _, fm') := instances_run stop fm in
      let '(yields, drawn', fm'') := instances_runs stops' fm' in
      (yielded :: yields, drawn ++ drawn', fm'')
  end.

(** Several calls of [_resolve_value] in a row on one object, each with
    its stack depth and name: the outcomes and the object at the end. *)
Fixpoint resolve_all {I} (inst_resolve : I → string → pyval)
    (calls : list (nat * string)) (fm : FormattedMetadata I)
    : list (result pyval) * FormattedMetadata I :=
  match calls with
  | [] => ([], fm)
  | (depth, name) :: calls' =>
      let '(r, fm') := _resolve_value inst_resolve depth name fm in
      let '(rs, fm'') := resolve_all inst_resolve calls' fm' in
      (r :: rs, fm'')
  end.

(** The value the specification gives a name: the first non-empty
    instance value in backend order, else the element's
    [populate_from], else [None]. *)
Inductive resolves {I} (inst_resolve : I → string → pyval) (all : list I)
    (els : list (string * MetadataField)) : string → pyval → Prop :=
  | resolves_instance name pre i post :
      all = pre ++ i :: post →
      Forall (λ j, truthy (inst_resolve j name) = false) pre →
      truthy (inst_resolve i name) = true →
      resolves inst_resolve all els name (inst_resolve i name)
  | resolves_callable name e f :
      Forall (λ j, truthy (inst_resolve j name) = false) all →
      assoc name els = Some e → populate_from e = PFCallable f →
      resolves inst_resolve all els name (f PNone)
  | resolves_literal name e v :
      Forall (λ j, truthy (inst_resolve j name) = false) all →
      assoc name els = Some e → populate_from e = PFLiteral v →
      resolves inst_resolve all els name v
  | resolves_name name e name' v :
      Forall (λ j, truthy (inst_resolve j name) = false) all →
      assoc name els = Some e → populate_from e = PFName name' →
      resolves inst_resolve all els name' v →
      resolves inst_resolve all els name v
  | resolves_not_set name e :
      Forall (λ j, truthy (inst_resolve j name) = false) all →
      assoc name els = Some e → populate_from e = PFNotSet →
      resolves inst_resolve all els name PNone
  | resolves_no_element name :
      Forall (λ j, truthy (inst_resolve j name) = false) all →
      assoc name els = None →
      resolves inst_resolve all els name PNone.

(** ** Statements about a sequence of accesses

    What a template does with the object: it reads an attribute,
    [metadata.name], or renders the object, [str(metadata)].
    [access_all] is several such accesses in a row, each with its
    stack depth: the outcomes, and the object and the cache at the
    end. *)

Inductive access : Type :=
  | ReadAttribute (name : string)
  | Render.

Inductive outcome : Type :=
  | Attr (a : attribute)
  | Text (s : string).

Section Accesses.
Context {I : Type}.
Variable inst_resolve : I → string → pyval.
Variable strip : string → string.
Variable is_head : MetadataField → bool.
Variable own_attribute : string → option (FormattedMetadata I → string).

Definition access_run (depth : nat) (op : access) (fm : FormattedMetadata I)
    (c : gmap string pyval)
    : result outcome * FormattedMetadata I * gmap string pyval :=
  match op with
  | ReadAttribute name =>
      match FormattedMetadata__getattr__ inst_resolve strip depth name fm c with
      | (Return a, fm', c') => (Return (Attr a), fm', c')
      | (Raise ex, fm', c') => (Raise ex, fm', c')
      end
  | Render =>
      match FormattedMetadata__str__ inst_resolve strip is_head own_attribute
              depth fm c with
      | (Return s, fm', c') => (Return (Text s), fm', c')
      | (Raise ex, fm', c') => (Raise ex, fm', c')
      end
  end.

Fixpoint access_all (ops : list (nat * access)) (fm : FormattedMetadata I)
    (c : gmap string pyval)
    : list (result outcome) * FormattedMetadata I * gmap string pyval :=
  match ops with
  | [] => ([], fm, c)
  | (depth, op) :: ops' =>
      let '(r, fm', c') := access_run depth op fm c in
      let '(rs, fm'', c'') := access_all ops' fm' c' in
      (r :: rs, fm'', c'')
  end.

End Accesses.

(** ** Statements about the metadata tables

    A table is well formed when its rows are stored (have an id) and
    the ids are distinct.  [other_url db r] is the URL of the object a
    row points to, when that object is stored and has one, and
    [repointed db ct pk mds r] is the row [r] after the loop of
    [create_metadata_instance] over [mds]: re-pointed to its own
    object's URL when it is among [mds] and belongs to another object
    than ([ct], [pk]). *)

Global Instance MetadataRow_eq_dec : EqDecision MetadataRow.
Proof. solve_decision. Defined.

Definition rows_wf (rows : list MetadataRow) : Prop :=
  NoDup (row_id <$> rows) ∧ Forall (λ r, is_Some (row_id r)) rows.

Definition other_url (db : Database) (r : MetadataRow) : option string :=
  match _content_object r db with
  | Some other =>
      match t_url other with
      | Return url => Some url
      | Raise _ => None
      end
  | None => None
  end.

Definition repointed (db : Database) (ct : nat) (pk : option Z)
    (mds : list MetadataRow) (r : MetadataRow) : MetadataRow :=
  if decide (r ∈ mds ∧ ¬ linked_to ct pk r)
  then set_path r (default (_path r) (other_url db r))
  else r.

(** What [create_metadata_instance] makes of a table, for an instance
    at [path]: [relinked] is a row afterwards (a row of the instance
    gets the instance's path, another row at that path the URL of its
    own object), and [created_rows] is the row that is added when the
    instance had none.  [same_but_table] says that two databases
    differ at most in one metadata table.  A database is [healthy]
    for a metadata model when the stored objects have distinct keys,
    the rows have distinct ids, every row points to a stored object
    that has a URL, and no object has two rows. *)

Definition relinked (db : Database) (instance : Tracked) (path : string)
    (r : MetadataRow) : MetadataRow :=
  if decide (linked_to (t_model instance) (t_pk instance) r) then set_path r path
  else if decide (_path r = path)
       then set_path r (default (_path r) (other_url db r))
       else r.

Definition created_rows (rows : list MetadataRow) (instance : Tracked) (path : string)
    : list MetadataRow :=
  match filter (linked_to (t_model instance) (t_pk instance)) rows with
  | [] => [{| row_id := Some (fresh_id rows); _content_type := Some (t_model instance);
              _object_id := t_pk instance; _path := path |}]
  | _ => []
  end.

Definition same_but_table (model_class : string) (db db' : Database) : Prop :=
  tracked db' = tracked db ∧ redirects db' = redirects db ∧
  current_site db' = current_site db ∧ log db' = log db ∧
  ∀ m, m ≠ model_class → metadata db' !! m = metadata db !! m.

(** The database when the loop of [create_metadata_instance] is left. *)
Definition exit_db (exit : loop_exit) : Database :=
  match exit with
  | Completed _ db => db
  | Returned db => db
  end.

(** What [register_signals] connects for one class, and the model that
    the class leaves in [model_instance]. *)
Definition class_connections (seo_models : Options → list nat) (cls : MetaClass)
    : list connection :=
  match mc_meta cls with
  | Some meta =>
      match get_model meta "modelinstance" with
      | Some m =>
          flat_map (λ model,
            [ {| c_signal := post_save; c_receiver := update_callback m;
                 c_sender := model |};
              {| c_signal := pre_delete; c_receiver := delete_callback m;
                 c_sender := model |} ])
            (seo_models meta)
      | None => []
      end
  | None => []
  end.

Definition bound_model (cls : MetaClass) : option string :=
  meta ← mc_meta cls; get_model meta "modelinstance".

(** The object [t] has a metadata row at [path]. *)
Definition has_metadata (db : Database) (model_class : string) (t : Tracked)
    (path : string) : Prop :=
  ∃ r, r ∈ table db model_class ∧ linked_to (t_model t) (t_pk t) r ∧ _path r = path.

Definition object_key (t : Tracked) : nat * option Z := (t_model t, t_pk t).

Definition healthy (db : Database) (model_class : string) : Prop :=
  NoDup (object_key <$> tracked db) ∧
  Forall (λ t, is_Some (t_pk t)) (tracked db) ∧
  rows_wf (table db model_class) ∧
  Forall (λ r, is_Some (other_url db r)) (table db model_class) ∧
  ∀ ct pk, length (filter (linked_to ct pk) (table db model_class)) ≤ 1.

(** ** Concrete inputs

    Small metadata classes, objects and databases on which the
    statements below are run. *)

Definition plain_field (counter : nat) (pf : populate) : MetadataField :=
  {| creation_counter := counter; populate_from := pf;
     clean := λ v, v; render := λ v, match v with PStr s => s | PNone => "" end |}.

(** A metadata class with a title, a description that falls back on
    the title, and keywords with a literal default. *)
Definition demo_elements : list (string * MetadataField) :=
  [("title", plain_field 1 PFNotSet);
   ("description", plain_field 2 (PFName "title"));
   ("keywords", plain_field 3 (PFLiteral (PStr "seo")))].

Definition demo_options (cache sites i18n subdomains : bool) : Options :=
  {| use_cache := cache; use_sites := sites; use_i18n := i18n;
     use_subdomains := subdomains; elements := demo_elements;
     groups := [("advanced", ["description"; "keywords"])];
     backends := ["modelinstance"; "model"];
     models := [("modelinstance", "DemoModelInstance"); ("model", "DemoModel")] |}.

Definition demo_metadata (cache sites i18n subdomains : bool) : MetadataObj :=
  {| class_name := "Demo"; _meta := demo_options cache sites i18n subdomains |}.

(** Three backend instances, numbered; only the second has a title and
    only the third a description. *)
Definition demo_resolve (i : nat) (name : string) : pyval :=
  if decide (i = 1 ∧ name = "title") then PStr "Second title"
  else if decide (i = 2 ∧ name = "description") then PStr "Third description"
  else PNone.

Definition demo_formatted (original : iterable nat) : FormattedMetadata nat :=
  {| fm_metadata := demo_metadata false false false false; cache_prefix := None;
     instances_original := original; instances_cache := [] |}.

Definition demo_cached : FormattedMetadata nat :=
  {| fm_metadata := demo_metadata true false false false;
     cache_prefix := Some "djangoseo.Demo.abc";
     instances_original := Generator [0; 1; 2]; instances_cache := [] |}.

(** Stand-ins for the digest and for [iri_to_uri] that leave the text
    as it is. *)
Definition plain_text (s : string) : string := s.

Definition never_stop {I} (i : I) : bool := false.

Definition stop_at (n i : nat) : bool := bool_decide (i = n).

(** A tracked object of model 1, stored with URL "/old", and the same
    object about to be saved with URL "/new". *)
Definition stored_page (pk : Z) : Tracked :=
  {| t_model := 1; t_pk := Some pk; t_id := Return (Some pk); t_url := Return "/old";
     t_handled := false |}.

Definition changed_page (pk : Z) : Tracked :=
  {| t_model := 1; t_pk := Some pk; t_id := Return (Some pk); t_url := Return "/new";
     t_handled := false |}.

Definition demo_db (pk : Z) (site : result nat) : Database :=
  {| tracked := [stored_page pk]; metadata := ∅; redirects := [];
     current_site := site; log := [] |}.

(** An object of a model (model 1) whose primary key is not the field
    [id] and which has no attribute [id], stored with URL "/old". *)
Definition slug_page (url : string) : Tracked :=
  {| t_model := 1; t_pk := Some 7%Z; t_id := Raise AttributeError; t_url := Return url;
     t_handled := false |}.

Definition slug_db : Database :=
  {| tracked := [slug_page "/old"]; metadata := ∅; redirects := [];
     current_site := Return 1; log := [] |}.

(** An instance of model 1 that was never saved. *)
Definition unsaved_page : Tracked :=
  {| t_model := 1; t_pk := None; t_id := Return None; t_url := Return "/new";
     t_handled := false |}.

(** A metadata row at "/new" left behind by an object (model 1,
    primary key 99) that is no longer stored. *)
Definition orphan_row : MetadataRow :=
  {| row_id := Some 1; _content_type := Some 1; _object_id := Some 99%Z;
     _path := "/new" |}.

Definition orphan_db : Database :=
  {| tracked := [changed_page 5];
     metadata := {["DemoModelInstance" := [orphan_row]]};
     redirects := []; current_site := Return 1; log := [] |}.

(** A row at "/new" that belongs to the stored object (model 1,
    primary key 9), whose own URL is "/moved". *)
Definition moved_page : Tracked :=
  {| t_model := 1; t_pk := Some 9%Z; t_id := Return (Some 9%Z); t_url := Return "/moved";
     t_handled := false |}.

Definition stale_row : MetadataRow :=
  {| row_id := Some 1; _content_type := Some 1; _object_id := Some 9%Z;
     _path := "/new" |}.

Definition clash_db : Database :=
  {| tracked := [changed_page 5; moved_page];
     metadata := {["DemoModelInstance" := [stale_row]]};
     redirects := []; current_site := Return 1; log := [] |}.

Definition demo_class (cache i18n : bool) : MetaClass :=
  {| mc_name := "Demo"; mc_attrs := [];
     mc_meta := Some (demo_options cache false i18n false) |}.

(** The body of a class with two fields declared in the order
    description, title, and its inner class Meta. *)
Definition demo_attrs : list (string * class_attr) :=
  [("Meta", AOther PNone);
   ("description", AField (plain_field 2 (PFName "title")));
   ("__module__", AOther (PStr "demo"));
   ("title", AField (plain_field 1 PFNotSet))].

Definition demo_backend (name : string) : Backend :=
  {| backend_name := name; backend_model := "Demo" +:+ name;
     backend_validate := λ _, None |}.

Definition demo_Options__init__ (Meta help_text : option class_attr) : Options :=
  {| use_cache := false; use_sites := false; use_i18n := false;
     use_subdomains := false; elements := [];
     groups := [("advanced", ["description"])];
     backends := ["path"]; models := [] |}.

(** A backend instance whose title is its path. *)
Definition row_title (r : MetadataRow) (name : string) : pyval :=
  if decide (name = "title") then PStr (_path r) else PNone.

(** The title and the description belong to the head of the page, the
    keywords do not; and the one name among the demo's that the
    ordinary lookup finds on the object itself. *)
Definition demo_is_head (e : MetadataField) : bool :=
  bool_decide (creation_counter e ≠ 3).

Definition demo_own_attribute {I} (f : string)
    : option (FormattedMetadata I → string) :=
  if decide (f = "_resolve_value") then Some (λ _, "<bound method>") else None.

(** The objects that [get_metadata] builds for the path "/p" and
    [get_linked_metadata] builds for any object, with caching on, and
    a bound title. *)
Definition demo_page (original : iterable MetadataRow) (seen : list MetadataRow)
    : FormattedMetadata MetadataRow :=
  {| fm_metadata := demo_metadata true false false false;
     cache_prefix := Some "djangoseo.Demo./p";
     instances_original := original; instances_cache := seen |}.

Definition demo_linked (original : iterable MetadataRow) (seen : list MetadataRow)
    : FormattedMetadata MetadataRow :=
  {| fm_metadata := {| class_name := "MetadataBase";
                       _meta := demo_options true false false false |};
     cache_prefix := Some "djangoseo.MetadataBase.";
     instances_original := original; instances_cache := seen |}.

Definition bound_title (v : pyval) : attribute :=
  Bound (BoundMetadataField__init__ (plain_field 1 PFNotSet) v).

(** What the demo object renders. *)
Definition demo_head_text : string :=
  "Second title" +:+ newline +:+ "Third description".

(** Two backends: the model of the first has the instances 0 and 1
    for every lookup, the model of the second the instance 2; every
    instance adds itself to the context. *)
Definition demo_manager (model path : string) (site : option Site)
    (language subdomain : option string) (backend_context : list nat)
    : option (list nat) :=
  if decide (model = "DemoModelInstance") then Some [0; 1]
  else if decide (model = "DemoModel") then Some [2]
  else None.

Definition demo_process_context (instance : nat) : option (list nat → list nat) :=
  Some (λ backend_context, backend_context ++ [instance]).


(** * Proofs *)

(** ** The loop over the instances *)

Section GeneratorFacts.
Context {I : Type}.
Implicit Types (stop : I → bool) (l : list I) (fm : FormattedMetadata I).

Lemma take_until_app stop l seen rest b :
  take_until stop l = (seen, rest, b) → l = seen ++ rest.
Proof.
  revert seen rest b. induction l as [|x l IH]; intros seen rest b; simpl.
  - intros [= <- <- <-]. reflexivity.
  - destruct (stop x).
    + intros [= <- <- <-]. reflexivity.
    + destruct (take_until stop l) as [[s r] b'].
      intros [= <- <- <-]. simpl. f_equal. eapply IH. reflexivity.
Qed.

Lemma take_until_stopped stop l seen rest :
  take_until stop l = (seen, rest, true) → seen ≠ [].
Proof.
  destruct l as [|x l]; simpl; [done|].
  destruct (stop x); [by intros [= <- <-]|].
  destruct (take_until stop l) as [[s r] b']. by intros [= <- <- ->].
Qed.

Lemma take_until_find stop l seen rest b :
  take_until stop l = (seen, rest, b) →
  (if b then last seen else None) = List.find stop l.
Proof.
  revert seen rest b. induction l as [|x l IH]; intros seen rest b; simpl.
  - intros [= <- <- <-]. reflexivity.
  - destruct (stop x) eqn:Hx.
    + intros [= <- <- <-]. reflexivity.
    + destruct (take_until stop l) as [[s r] b'] eqn:Hl.
      intros [= <- <- <-]. rewrite <- (IH _ _ _ eq_refl).
      destruct b'; [|reflexivity].
      destruct s as [|y s]; [|reflexivity].
      by apply take_until_stopped in Hl.
Qed.

Lemma take_until_all stop l seen rest :
  take_until stop l = (seen, rest, false) → seen = l ∧ rest = [].
Proof.
  revert seen rest. induction l as [|x l IH]; intros seen rest; simpl.
  - intros [= <- <-]. done.
  - destruct (stop x); [done|].
    destruct (take_until stop l) as [[s r] b'].
    intros [= <- <- ->]. destruct (IH _ _ eq_refl) as [-> ->]. done.
Qed.

Lemma find_app stop l1 l2 :
  List.find stop (l1 ++ l2) =
  match List.find stop l1 with Some x => Some x | None => List.find stop l2 end.
Proof.
  induction l1 as [|x l1 IH]; simpl; [reflexivity|].
  destruct (stop x); [reflexivity|apply IH].
Qed.

Lemma find_prefix stop p l x :
  p `prefix_of` l → List.find stop p = Some x → List.find stop l = Some x.
Proof. intros [k ->] H. rewrite find_app, H. reflexivity. Qed.

Lemma find_prefix_none stop p l :
  p `prefix_of` l → List.find stop l = None → List.find stop p = None.
Proof.
  intros [k ->]. rewrite find_app. destruct (List.find stop p); done.
Qed.

Lemma find_segments stop all segments :
  Forall (λ p, p `prefix_of` all) segments →
  List.find stop (concat segments ++ all) = List.find stop all.
Proof.
  induction 1 as [|p ps Hp _ IH]; simpl; [reflexivity|].
  rewrite <- (assoc_L (++)), find_app, IH.
  destruct (List.find stop p) eqn:Hf.
  - symmetry. eapply find_prefix; eassumption.
  - reflexivity.
Qed.

Lemma instances_run_meta stop fm ys drawn b fm' :
  instances_run stop fm = (ys, drawn, b, fm') →
  fm_metadata fm' = fm_metadata fm ∧ cache_prefix fm' = cache_prefix fm.
Proof.
  unfold instances_run.
  destruct (take_until stop (instances_cache fm)) as [[s r] [|]].
  - by intros [= <- <- <- <-].
  - destruct (instances_original fm) as [rest|items];
      destruct (take_until stop _) as [[d r'] b'];
      by intros [= <- <- <- <-].
Qed.

(** One loop keeps the object consistent and stops at the first item
    of the backend sequence that passes the test. *)
Lemma instances_run_find stop all fm ys drawn b fm' :
  consistent all fm →
  instances_run stop fm = (ys, drawn, b, fm') →
  consistent all fm' ∧ (if b then last ys else None) = List.find stop all.
Proof.
  unfold consistent, instances_run. intros Hc.
  destruct (take_until stop (instances_cache fm)) as [[s r] b0] eqn:Hs.
  pose proof (take_until_find _ _ _ _ _ Hs) as Hf.
  destruct b0.
  - intros [= <- <- <- <-]. split; [exact Hc|]. rewrite Hf.
    destruct (List.find stop (instances_cache fm)) as [x|] eqn:Hx.
    + destruct (instances_original fm) as [rest|items].
      * subst all. by rewrite find_app, Hx.
      * destruct Hc as [-> (segs & Hcache & Hsegs)].
        rewrite <- (find_segments stop all segs Hsegs), <- Hcache, find_app.
        by rewrite Hx.
    + apply last_None in Hf as ->.
      by apply take_until_stopped in Hs.
  - destruct (take_until_all _ _ _ _ Hs) as [-> ->].
    destruct (instances_original fm) as [rest|items] eqn:Ho.
    + destruct (take_until stop rest) as [[d r'] b'] eqn:Hd.
      intros [= <- <- <- <-]. simpl.
      pose proof (take_until_app _ _ _ _ _ Hd) as ->.
      split; [by rewrite <- (assoc_L (++))|].
      subst all. rewrite find_app, <- Hf.
      rewrite <- (take_until_find _ _ _ _ _ Hd).
      destruct b'; [|done].
      apply take_until_stopped in Hd.
      destruct d as [|y d] using rev_ind; [done|].
      by rewrite (assoc_L (++)), !last_snoc.
    + destruct Hc as [-> (segs & Hcache & Hsegs)].
      destruct (take_until stop all) as [[d r'] b'] eqn:Hd.
      intros [= <- <- <- <-]. simpl.
      pose proof (take_until_app _ _ _ _ _ Hd) as Hall.
      split.
      * split; [done|]. exists (segs ++ [d]). split.
        -- by rewrite concat_app, Hcache; simpl; rewrite (right_id_L [] (++)).
        -- apply Forall_app. split; [done|]. constructor; [|done].
           by exists r'.
      * rewrite <- (take_until_find _ _ _ _ _ Hd).
        destruct b'; [|done].
        apply take_until_stopped in Hd.
        destruct d as [|y d] using rev_ind; [done|].
        by rewrite (assoc_L (++)), !last_snoc.
Qed.

(** With a generator, a loop yields an initial segment of the backend
    sequence (all of it unless it stops early), and what it draws
    leaves the generator for the cache. *)
Lemma instances_run_generator stop fm rest ys drawn b fm' :
  instances_original fm = Generator rest →
  instances_run stop fm = (ys, drawn, b, fm') →
  ∃ rest', instances_original fm' = Generator rest' ∧
    rest = drawn ++ rest' ∧
    instances_cache fm' = instances_cache fm ++ drawn ∧
    ys `prefix_of` instances_cache fm ++ rest ∧
    (b = false → ys = instances_cache fm ++ rest).
Proof.
  unfold instances_run. intros Ho.
  destruct (take_until stop (instances_cache fm)) as [[s r] b0] eqn:Hs.
  pose proof (take_until_app _ _ _ _ _ Hs) as Hcache.
  destruct b0.
  - intros [= <- <- <- <-]. exists rest. rewrite Ho, (right_id_L [] (++)).
    repeat split; [|done]. rewrite Hcache, <- (assoc_L (++)). by eexists.
  - rewrite Ho. destruct (take_until stop rest) as [[d r'] b'] eqn:Hd.
    intros [= <- <- <- <-]. exists r'. simpl.
    pose proof (take_until_app _ _ _ _ _ Hd) as ->.
    repeat split.
    + rewrite (assoc_L (++)). by eexists.
    + intros ->. by destruct (take_until_all _ _ _ _ Hd) as [_ ->];
        rewrite (right_id_L [] (++)).
Qed.

End GeneratorFacts.

(** ** _resolve_value *)

Section ResolveFacts.
Context {I : Type}.
Variable inst_resolve : I → string → pyval.
Implicit Types (fm : FormattedMetadata I) (all : list I).

Local Abbreviation resolve_value := (_resolve_value inst_resolve).
Local Abbreviation empty_for name := (λ j, truthy (inst_resolve j name) = false).

Lemma find_Some_split (P : I → bool) l i :
  List.find P l = Some i ↔
  ∃ pre post, l = pre ++ i :: post ∧ Forall (λ j, P j = false) pre ∧ P i = true.
Proof.
  induction l as [|x l IH]; simpl.
  - split; [done|]. intros (pre & post & H & _). by destruct pre.
  - destruct (P x) eqn:Hx.
    + split.
      * intros [= ->]. by exists [], l.
      * intros (pre & post & H & Hpre & Hi). destruct pre as [|y pre].
        -- by injection H as -> _.
        -- injection H as -> _. apply Forall_cons in Hpre as [Hy _]. congruence.
    + rewrite IH. split.
      * intros (pre & post & -> & Hpre & Hi). exists (x :: pre), post.
        split; [done|]. split; [by constructor|done].
      * intros (pre & post & H & Hpre & Hi). destruct pre as [|y pre].
        -- injection H as -> _. congruence.
        -- injection H as -> ->. apply Forall_cons in Hpre as [_ Hpre].
           by exists pre, post.
Qed.

Lemma find_None_Forall (P : I → bool) l :
  List.find P l = None ↔ Forall (λ j, P j = false) l.
Proof.
  induction l as [|x l IH]; simpl; [by split|].
  destruct (P x) eqn:Hx.
  - split; [done|]. intros [Hx' _]%Forall_cons. congruence.
  - rewrite IH. split; [by constructor|by intros [_ ?]%Forall_cons].
Qed.

(** One call: the loop, then the fallback of the source. *)
Lemma resolve_value_step all fm depth name :
  consistent all fm →
  ∃ fm', consistent all fm' ∧ fm_metadata fm' = fm_metadata fm ∧
    cache_prefix fm' = cache_prefix fm ∧
    resolve_value (S depth) name fm =
      match List.find (nonempty_for inst_resolve name) all with
      | Some i => (Return (inst_resolve i name), fm')
      | None =>
          match assoc name (elements (_meta (fm_metadata fm))) with
          | Some e =>
              match populate_from e with
              | PFCallable f => (Return (f PNone), fm')
              | PFLiteral v => (Return v, fm')
              | PFNotSet => (Return PNone, fm')
              | PFName name' => resolve_value depth name' fm'
              end
          | None => (Return PNone, fm')
          end
      end.
Proof.
  intros Hc. simpl.
  destruct (instances_run (nonempty_for inst_resolve name) fm)
    as [[[ys drawn] b] fm'] eqn:Hrun.
  destruct (instances_run_find _ _ _ _ _ _ _ Hc Hrun) as [Hc' Hfind].
  destruct (instances_run_meta _ _ _ _ _ _ Hrun) as [Hm Hp].
  exists fm'. repeat split; try done.
  rewrite Hfind, Hm. reflexivity.
Qed.

Lemma resolve_value_consistent all depth name fm :
  consistent all fm →
  consistent all (resolve_value depth name fm).2 ∧
  fm_metadata (resolve_value depth name fm).2 = fm_metadata fm ∧
  cache_prefix (resolve_value depth name fm).2 = cache_prefix fm.
Proof.
  revert name fm. induction depth as [|depth IH]; intros name fm Hc; [done|].
  destruct (resolve_value_step all fm depth name Hc) as (fm' & Hc' & Hm & Hp & ->).
  destruct (List.find _ all); [done|].
  destruct (assoc name _) as [e|]; [|done].
  destruct (populate_from e); try done.
  destruct (IH name0 fm' Hc') as (? & ? & ?). repeat split; congruence.
Qed.

Lemma resolve_value_sound all depth name fm v :
  consistent all fm →
  (resolve_value depth name fm).1 = Return v →
  resolves inst_resolve all (elements (_meta (fm_metadata fm))) name v.
Proof.
  revert name fm. induction depth as [|depth IH]; intros name fm Hc; [done|].
  destruct (resolve_value_step all fm depth name Hc) as (fm' & Hc' & Hm & Hp & ->).
  destruct (List.find _ all) as [i|] eqn:Hfind.
  - intros [= <-]. apply find_Some_split in Hfind as (pre & post & -> & Hpre & Hi).
    by eapply resolves_instance.
  - apply find_None_Forall in Hfind.
    destruct (assoc name _) as [e|] eqn:He.
    + destruct (populate_from e) eqn:Hpf.
      * intros [= <-]. by eapply resolves_callable.
      * intros [= <-]. by eapply resolves_literal.
      * intros [= <-]. by eapply resolves_not_set.
      * intros Hv. eapply resolves_name; [done..|].
        rewrite <- Hm. by apply IH.
    + intros [= <-]. by apply resolves_no_element.
Qed.

Lemma resolve_value_complete all els name v :
  resolves inst_resolve all els name v →
  ∃ d0, ∀ depth fm, d0 ≤ depth → consistent all fm →
    elements (_meta (fm_metadata fm)) = els →
    (resolve_value depth name fm).1 = Return v.
Proof.
  induction 1 as [name pre i post Hall Hpre Hi|name e f Hall He Hpf
    |name e v Hall He Hpf|name e name' v Hall He Hpf _ [d0 IH]
    |name e Hall He Hpf|name Hall He].
  1: assert (List.find (nonempty_for inst_resolve name) all = Some i) as Hfind
       by (apply find_Some_split; eauto).
  2-6: apply (find_None_Forall (nonempty_for inst_resolve name)) in Hall.
  1-3,5-6: exists 1; intros [|depth] fm Hd Hc Hels; [lia|];
    destruct (resolve_value_step all fm depth name Hc) as (fm' & _ & _ & _ & ->);
    rewrite ?Hfind, ?Hall, ?Hels, ?He, ?Hpf; done.
  exists (S d0). intros [|depth] fm Hd Hc Hels; [lia|].
  destruct (resolve_value_step all fm depth name Hc) as (fm' & Hc' & Hm & _ & ->).
  rewrite Hall, Hels, He, Hpf. apply IH; [lia|done|congruence].
Qed.

Lemma resolve_value_raises all depth name fm e :
  consistent all fm →
  (resolve_value depth name fm).1 = Raise e → e = RecursionError.
Proof.
  revert name fm. induction depth as [|depth IH]; intros name fm Hc.
  - by intros [= <-].
  - destruct (resolve_value_step all fm depth name Hc) as (fm' & Hc' & _ & _ & ->).
    destruct (List.find _ all); [done|].
    destruct (assoc name _) as [el|]; [|done].
    destruct (populate_from el); try done. by apply IH.
Qed.

(** C1 (FormattedMetadata._resolve_value): for every field name and
    every sequence of backend instances, a call that returns gives the
    value of the first instance, in backend order, whose own value for
    the name is non-empty; when every instance is empty it gives the
    element's [populate_from] (a callable applied to [None], the value
    of a [Literal], another field resolved in turn), and [None] when
    the name is no element or nothing is set.  Every value so described
    is returned once the stack is deep enough for the chain of names,
    and a call can only fail by exhausting the stack. *)
Theorem resolve_value_first_nonempty all fm name v :
  consistent all fm →
  (resolves inst_resolve all (elements (_meta (fm_metadata fm))) name v →
   ∃ d0, ∀ depth, d0 ≤ depth → (resolve_value depth name fm).1 = Return v) ∧
  (∀ depth, (resolve_value depth name fm).1 = Return v →
   resolves inst_resolve all (elements (_meta (fm_metadata fm))) name v) ∧
  (∀ depth e, (resolve_value depth name fm).1 = Raise e → e = RecursionError).
Proof.
  intros Hc. split; [|split].
  - intros Hr. destruct (resolve_value_complete _ _ _ _ Hr) as [d0 Hd0].
    exists d0. intros depth Hd. by apply Hd0.
  - intros depth. by apply resolve_value_sound.
  - intros depth e. by apply (resolve_value_raises all).
Qed.

End ResolveFacts.

(** ** Attribute access and the cache *)

Section GetattrFacts.
Context {I : Type}.
Variable strip : string → string.
Implicit Types (fm : FormattedMetadata I) (c : gmap string pyval).

Lemma cache_key_enabled fm name p :
  cache_prefix fm = Some p → p ≠ "" →
  cache_key_of fm name = Some (p +:+ "." +:+ name).
Proof. unfold cache_key_of. intros -> Hp. by rewrite decide_False. Qed.

(** C2 (FormattedMetadata.__getattr__ on an element, caching enabled):
    a value held by the cache under the element's key is returned as a
    bound field, the empty text counting as no value, and no instance
    is consulted (the object is unchanged and the instances' values do
    not matter); on a miss the value is resolved from the instances and
    then written to the cache, an empty value as the empty text. *)
Theorem getattr_element_read_through
    (inst_resolve inst_resolve' : I → string → pyval)
    depth name fm c p e :
  cache_prefix fm = Some p → p ≠ "" →
  assoc name (groups (_meta (fm_metadata fm))) = None →
  assoc name (elements (_meta (fm_metadata fm))) = Some e →
  let key := p +:+ "." +:+ name in
  (cache_get c key ≠ PNone →
     FormattedMetadata__getattr__ inst_resolve strip depth name fm c =
       (Return (Bound (BoundMetadataField__init__ e (py_or (cache_get c key) PNone))),
        fm, c) ∧
     FormattedMetadata__getattr__ inst_resolve' strip depth name fm c =
       FormattedMetadata__getattr__ inst_resolve strip depth name fm c ∧
     (cache_get c key = PStr "" →
      bf_value (BoundMetadataField__init__ e (py_or (cache_get c key) PNone)) = PNone)) ∧
  (cache_get c key = PNone →
     ∀ v fm', _resolve_value inst_resolve depth name fm = (Return v, fm') →
       FormattedMetadata__getattr__ inst_resolve strip depth name fm c =
         (Return (Bound (BoundMetadataField__init__ e v)), fm',
          <[key := py_or v (PStr "")]> c) ∧
       (truthy v = false → (<[key := py_or v (PStr "")]> c) !! key = Some (PStr ""))).
Proof.
  intros Hp Hne Hg He key. split.
  - intros Hhit. unfold FormattedMetadata__getattr__.
    rewrite (cache_key_enabled _ _ _ Hp Hne), Hg, He. fold key.
    destruct (decide (cache_get c key = PNone)) as [?|_]; [done|].
    split; [done|split; [done|]].
    intros Hempty. rewrite Hempty. reflexivity.
  - intros Hmiss v fm' Hres. unfold FormattedMetadata__getattr__.
    rewrite (cache_key_enabled _ _ _ Hp Hne), Hg, He. fold key.
    rewrite decide_True by done. rewrite Hres. simpl. split; [done|].
    intros Hv. unfold py_or. rewrite Hv. apply lookup_insert_eq.
Qed.

End GetattrFacts.

(** ** The cache prefix *)

Lemma string_app_nil (s : string) : "" +:+ s = s.
Proof. reflexivity. Qed.

Lemma string_app_cons (a : Ascii.ascii) (s1 s2 : string) :
  String a s1 +:+ s2 = String a (s1 +:+ s2).
Proof. reflexivity. Qed.

Lemma string_app_assoc (s1 s2 s3 : string) :
  (s1 +:+ s2) +:+ s3 = s1 +:+ s2 +:+ s3.
Proof.
  induction s1 as [|a s1 IH]; [done|].
  by rewrite !string_app_cons, IH.
Qed.

Lemma string_app_length (s1 s2 : string) :
  String.length (s1 +:+ s2) = String.length s1 + String.length s2.
Proof.
  induction s1 as [|a s1 IH]; [done|].
  rewrite string_app_cons. simpl. by rewrite IH.
Qed.

Lemma string_app_inv_head (s t1 t2 : string) : s +:+ t1 = s +:+ t2 → t1 = t2.
Proof.
  induction s as [|a s IH]; [done|].
  rewrite !string_app_cons. intros [= H]. by apply IH.
Qed.

Lemma string_app_inv_tail (s1 s2 t : string) : s1 +:+ t = s2 +:+ t → s1 = s2.
Proof.
  revert s2. induction s1 as [|a s1 IH]; intros [|b s2];
    rewrite ?string_app_cons, ?string_app_nil; try done.
  - intros H. apply (f_equal String.length) in H. simpl in H.
    rewrite string_app_length in H. lia.
  - intros H. apply (f_equal String.length) in H. simpl in H.
    rewrite string_app_length in H. lia.
  - intros [= -> H]. f_equal. by apply IH.
Qed.

Lemma string_app_same_length (h1 h2 t1 t2 : string) :
  String.length h1 = String.length h2 → h1 +:+ t1 = h2 +:+ t2 → h1 = h2.
Proof.
  revert h2. induction h1 as [|a h1 IH]; intros [|b h2];
    rewrite ?string_app_cons; simpl; try done.
  intros [= Hl] [= -> H]. f_equal. by apply IH.
Qed.

Lemma concat_cons2 (sep x y : string) (ss : list string) :
  String.concat sep (x :: y :: ss) = x +:+ sep +:+ String.concat sep (y :: ss).
Proof. reflexivity. Qed.

Lemma concat_snoc (sep : string) (ss : list string) (s : string) :
  ss ≠ [] → String.concat sep (ss ++ [s]) = String.concat sep ss +:+ sep +:+ s.
Proof.
  induction ss as [|x ss IH]; [done|]. intros _.
  destruct ss as [|y ss]; [done|].
  change ((x :: y :: ss) ++ [s]) with (x :: (y :: ss) ++ [s]).
  change ((y :: ss) ++ [s]) with (y :: ss ++ [s]) at 1.
  rewrite concat_cons2.
  change (y :: ss ++ [s]) with ((y :: ss) ++ [s]).
  rewrite IH by done. by rewrite concat_cons2, !string_app_assoc.
Qed.

Section PrefixFacts.
Context {I : Type}.
Variable md5_hex : string → string.
Variable iri_to_uri : string → string.

Local Abbreviation init := (@FormattedMetadata__init__ I md5_hex iri_to_uri).
Local Abbreviation digest := (hexpath md5_hex iri_to_uri).

(** The bits of the prefix, in order. *)
Lemma init_prefix_layout metadata instances path site language subdomain fm :
  use_cache (_meta metadata) = true →
  init metadata instances path site language subdomain = Return fm →
  (use_i18n (_meta metadata) = true → is_Some language) ∧
  cache_prefix fm = Some (String.concat "."
    (["djangoseo"; class_name metadata;
      md5_hex (iri_to_uri
        ((if use_sites (_meta metadata)
          then from_option domain "" site else "") +:+ path))]
     ++ (if use_i18n (_meta metadata) then option_list language else [])
     ++ (if use_subdomains (_meta metadata) then option_list subdomain else []))).
Proof.
  unfold FormattedMetadata__init__, prefix_bits, hexpath. intros ->.
  destruct site as [[d]|], (use_sites (_meta metadata)),
    (use_i18n (_meta metadata)), language as [l|], subdomain as [sd|],
    (use_subdomains (_meta metadata));
    simpl; intros [= <-]; (split; [by eauto|done]) || (split; [done|done]).
Qed.

Lemma init_prefix_nonempty metadata instances path site language subdomain fm p :
  init metadata instances path site language subdomain = Return fm →
  cache_prefix fm = Some p → p ≠ "".
Proof.
  unfold FormattedMetadata__init__, prefix_bits.
  destruct (use_cache (_meta metadata)); [|by intros [= <-]].
  destruct (use_i18n (_meta metadata)), language as [l|], subdomain as [sd|],
    (use_subdomains (_meta metadata));
    simpl; intros [= <-] [= <-]; done.
Qed.

Lemma init_uncached metadata instances path site language subdomain :
  use_cache (_meta metadata) = false →
  ∃ fm, init metadata instances path site language subdomain = Return fm ∧
        cache_prefix fm = None.
Proof. unfold FormattedMetadata__init__. intros ->. by eexists. Qed.

Lemma init_consistent metadata instances path site language subdomain fm :
  init metadata instances path site language subdomain = Return fm →
  consistent (instances_of instances) fm ∧ fm_metadata fm = metadata.
Proof.
  unfold FormattedMetadata__init__.
  destruct (use_cache (_meta metadata)).
  - destruct (join_bits _); [|done]. intros [= <-]. split; [|done].
    unfold consistent. simpl. destruct instances; simpl; [done|].
    split; [done|]. by exists [].
  - intros [= <-]. split; [|done].
    unfold consistent. simpl. destruct instances; simpl; [done|].
    split; [done|]. by exists [].
Qed.

End PrefixFacts.

Lemma string_app_nil_r (s : string) : s +:+ "" = s.
Proof.
  induction s as [|a s IH]; [done|]. by rewrite string_app_cons, IH.
Qed.

Lemma concat_head (sep h : string) (ss : list string) :
  String.concat sep (h :: ss) =
  h +:+ match ss with [] => "" | _ => sep +:+ String.concat sep ss end.
Proof. destruct ss; [by rewrite string_app_nil_r|done]. Qed.

Lemma string_app_not_longer (s t : string) : s = s +:+ t → t = "".
Proof.
  intros H. apply (f_equal String.length) in H.
  rewrite string_app_length in H. destruct t; [done|simpl in H; lia].
Qed.

Section PrefixSeparation.
Context {I : Type}.
Variable md5_hex : string → string.
Variable iri_to_uri : string → string.

Local Abbreviation init := (@FormattedMetadata__init__ I md5_hex iri_to_uri).
Local Abbreviation digest := (hexpath md5_hex iri_to_uri).

Lemma hexpath_unfold meta path site :
  digest meta path site =
  md5_hex (iri_to_uri
    ((if use_sites meta then from_option domain "" site else "") +:+ path)).
Proof. unfold hexpath. by destruct site as [[d]|], (use_sites meta). Qed.

Lemma init_cache_key metadata instances path site language subdomain fm name :
  use_cache (_meta metadata) = true →
  init metadata instances path site language subdomain = Return fm →
  ∃ p, cache_prefix fm = Some p ∧ cache_key_of fm name = Some (p +:+ "." +:+ name).
Proof.
  intros Hc Hinit.
  destruct (init_prefix_layout _ _ _ _ _ _ _ _ _ Hc Hinit) as [_ Hp].
  eexists. split; [exact Hp|].
  eapply cache_key_enabled; [exact Hp|].
  eapply init_prefix_nonempty; [exact Hinit|exact Hp].
Qed.

Lemma language_separates (a b h l1 l2 : string) (S : list string) :
  String.concat "." ([a; b; h] ++ [l1] ++ S) =
  String.concat "." ([a; b; h] ++ [l2] ++ S) → l1 = l2.
Proof.
  simpl app. rewrite !(concat_cons2 _ a), !(concat_cons2 _ b), !(concat_cons2 _ h).
  intros H. do 6 apply string_app_inv_head in H.
  rewrite !concat_head in H. by apply string_app_inv_tail in H.
Qed.

Lemma subdomain_separates (B : list string) (s1 s2 : option string) :
  B ≠ [] →
  String.concat "." (B ++ option_list s1) = String.concat "." (B ++ option_list s2) →
  s1 = s2.
Proof.
  intros HB. destruct s1 as [s1|], s2 as [s2|]; simpl;
    rewrite ?concat_snoc, ?(right_id_L [] (++)) by done; intros H.
  - do 2 apply string_app_inv_head in H. by subst.
  - symmetry in H. by apply string_app_not_longer in H.
  - by apply string_app_not_longer in H.
  - done.
Qed.

Lemma digest_separates (a b h1 h2 : string) (T1 T2 : list string) :
  String.length h1 = String.length h2 →
  String.concat "." ([a; b; h1] ++ T1) = String.concat "." ([a; b; h2] ++ T2) →
  h1 = h2.
Proof.
  intros Hl. simpl app. rewrite !(concat_cons2 _ a), !(concat_cons2 _ b).
  intros H. do 4 apply string_app_inv_head in H.
  rewrite !concat_head in H. by apply string_app_same_length in H.
Qed.

(** C3 (FormattedMetadata.__init__, as amended): with caching on, the
    prefix joins with dots 'djangoseo', the name of the metadata
    object's class and the md5 hex digest of the path (of the site
    domain followed by the path exactly when use_sites is set and a
    site is passed), then the language exactly when use_i18n is set,
    then the subdomain exactly when use_subdomains is set and the
    subdomain is not None.  Two lookups for the same metadata, path and
    site that differ only in language (under use_i18n) or only in
    subdomain (under use_subdomains) have different prefixes, and so
    have two lookups whose digests (of one length) differ: they share
    neither the key of [str()], which is the prefix, nor the key of
    any one attribute name, which is the prefix, a dot and the name. *)
Theorem cache_prefix_layout_and_separation
    metadata (inst1 inst2 : iterable I) path1 path2 site1 site2
    lang1 lang2 sub1 sub2 fm1 fm2 name :
  use_cache (_meta metadata) = true →
  init metadata inst1 path1 site1 lang1 sub1 = Return fm1 →
  init metadata inst2 path2 site2 lang2 sub2 = Return fm2 →
  let meta := _meta metadata in
  cache_prefix fm1 = Some (String.concat "."
    (["djangoseo"; class_name metadata;
      md5_hex (iri_to_uri
        ((if use_sites meta then from_option domain "" site1 else "") +:+ path1))]
     ++ (if use_i18n meta then option_list lang1 else [])
     ++ (if use_subdomains meta then option_list sub1 else []))) ∧
  (use_i18n meta = true → is_Some lang1) ∧
  (use_i18n meta = true → path1 = path2 → site1 = site2 → sub1 = sub2 →
   lang1 ≠ lang2 →
   cache_prefix fm1 ≠ cache_prefix fm2 ∧
   cache_key_of fm1 name ≠ cache_key_of fm2 name) ∧
  (use_subdomains meta = true → path1 = path2 → site1 = site2 → lang1 = lang2 →
   sub1 ≠ sub2 →
   cache_prefix fm1 ≠ cache_prefix fm2 ∧
   cache_key_of fm1 name ≠ cache_key_of fm2 name) ∧
  (String.length (digest meta path1 site1) = String.length (digest meta path2 site2) →
   digest meta path1 site1 ≠ digest meta path2 site2 →
   cache_prefix fm1 ≠ cache_prefix fm2 ∧
   cache_key_of fm1 name ≠ cache_key_of fm2 name).
Proof.
  intros Hc H1 H2 meta.
  destruct (init_prefix_layout _ _ _ _ _ _ _ _ _ Hc H1) as [Hl1 Hp1].
  destruct (init_prefix_layout _ _ _ _ _ _ _ _ _ Hc H2) as [Hl2 Hp2].
  destruct (init_cache_key _ _ _ _ _ _ _ name Hc H1) as (p1 & Hq1 & Hk1).
  destruct (init_cache_key _ _ _ _ _ _ _ name Hc H2) as (p2 & Hq2 & Hk2).
  assert (p1 ≠ p2 → cache_prefix fm1 ≠ cache_prefix fm2 ∧
                    cache_key_of fm1 name ≠ cache_key_of fm2 name) as Hsep.
  { intros Hne. rewrite Hq1, Hq2, Hk1, Hk2. split; [congruence|].
    by intros [= Hk%string_app_inv_tail]. }
  rewrite Hp1 in Hq1. rewrite Hp2 in Hq2.
  apply (inj Some) in Hq1. apply (inj Some) in Hq2.
  split; [done|]. split; [done|]. fold meta in Hq1, Hq2, Hl1, Hl2.
  split; [|split].
  - intros Hi -> -> -> Hne. apply Hsep. intros Hk.
    rewrite <- Hq1, <- Hq2, Hi in Hk.
    destruct (Hl1 Hi) as [l1 ->], (Hl2 Hi) as [l2 ->].
    apply language_separates in Hk. congruence.
  - intros Hs -> -> -> Hne. apply Hsep. intros Hk.
    rewrite <- Hq1, <- Hq2, Hs, !(assoc_L (++)) in Hk.
    apply subdomain_separates in Hk; [done|]. by destruct (use_i18n meta).
  - intros Hlen Hne. apply Hsep. intros Hk.
    rewrite <- Hq1, <- Hq2 in Hk. rewrite !hexpath_unfold in Hlen, Hne.
    by apply digest_separates in Hk.
Qed.

End PrefixSeparation.

(** ** A lifetime of loops over the instances *)

Section LifetimeFacts.
Context {I : Type}.
Implicit Types (fm : FormattedMetadata I) (stops : list (I → bool)).

Lemma take_until_never (stop : I → bool) (l : list I) :
  (∀ x, stop x = false) → take_until stop l = (l, [], false).
Proof.
  intros Hn. induction l as [|x l IH]; simpl; [done|]. by rewrite Hn, IH.
Qed.

Lemma instances_run_never (stop : I → bool) fm ys drawn b fm' :
  (∀ x, stop x = false) →
  instances_run stop fm = (ys, drawn, b, fm') → b = false.
Proof.
  intros Hn. unfold instances_run. rewrite take_until_never by done.
  destruct (instances_original fm); rewrite take_until_never by done;
    by intros [= <- <- <- <-].
Qed.

Lemma instances_runs_generator stops fm rest yields drawn fm' :
  instances_original fm = Generator rest →
  instances_runs stops fm = (yields, drawn, fm') →
  Forall (λ ys, ys `prefix_of` instances_cache fm ++ rest) yields ∧
  Forall2 (λ stop ys, (∀ x, stop x = false) → ys = instances_cache fm ++ rest)
          stops yields ∧
  ∃ rest', instances_original fm' = Generator rest' ∧
           rest = drawn ++ rest' ∧
           instances_cache fm' = instances_cache fm ++ drawn.
Proof.
  revert fm rest yields drawn fm'.
  induction stops as [|stop stops IH]; intros fm rest yields drawn fm' Ho; simpl.
  - intros [= <- <- <-]. split; [done|]. split; [done|].
    exists rest. by rewrite (right_id_L [] (++)).
  - destruct (instances_run stop fm) as [[[ys d] b] fm1] eqn:Hrun.
    destruct (instances_runs stops fm1) as [[yields' d'] fm2] eqn:Hruns.
    intros [= <- <- <-].
    destruct (instances_run_generator _ _ _ _ _ _ _ Ho Hrun)
      as (rest1 & Ho1 & -> & Hc1 & Hpre & Hfull).
    destruct (IH _ _ _ _ _ Ho1 Hruns) as (Hall & Hcomplete & rest2 & Ho2 & -> & Hc2).
    rewrite Hc1, <- !(assoc_L (++)) in Hall, Hcomplete.
    split; [by constructor|]. split.
    + constructor; [|done]. intros Hn. apply Hfull.
      by eapply instances_run_never.
    + exists rest2. by rewrite Hc2, Hc1, <- !(assoc_L (++)).
Qed.

(** A fresh object over a generator: every loop yields an initial
    segment of what the generator holds (all of it when the loop runs
    to its end), and the items drawn over all loops, in order, are an
    initial segment too: none is drawn twice. *)
Theorem generator_instances_drawn_once stops fm g yields drawn fm' :
  instances_original fm = Generator g →
  instances_cache fm = [] →
  instances_runs stops fm = (yields, drawn, fm') →
  Forall (λ ys, ys `prefix_of` g) yields ∧
  Forall2 (λ stop ys, (∀ x, stop x = false) → ys = g) stops yields ∧
  drawn `prefix_of` g ∧
  instances_cache fm' = drawn ∧
  instances_original fm' = Generator (drop (length drawn) g).
Proof.
  intros Ho Hc Hruns.
  destruct (instances_runs_generator _ _ _ _ _ _ Ho Hruns)
    as (Hall & Hcomplete & rest' & Ho' & -> & Hc').
  rewrite Hc in Hall, Hcomplete, Hc'. simpl in *.
  split; [done|]. split; [done|]. split; [by eexists|]. split; [done|].
  by rewrite drop_app_length.
Qed.

End LifetimeFacts.

(** ** The signal callbacks *)

Lemma table_set_metadata db m model_class :
  table (set_metadata db m) model_class = default [] (m !! model_class).
Proof. reflexivity. Qed.

(** C6 (_delete_callback): the callback removes from the table of
    [model_class] exactly the rows whose content type and object id are
    the instance's; the other rows of that table keep their order and
    content, and the tables of the other metadata models, the tracked
    rows and the redirects are unchanged. *)
Theorem delete_callback_removes_linked_rows model_class sender instance db :
  let db' := _delete_callback model_class sender instance db in
  table db' model_class =
    filter (λ r, ¬ linked_to (t_model instance) (t_pk instance) r)
           (table db model_class) ∧
  (∀ r, r ∈ table db' model_class ↔
        r ∈ table db model_class ∧
        ¬ linked_to (t_model instance) (t_pk instance) r) ∧
  (∀ other, other ≠ model_class → metadata db' !! other = metadata db !! other) ∧
  tracked db' = tracked db ∧ redirects db' = redirects db ∧
  current_site db' = current_site db ∧ log db' = log db.
Proof.
  intros db'.
  assert (table db' model_class =
    filter (λ r, ¬ linked_to (t_model instance) (t_pk instance) r)
           (table db model_class)) as Ht.
  { unfold db', _delete_callback. rewrite table_set_metadata, lookup_alter_eq.
    unfold table. by destruct (metadata db !! model_class). }
  split; [done|]. split.
  - intros r. rewrite Ht, list_elem_of_filter. tauto.
  - split; [|done]. intros other Hne. unfold db', _delete_callback. simpl.
    by rewrite lookup_alter_ne.
Qed.

Lemma get_or_create_redirect_spec r rs :
  match get_or_create_redirect r rs with
  | Return rs' => r ∈ rs' ∧ (r ∈ rs → rs' = rs) ∧ (r ∉ rs → rs' = rs ++ [r])
  | Raise e => e = MultipleObjectsReturned ∧ r ∈ rs
  end.
Proof.
  unfold get_or_create_redirect.
  destruct (filter (λ r', r' = r) rs) as [|x [|y l]] eqn:Hf.
  - assert (r ∉ rs) as Hn.
    { intros Hin. assert (r ∈ filter (λ r', r' = r) rs) as Hx
        by (by apply list_elem_of_filter).
      rewrite Hf in Hx. by apply not_elem_of_nil in Hx. }
    split; [apply elem_of_app; right; by apply list_elem_of_singleton|].
    split; [done|done].
  - assert (x ∈ filter (λ r', r' = r) rs) as Hx by (rewrite Hf; by left).
    apply list_elem_of_filter in Hx as [-> Hin]. split; [done|]. split; done.
  - assert (x ∈ filter (λ r', r' = r) rs) as Hx by (rewrite Hf; by left).
    apply list_elem_of_filter in Hx as [-> Hin]. done.
Qed.



(** C4 (_handle_redirects_callback, as amended): once the import of
    [Redirect] has succeeded, for an instance whose primary key is
    truthy and which has an [id] (it is the primary key when the
    primary key of the model is the field [id]), when [stored] is the
    first stored object of the sender with that [id] and the two URLs
    and the current site are obtained, the redirect from the stored
    object's URL to the instance's new URL, on the current site and
    for all subdomains, is in the table afterwards exactly when the
    URLs differ: it is appended unless it is there already; when the
    URLs are equal nothing changes. *)
Theorem handle_redirects_callback_on_change
    sender instance db instance_id stored before after site :
  pk_truthy (t_pk instance) = true →
  t_id instance = Return instance_id →
  head (filter (λ t, t_model t = sender ∧ t_id t = Return instance_id) (tracked db))
    = Some stored →
  t_url stored = Return before →
  t_url instance = Return after →
  current_site db = Return site →
  let r := {| old_path := before; new_path := after; redirect_site := site;
              all_subdomains := true |} in
  let db' := (_handle_redirects_callback (Return tt) sender instance db).2 in
  (before ≠ after →
     r ∈ redirects db' ∧
     (r ∉ redirects db → redirects db' = redirects db ++ [r]) ∧
     (r ∈ redirects db → redirects db' = redirects db)) ∧
  (before = after → db' = db).
Proof.
  intros Hpk Hid Hstored Hbefore Hafter Hsite r db'.
  unfold db', _handle_redirects_callback, redirect_for_change.
  rewrite Hpk, Hafter, Hid. simpl. rewrite Hstored. simpl. rewrite Hbefore. simpl.
  case_decide as Hd.
  - split; [intros _|done]. rewrite Hsite. simpl.
    pose proof (get_or_create_redirect_spec r (redirects db)) as Hg. fold r.
    destruct (get_or_create_redirect r (redirects db)) as [rs|e]; simpl.
    + tauto.
    + destruct Hg as [_ Hin]. tauto.
  - split; [done|]. done.
Qed.

(** ** get_linked_metadata *)

Lemma get_or_fresh_spec matching fresh :
  get_or_fresh matching fresh =
  match matching with
  | [] => Return fresh
  | [md] => Return md
  | _ => Raise MultipleObjectsReturned
  end.
Proof. by destruct matching as [|md [|md' l]]. Qed.

Lemma get_or_fresh_at_most_one matching fresh :
  length matching ≤ 1 →
  get_or_fresh matching fresh = Return (default fresh (head matching)).
Proof.
  rewrite get_or_fresh_spec. destruct matching as [|md [|md' l]]; simpl; [done..|lia].
Qed.

Lemma get_or_fresh_raises matching fresh e :
  get_or_fresh matching fresh = Raise e → e = MultipleObjectsReturned.
Proof.
  rewrite get_or_fresh_spec. destruct matching as [|md [|md' l]]; by intros [= <-].
Qed.

Lemma linked_instances_raises meta obj db e :
  linked_instances meta obj db = Raise e → e = MultipleObjectsReturned.
Proof.
  unfold linked_instances.
  destruct (get_model meta "modelinstance") as [m|]; simpl.
  - destruct (get_or_fresh _ _) as [md|e'] eqn:H1; simpl.
    + destruct (get_model meta "model") as [m'|]; simpl; [|done].
      destruct (get_or_fresh _ (fresh_model_md _)) as [md'|e''] eqn:H2; simpl; [done|].
      intros [= <-]. by eapply get_or_fresh_raises.
    + intros [= <-]. by eapply get_or_fresh_raises.
  - destruct (get_model meta "model") as [m'|]; simpl; [|done].
    destruct (get_or_fresh _ _) as [md'|e''] eqn:H2; simpl; [done|].
    intros [= <-]. by eapply get_or_fresh_raises.
Qed.

Section LinkedFacts.
Variable md5_hex : string → string.
Variable iri_to_uri : string → string.

Local Abbreviation linked := (get_linked_metadata md5_hex iri_to_uri).

(** C7 (get_linked_metadata, as amended): a missing instance-level or
    model-level row never surfaces as [DoesNotExist]; and when the
    Metadata class is found, no lookup matches several rows and the
    cache prefix can be built, the function returns a FormattedMetadata
    over the list that holds, for each installed backend in the order
    instance, model, the stored row or else a fresh unsaved one bound
    to the object (respectively to its content type). *)
Theorem get_linked_metadata_falls_back
    registry obj name site language subdomain db :
  linked registry obj name site language subdomain db ≠ Raise DoesNotExist ∧
  ∀ Metadata meta,
    _get_metadata_model registry name = Return Metadata →
    mc_meta Metadata = Some meta →
    (∀ m, get_model meta "modelinstance" = Some m →
       length (filter (linked_to (t_model obj) (t_pk obj)) (table db m)) ≤ 1) →
    (∀ m, get_model meta "model" = Some m →
       length (filter (λ r, _content_type r = Some (t_model obj)) (table db m)) ≤ 1) →
    (use_cache meta = true → use_i18n meta = true → is_Some language) →
    ∃ fm, linked registry obj name site language subdomain db = Return fm ∧
      instances_original fm = PyList
        (match get_model meta "modelinstance" with
         | Some m =>
             [default (fresh_instance_md obj)
                (head (filter (linked_to (t_model obj) (t_pk obj)) (table db m)))]
         | None => []
         end ++
         match get_model meta "model" with
         | Some m =>
             [default (fresh_model_md (t_model obj))
                (head (filter (λ r, _content_type r = Some (t_model obj)) (table db m)))]
         | None => []
         end) ∧
      instances_cache fm = [] ∧ _meta (fm_metadata fm) = meta.
Proof.
  split.
  - unfold get_linked_metadata.
    destruct (_get_metadata_model registry name) as [Metadata|e] eqn:Hm; simpl.
    + unfold meta_of. destruct (mc_meta Metadata) as [meta|]; simpl; [|done].
      destruct (linked_instances meta obj db) as [l|e] eqn:Hl; simpl.
      * unfold FormattedMetadata__init__.
        destruct (use_cache _); [|done].
        unfold join_bits. by destruct (all_str _).
      * apply linked_instances_raises in Hl as ->. done.
    + revert Hm. unfold _get_metadata_model.
      destruct name as [n|].
      * destruct (assoc n registry); by intros [= <-].
      * destruct registry as [|[k c] [|? ?]]; by intros [= <-].
  - intros Metadata meta HM Hmeta H1 H2 Hlang.
    unfold get_linked_metadata. rewrite HM. simpl.
    unfold meta_of. rewrite Hmeta. simpl.
    assert (linked_instances meta obj db = Return
      (match get_model meta "modelinstance" with
       | Some m =>
           [default (fresh_instance_md obj)
              (head (filter (linked_to (t_model obj) (t_pk obj)) (table db m)))]
       | None => []
       end ++
       match get_model meta "model" with
       | Some m =>
           [default (fresh_model_md (t_model obj))
              (head (filter (λ r, _content_type r = Some (t_model obj)) (table db m)))]
       | None => []
       end)) as ->.
    { unfold linked_instances.
      destruct (get_model meta "modelinstance") as [m|]; simpl.
      - rewrite get_or_fresh_at_most_one by by apply H1. simpl.
        destruct (get_model meta "model") as [m'|]; simpl; [|done].
        by rewrite get_or_fresh_at_most_one by by apply H2.
      - destruct (get_model meta "model") as [m'|]; simpl; [|done].
        by rewrite get_or_fresh_at_most_one by by apply H2. }
    simpl. unfold FormattedMetadata__init__, prefix_bits. simpl.
    destruct (use_cache meta) eqn:Hc; [|by eexists].
    destruct (use_i18n meta) eqn:Hi.
    + destruct (Hlang eq_refl eq_refl) as [l ->].
      destruct subdomain as [sd|], (use_subdomains meta); by eexists.
    + destruct subdomain as [sd|], (use_subdomains meta); by eexists.
Qed.

End LinkedFacts.

(** ** The metaclass *)

Lemma has_key_elem {V} (k : string) (d : list (string * V)) :
  has_key k d = true ↔ k ∈ d.*1.
Proof.
  unfold has_key. induction d as [|[k' v] d IH]; simpl.
  - split; [done|]. by intros ?%not_elem_of_nil.
  - case_decide as Hk.
    + subst. split; [intros _; by left|done].
    + rewrite IH. split; [by right|].
      intros [?|?]%elem_of_cons; [done|done].
Qed.

Lemma has_key_false {V} (k : string) (d : list (string * V)) :
  has_key k d = false ↔ k ∉ d.*1.
Proof.
  rewrite <- has_key_elem. destruct (has_key k d); naive_solver.
Qed.


Lemma dict_set_lookup {V} (k : string) (v : V) (d : list (string * V)) :
  assoc k (dict_set k v d) = Some v.
Proof.
  induction d as [|[k' v'] d IH]; simpl.
  - by rewrite decide_True.
  - case_decide as Hk; simpl.
    + by rewrite decide_True.
    + by rewrite decide_False.
Qed.











Lemma check_members_spec members els :
  match check_members members els with
  | Return _ => Forall (λ m, has_key m els = true) members
  | Raise e => (∃ msg, e = AssertionError msg) ∧
               Exists (λ m, has_key m els = false) members
  end.
Proof.
  induction members as [|m members IH]; simpl; [done|].
  destruct (has_key m els) eqn:Hm.
  - destruct (check_members members els).
    + by constructor.
    + destruct IH as [? ?]. split; [done|]. by apply Exists_cons_tl.
  - split; [by eexists|]. by apply Exists_cons_hd.
Qed.

Lemma check_groups_spec gs els :
  match check_groups gs els with
  | Return _ =>
      Forall (λ g, has_key g.1 els = false ∧
                   Forall (λ m, has_key m els = true) g.2) gs
  | Raise e => ∃ msg, e = AssertionError msg
  end.
Proof.
  induction gs as [|[key members] gs IH]; simpl; [done|].
  destruct (has_key key els) eqn:Hk; [by eexists|].
  pose proof (check_members_spec members els) as Hm.
  destruct (check_members members els); simpl.
  - destruct (check_groups gs els); [|done]. by constructor.
  - by destruct Hm.
Qed.

Lemma check_reserved_spec reserved (els : list (string * MetadataField)) :
  match check_reserved reserved els with
  | Return _ => Forall (λ kv, kv.1 ∉ reserved) els
  | Raise e => ∃ msg, e = AssertionError msg
  end.
Proof.
  induction els as [|[key f] els IH]; simpl; [done|].
  case_decide; [by eexists|].
  destruct (check_reserved reserved els); [|done]. by constructor.
Qed.

Lemma add_backends_spec backend_registry names o :
  match add_backends backend_registry names o with
  | Return o' =>
      Forall (λ b, is_Some (assoc b backend_registry)) names ∧
      elements o' = elements o ∧ groups o' = groups o ∧ backends o' = backends o
  | Raise e => ∃ b, e = NotInstalled b ∧ b ∈ names ∧ assoc b backend_registry = None
  end.
Proof.
  revert o. induction names as [|b names IH]; intros o; simpl; [done|].
  destruct (assoc b backend_registry) as [bk|] eqn:Hb.
  - specialize (IH (_add_backend o bk)).
    destruct (add_backends backend_registry names (_add_backend o bk)).
    + destruct IH as (? & ? & ? & ?). split; [by constructor|done].
    + destruct IH as (b' & -> & ? & ?). exists b'. split; [done|].
      split; [by right|done].
  - exists b. split; [done|]. split; [by left|done].
Qed.

Section MetaclassFacts.
Variable Options__init__ : option class_attr → option class_attr → Options.
Variable backend_registry : list (string * Backend).
Variable RESERVED_FIELD_NAMES : list string.

Local Abbreviation new_class :=
  (MetadataBase__new__ Options__init__ backend_registry RESERVED_FIELD_NAMES).


End MetaclassFacts.

(** ** create_metadata_instance *)

Lemma NoDup_fmap_eq {A B} (f : A → B) (l : list A) (x y : A) :
  NoDup (f <$> l) → x ∈ l → y ∈ l → f x = f y → x = y.
Proof.
  induction l as [|z l IH]; simpl; [by intros _ ?%not_elem_of_nil|].
  intros [Hz Hnd]%NoDup_cons [->|Hx]%elem_of_cons [->|Hy]%elem_of_cons Heq.
  - done.
  - destruct Hz. rewrite Heq. by apply list_elem_of_fmap_2.
  - destruct Hz. rewrite <- Heq. by apply list_elem_of_fmap_2.
  - by apply IH.
Qed.

Lemma fresh_id_fresh rows : Some (fresh_id rows) ∉ row_id <$> rows.
Proof.
  intros (r & Hr & Hin)%list_elem_of_fmap.
  assert (fresh_id rows ∈ omap row_id rows) as Hm.
  { apply list_elem_of_omap. by exists r. }
  apply max_list_elem_of_le in Hm. unfold fresh_id in Hm. lia.
Qed.

Lemma save_row_existing md rows :
  Some <$> row_id md ≠ None → row_id md ∈ row_id <$> rows →
  save_row md rows = (λ r, if decide (row_id r = row_id md) then md else r) <$> rows.
Proof.
  unfold save_row. destruct (row_id md) as [id|]; [|done]. intros _ Hin.
  by rewrite decide_True.
Qed.

Lemma table_Model_save model_class md db :
  table (Model_save model_class md db) model_class = save_row md (table db model_class).
Proof. unfold Model_save. by rewrite table_set_metadata, lookup_insert_eq. Qed.

Lemma other_url_Model_save model_class md db r :
  other_url (Model_save model_class md db) r = other_url db r.
Proof. reflexivity. Qed.

Lemma content_object_is_linked md db other :
  _content_object md db = Some other →
  is_Some (_object_id md) ∧ linked_to (t_model other) (t_pk other) md.
Proof.
  unfold _content_object, linked_to.
  destruct (_content_type md) as [ct|]; [|done].
  destruct (_object_id md) as [oid|]; [|done].
  intros [[-> ->] _]%head_Some_elem_of%list_elem_of_filter. by split; [eexists|].
Qed.

Lemma content_object_stored db ct k stored r :
  head (filter (λ t, t_model t = ct ∧ t_pk t = Some k) (tracked db)) = Some stored →
  linked_to ct (Some k) r → _content_object r db = Some stored.
Proof. intros Hstored [Hct Hoid]. unfold _content_object. by rewrite Hct, Hoid. Qed.

(** [save] of a stored row whose path is the URL of the object it
    points to stores the row as it is. *)
Lemma save_at_own_url model_class md db other :
  is_Some (row_id md) → _content_object md db = Some other →
  t_url other = Return (_path md) →
  save model_class md db = Return (md, Model_save model_class md db).
Proof.
  intros [id Hid] Hco Hurl. unfold save. rewrite Hco, Hurl. simpl.
  destruct (content_object_is_linked _ _ _ Hco) as [[oid Hoid] _].
  assert (set_path md (_path md) = md) as -> by (by destruct md).
  rewrite decide_False by (by rewrite Hoid). by rewrite Hid.
Qed.

(** [save] of a new row that points to a stored object with a URL
    inserts the row at that URL, with a fresh id. *)
Lemma save_new model_class ct pk db other path :
  let md := {| row_id := None; _content_type := Some ct; _object_id := pk;
               _path := "" |} in
  let new := {| row_id := Some (fresh_id (table db model_class));
                _content_type := Some ct; _object_id := pk; _path := path |} in
  _content_object md db = Some other → t_url other = Return path →
  save model_class md db = Return (new, Model_save model_class new db).
Proof.
  intros md new Hco Hurl. unfold save. rewrite Hco, Hurl. simpl.
  destruct (content_object_is_linked _ _ _ Hco) as [[oid Hoid] _].
  simpl in Hoid. by rewrite decide_False by (by rewrite Hoid).
Qed.

Lemma replace_row_wf md rows :
  rows_wf rows → is_Some (row_id md) →
  rows_wf ((λ r, if decide (row_id r = row_id md) then md else r) <$> rows).
Proof.
  intros [Hnd Hall] Hmd. split.
  - rewrite <- list_fmap_compose.
    erewrite list_fmap_ext; [exact Hnd|]. intros i r _. simpl.
    by case_decide.
  - apply Forall_fmap. eapply Forall_impl; [exact Hall|].
    intros r Hr. simpl. by case_decide.
Qed.

Lemma repointed_linked db ct pk mds r :
  linked_to ct pk (repointed db ct pk mds r) ↔ linked_to ct pk r.
Proof. unfold repointed. by case_decide. Qed.

Lemma repointed_id db ct pk mds r :
  row_id (repointed db ct pk mds r) = row_id r.
Proof. unfold repointed. by case_decide. Qed.

Lemma repointed_fix db ct pk mds r :
  linked_to ct pk r → repointed db ct pk mds r = r.
Proof. unfold repointed. intros ?. rewrite decide_False; tauto. Qed.

Lemma last_cons_filter {A} (x : A) (l : list A) (d : option A) :
  match last (x :: l) with Some y => Some y | None => d end =
  match last l with Some y => Some y | None => Some x end.
Proof. rewrite last_cons. by destruct (last l). Qed.

(** The loop over the rows at the path, when every row of another
    object points to a stored object with a URL: it runs to its end,
    re-points exactly those rows, and remembers the instance's own
    row. *)
Lemma repoint_loop_spec metadata_class instance mds found db :
  let ct := t_model instance in
  let pk := t_pk instance in
  let T := table db metadata_class in
  rows_wf T →
  Forall (λ r, r ∈ T) mds →
  NoDup mds →
  (∀ r, r ∈ mds → ¬ linked_to ct pk r → is_Some (other_url db r)) →
  ∃ db', repoint_loop metadata_class ct instance mds found db
         = Return (Completed
                     (match last (filter (linked_to ct pk) mds) with
                      | Some md => Some md
                      | None => found
                      end) db') ∧
    table db' metadata_class = repointed db ct pk mds <$> T ∧
    tracked db' = tracked db.
Proof.
  intros ct pk. revert found db.
  induction mds as [|md mds IH]; intros found db T Hwf Hsub Hnd Hurl.
  - exists db. split; [done|]. split; [|done].
    trans (id <$> T); [by rewrite list_fmap_id|].
    apply list_fmap_ext. intros i r _.
    unfold repointed. rewrite decide_False; [done|].
    intros [?%not_elem_of_nil _]. done.
  - apply Forall_cons in Hsub as [HmdT Hsub].
    apply NoDup_cons in Hnd as [Hmd Hnd].
    simpl. destruct (decide (linked_to ct pk md)) as [Hl|Hl].
    + destruct (IH (Some md) db Hwf Hsub Hnd) as (db' & Hloop & Htab & Htr).
      { intros r Hr. apply Hurl. by right. }
      exists db'. split; [|split; [|done]].
      * rewrite decide_True by done.
        rewrite Hloop, filter_cons_True by done.
        by rewrite last_cons_filter.
      * rewrite Htab. apply list_fmap_ext. intros i r _. unfold repointed.
        destruct (decide (r ∈ mds ∧ ¬ linked_to ct pk r)) as [[? ?]|Hn].
        -- rewrite decide_True; [done|]. split; [by right|done].
        -- rewrite decide_False; [done|]. intros [[->|?]%elem_of_cons ?]; tauto.
    + destruct (Hurl md) as [url Hou]; [by left|done|].
      assert (∃ other, _content_object md db = Some other ∧ t_url other = Return url)
        as (other & Hco & Hother).
      { unfold other_url in Hou. destruct (_content_object md db) as [o|]; [|done].
        exists o. split; [done|]. destruct (t_url o); by simplify_eq. }
      rewrite decide_False by done.
      rewrite Hco. simpl. rewrite Hother. simpl.
      set (md' := set_path md url).
      set (g := λ r, if decide (row_id r = row_id md) then md' else r).
      destruct Hwf as [Hids Hsome].
      assert (is_Some (row_id md)) as Hmdid.
      { rewrite Forall_forall in Hsome. by apply Hsome. }
      rewrite (save_at_own_url metadata_class md' db other Hmdid Hco Hother). simpl.
      assert (table (Model_save metadata_class md' db) metadata_class = g <$> T)
        as Hsave.
      { rewrite table_Model_save. apply save_row_existing.
        - rewrite Forall_forall in Hsome. destruct (Hsome md HmdT) as [id Hid].
          unfold md'. simpl. by rewrite Hid.
        - change (row_id md ∈ row_id <$> T). by apply list_elem_of_fmap_2. }
      assert (∀ r, r ∈ T → row_id r = row_id md → r = md) as Hsame.
      { intros r Hr. by apply (NoDup_fmap_eq row_id T). }
      destruct (IH found (Model_save metadata_class md' db))
        as (db' & Hloop & Htab & Htr).
      * rewrite Hsave.
        change (rows_wf ((λ r, if decide (row_id r = row_id md') then md' else r) <$> T)).
        apply replace_row_wf; [done|].
        rewrite Forall_forall in Hsome. by apply (Hsome md).
      * rewrite Hsave. rewrite Forall_forall in Hsub |- *. intros r Hr.
        apply (list_elem_of_fmap_2' g _ r); [by apply Hsub|].
        unfold g. rewrite decide_False; [done|]. intros Heq.
        apply Hsame in Heq; [|by apply Hsub]. by subst.
      * done.
      * intros r Hr. rewrite other_url_Model_save. apply Hurl. by right.
      * exists db'. split; [|split; [|done]].
        -- by rewrite Hloop, filter_cons_False by done.
        -- rewrite Htab, Hsave, <- list_fmap_compose. apply list_fmap_ext.
           intros i r Hr%list_elem_of_lookup_2. simpl. unfold g.
           destruct (decide (row_id r = row_id md)) as [Heq|Hne].
           ++ apply Hsame in Heq as ->; [|done].
              unfold repointed at 2. rewrite decide_True; [|split; [by left|done]].
              rewrite Hou. simpl. unfold repointed. rewrite decide_False; [done|].
              intros [Hin _]. rewrite Forall_forall in Hsub.
              assert (md' = md) as Heq by (apply Hsame; [by apply Hsub|done]).
              by rewrite Heq in Hin.
           ++ unfold repointed. rewrite other_url_Model_save.
              destruct (decide (r ∈ mds ∧ ¬ linked_to ct pk r)) as [[? ?]|Hn].
              ** rewrite decide_True; [done|]. split; [by right|done].
              ** rewrite decide_False; [done|].
                 intros [[->|?]%elem_of_cons ?]; tauto.
Qed.

Lemma save_row_elem md rows :
  is_Some (row_id md) → row_id md ∈ row_id <$> rows →
  md ∈ save_row md rows ∧
  ∀ r, r ∈ rows → row_id r ≠ row_id md → r ∈ save_row md rows.
Proof.
  intros [id Hid] Hin. rewrite save_row_existing; [|by rewrite Hid|done].
  split.
  - apply list_elem_of_fmap in Hin as (r0 & Heq & Hr0).
    apply (list_elem_of_fmap_2' _ _ r0); [done|]. by rewrite decide_True.
  - intros r Hr Hne. apply (list_elem_of_fmap_2' _ _ r); [done|].
    by rewrite decide_False.
Qed.

Lemma save_row_new md rows :
  is_Some (row_id md) → row_id md ∉ row_id <$> rows →
  save_row md rows = rows ++ [md].
Proof.
  intros [id Hid] Hin. unfold save_row. rewrite Hid in Hin |- *.
  by rewrite decide_False.
Qed.

(** The end of [create_metadata_instance] for an instance without a
    row, when the rows of the instance point to a stored object at
    [path]: one row is inserted, at that path. *)
Lemma get_or_create_then_save metadata_class ct pk db stored path :
  let T := table db metadata_class in
  let new := {| row_id := Some (fresh_id T); _content_type := Some ct;
                _object_id := pk; _path := path |} in
  (∀ r, linked_to ct pk r → _content_object r db = Some stored) →
  t_url stored = Return path →
  filter (linked_to ct pk) T = [] →
  ∃ db', ('(md, db'') ← get_or_create metadata_class ct pk db;
          '(_, db''') ← save metadata_class (set_path md path) db'';
          Return db''') = Return db' ∧
    table db' metadata_class = T ++ [new].
Proof.
  intros T new Hco Hurl Hf. unfold get_or_create. fold T. rewrite Hf.
  rewrite (save_new metadata_class ct pk db stored path); [|by apply Hco|done].
  fold T new. simpl.
  rewrite (save_at_own_url metadata_class new _ stored);
    [|by eexists|by apply (Hco new)|done].
  eexists. split; [done|]. rewrite !table_Model_save. fold T.
  rewrite (save_row_new new T); [|by eexists|apply fresh_id_fresh].
  rewrite save_row_existing; [|done|].
  2:{ apply (list_elem_of_fmap_2' row_id _ new); [|done].
      apply elem_of_app. right. by left. }
  rewrite fmap_app. simpl. rewrite decide_True by done. f_equal.
  trans (id <$> T); [|by rewrite list_fmap_id].
  apply list_fmap_ext. intros i r Hr%list_elem_of_lookup_2. simpl.
  rewrite decide_False; [done|]. intros Heq.
  apply (fresh_id_fresh T). rewrite <- Heq. by apply list_elem_of_fmap_2.
Qed.

Lemma filter_fmap_fix {A} (P : A → Prop) `{∀ x, Decision (P x)} (f : A → A)
    (l : list A) :
  (∀ x, P (f x) ↔ P x) → (∀ x, P x → f x = x) →
  filter P (f <$> l) = filter P l.
Proof.
  intros Hiff Hfix. induction l as [|x l IH]; [done|].
  rewrite fmap_cons. destruct (decide (P x)) as [Hx|Hx].
  - rewrite !filter_cons_True by (by rewrite ?Hiff). by rewrite IH, Hfix.
  - by rewrite !filter_cons_False by (by rewrite ?Hiff).
Qed.

(** The part of C5 that holds: for an instance that has a primary key
    and is stored with the URL it has (the stored object with its
    model and primary key has the same URL), and that is not marked
    as handled, when the table is well formed, holds at most one row
    for the instance, and every row at the instance's path that
    belongs to another object points to a stored object with a URL,
    [create_metadata_instance] returns, a row linked to the instance's
    content type and primary key has the instance's URL as its path,
    and every such row of another object has been re-pointed to that
    object's own URL. *)
Theorem create_metadata_instance_links metadata_class instance db path k stored :
  let ct := t_model instance in
  let pk := t_pk instance in
  let T := table db metadata_class in
  pk = Some k →
  head (filter (λ t, t_model t = ct ∧ t_pk t = Some k) (tracked db)) = Some stored →
  t_url stored = Return path →
  t_handled instance = false →
  t_url instance = Return path →
  rows_wf T →
  (∀ r, r ∈ T → _path r = path → ¬ linked_to ct pk r → is_Some (other_url db r)) →
  length (filter (linked_to ct pk) T) ≤ 1 →
  ∃ db', create_metadata_instance metadata_class instance db = Return db' ∧
    (∃ r, r ∈ table db' metadata_class ∧ linked_to ct pk r ∧ _path r = path) ∧
    (∀ r, r ∈ T → _path r = path → ¬ linked_to ct pk r →
       ∃ url, other_url db r = Some url ∧
              set_path r url ∈ table db' metadata_class).
Proof.
  intros ct pk T Hk Hstored Hsurl Hh Hpath Hwf Hurl Hone.
  set (mds := get_instances path T).
  assert (∀ r, r ∈ mds ↔ _path r = path ∧ r ∈ T) as Hmds.
  { intros r. unfold mds, get_instances. by rewrite list_elem_of_filter. }
  destruct (repoint_loop_spec metadata_class instance mds None db Hwf)
    as (db1 & Hloop & Htab & Htr).
  { apply Forall_forall. intros r Hr. by apply Hmds. }
  { apply NoDup_filter. destruct Hwf as [Hids _]. by apply NoDup_fmap_1 in Hids. }
  { intros r [? ?]%Hmds ?. by apply Hurl. }
  fold ct pk T in Hloop, Htab.
  set (T1 := table db1 metadata_class) in *.
  assert (∀ r, linked_to ct pk r → _content_object r db1 = Some stored) as Hco.
  { intros r Hl. apply (content_object_stored db1 ct k); [by rewrite Htr|].
    by rewrite <- Hk. }
  assert (∀ r, r ∈ T → _path r = path → ¬ linked_to ct pk r →
            ∃ url, other_url db r = Some url ∧ set_path r url ∈ T1) as F1.
  { intros r Hr Hp Hl. destruct (Hurl r Hr Hp Hl) as [url Hou]. exists url.
    split; [done|]. rewrite Htab.
    apply (list_elem_of_fmap_2' _ _ r); [done|]. unfold repointed.
    rewrite decide_True; [by rewrite Hou|]. split; [by apply Hmds|done]. }
  assert (∀ r, r ∈ T → linked_to ct pk r → r ∈ T1) as F2.
  { intros r Hr Hl. rewrite Htab. apply (list_elem_of_fmap_2' _ _ r); [done|].
    by rewrite repointed_fix. }
  assert (rows_wf T1) as F3.
  { destruct Hwf as [Hids Hsome]. rewrite Htab. split.
    - rewrite <- list_fmap_compose. erewrite list_fmap_ext; [exact Hids|].
      intros i r _. simpl. apply repointed_id.
    - apply Forall_fmap. eapply Forall_impl; [exact Hsome|].
      intros r Hr. simpl. by rewrite repointed_id. }
  assert (filter (linked_to ct pk) T1 = filter (linked_to ct pk) T) as F4.
  { rewrite Htab. apply filter_fmap_fix.
    - intros r. apply repointed_linked.
    - intros r. apply repointed_fix. }
  unfold create_metadata_instance. rewrite Hh, Hpath.
  fold ct pk T mds. rewrite Hloop. simpl.
  destruct (last (filter (linked_to ct pk) mds)) as [md|] eqn:Hlast.
  - exists db1. split; [done|]. split; [|exact F1].
    apply last_Some_elem_of, list_elem_of_filter in Hlast as [Hl [Hp Hin]%Hmds].
    exists md. split; [by apply F2|done].
  - destruct (filter (linked_to ct pk) T) as [|md0 [|md1 l]] eqn:Hf;
      [| |simpl in Hone; lia].
    + destruct (get_or_create_then_save metadata_class ct pk db1 stored path
                  Hco Hsurl F4) as (db' & Hrun & Htab').
      exists db'. split; [exact Hrun|]. rewrite Htab'. fold T1. split.
      * eexists. split; [apply elem_of_app; right; by left|]. by split.
      * intros r Hr Hp Hl. destruct (F1 r Hr Hp Hl) as (url & Hou & Hin).
        exists url. split; [done|]. apply elem_of_app. by left.
    + assert (md0 ∈ filter (linked_to ct pk) T) as Hmd0 by (rewrite Hf; by left).
      apply list_elem_of_filter in Hmd0 as [Hl0 Hin0].
      pose proof (F2 _ Hin0 Hl0) as Hin1.
      destruct F3 as [Hids Hsome].
      assert (is_Some (row_id md0)) as Hid0.
      { rewrite Forall_forall in Hsome. by apply (Hsome md0). }
      unfold get_or_create. fold T1. rewrite F4. simpl.
      rewrite (save_at_own_url metadata_class (set_path md0 path) db1 stored);
        [|done|by apply (Hco md0)|done].
      eexists. split; [done|]. rewrite table_Model_save. fold T1.
      destruct (save_row_elem (set_path md0 path) T1) as [Hnew Hold].
      { done. }
      { by apply (list_elem_of_fmap_2 row_id) in Hin1. }
      split.
      * exists (set_path md0 path). split; [done|]. by split.
      * intros r Hr Hp Hl. destruct (F1 r Hr Hp Hl) as (url & Hou & Hin).
        exists url. split; [done|]. apply Hold; [done|].
        simpl. intros Heq.
        assert (set_path r url = md0) as Hsame
          by (by apply (NoDup_fmap_eq row_id T1)).
        apply Hl. rewrite <- Hsame in Hl0. exact Hl0.
Qed.

(** ** What a created class guarantees *)

Lemma assoc_Some_elem {V} (k : string) (v : V) (d : list (string * V)) :
  assoc k d = Some v → (k, v) ∈ d.
Proof.
  induction d as [|[k' v'] d IH]; simpl; [done|].
  case_decide as Hk.
  - intros [= ->]. subst. by left.
  - intros ?. right. by apply IH.
Qed.

Lemma assoc_has_key {V} (k : string) (d : list (string * V)) :
  has_key k d = true ↔ is_Some (assoc k d).
Proof.
  unfold has_key. destruct (assoc k d); naive_solver.
Qed.

Section CreatedClassFacts.
Variable Options__init__ : option class_attr → option class_attr → Options.
Variable backend_registry : list (string * Backend).
Variable RESERVED_FIELD_NAMES : list string.

(** A class that the metaclass has created keeps groups and elements
    apart: no group name is an element name, every group member is an
    element, and no element name is reserved.  So for such a class the
    group branch of [__getattr__] never takes an element's name. *)
Theorem created_class_groups_and_elements_apart registry name attrs cls registry' :
  MetadataBase__new__ Options__init__ backend_registry RESERVED_FIELD_NAMES
    registry name false attrs = Return (cls, registry') →
  ∃ o, mc_meta cls = Some o ∧
    (∀ key members, (key, members) ∈ groups o →
       assoc key (elements o) = None ∧
       ∀ member, member ∈ members → is_Some (assoc member (elements o))) ∧
    (∀ key, is_Some (assoc key (elements o)) →
       assoc key (groups o) = None ∧ key ∉ RESERVED_FIELD_NAMES).
Proof.
  unfold MetadataBase__new__. cbv zeta.
  set (options := Options__init__ _ _).
  set (els := OrderedDict_of _).
  pose proof (check_groups_spec (groups options) els) as Hg.
  pose proof (check_reserved_spec RESERVED_FIELD_NAMES els) as Hr.
  pose proof (add_backends_spec backend_registry (backends options)
                (_register_elements options els)) as Hb.
  destruct (check_groups _ _); simpl; [|done].
  destruct (check_reserved _ _); simpl; [|done].
  destruct (add_backends _ _ _) as [o|]; simpl; [|done].
  destruct Hb as (_ & Helo & Hgro & _). simpl in Helo, Hgro.
  destruct (validate_backends _ _ _); simpl; [|done].
  intros [= <- <-]. exists o. split; [done|].
  rewrite Helo, Hgro. simpl in Hg, Hr.
  rewrite Forall_forall in Hg. rewrite Forall_forall in Hr.
  assert (∀ key members, (key, members) ∈ groups options →
            assoc key els = None ∧
            ∀ member, member ∈ members → is_Some (assoc member els)) as Hgroups.
  { intros key members Hin. destruct (Hg _ Hin) as [Hk Hms]. simpl in Hk, Hms.
    split.
    - unfold has_key in Hk. by destruct (assoc key els).
    - intros member Hm. rewrite Forall_forall in Hms.
      by apply assoc_has_key, Hms. }
  split; [exact Hgroups|].
  intros key [f Hf]. split.
  - destruct (assoc key (groups options)) as [members|] eqn:Hkg; [|done].
    apply assoc_Some_elem in Hkg. destruct (Hgroups _ _ Hkg) as [Hnone _].
    congruence.
  - apply assoc_Some_elem in Hf. by apply (Hr _ Hf).
Qed.

End CreatedClassFacts.

(** ** A lifetime of calls on one object *)

Section CallSequences.
Context {I : Type}.
Variable inst_resolve : I → string → pyval.
Variable md5_hex : string → string.
Variable iri_to_uri : string → string.

Lemma resolve_all_sound all calls (fm : FormattedMetadata I) :
  consistent all fm →
  consistent all (resolve_all inst_resolve calls fm).2 ∧
  fm_metadata (resolve_all inst_resolve calls fm).2 = fm_metadata fm ∧
  Forall2 (λ call r, ∀ v, r = Return v →
             resolves inst_resolve all (elements (_meta (fm_metadata fm))) call.2 v)
          calls (resolve_all inst_resolve calls fm).1.
Proof.
  revert fm. induction calls as [|[depth name] calls IH]; intros fm Hc; simpl.
  - by repeat split.
  - pose proof (resolve_value_consistent inst_resolve all depth name fm Hc)
      as (Hc' & Hm' & _).
    pose proof (λ v, resolve_value_sound inst_resolve all depth name fm v Hc) as Hs.
    destruct (_resolve_value inst_resolve depth name fm) as [r fm'].
    simpl in Hc', Hm', Hs.
    destruct (IH fm' Hc') as (Hc'' & Hm'' & Hall).
    destruct (resolve_all inst_resolve calls fm') as [rs fm'']. simpl in *.
    split; [done|]. split; [congruence|].
    constructor; [|by rewrite <- Hm'].
    intros v ->. by apply Hs.
Qed.

(** Whatever sequence of names is resolved on a freshly built
    FormattedMetadata, over a generator or a list, every value a call
    returns is the one the resolution chain prescribes for the
    instances that were passed in. *)
Theorem fresh_object_resolves_by_the_chain
    metadata instances path site language subdomain fm calls :
  FormattedMetadata__init__ md5_hex iri_to_uri metadata instances path site
    language subdomain = Return fm →
  Forall2 (λ call r, ∀ v, r = Return v →
             resolves inst_resolve (instances_of instances)
               (elements (_meta metadata)) call.2 v)
          calls (resolve_all inst_resolve calls fm).1.
Proof.
  intros Hinit.
  destruct (init_consistent md5_hex iri_to_uri _ _ _ _ _ _ _ Hinit) as [Hc Hm].
  destruct (resolve_all_sound _ calls fm Hc) as (_ & _ & Hall).
  by rewrite Hm in Hall.
Qed.

End CallSequences.

(** ** Which callers pass a generator *)

(** [get_metadata] builds its object over the generator
    [_get_instances]; [get_linked_metadata] builds it over a list. *)
Lemma get_metadata_over_generator md5_hex iri_to_uri registry found path name
    site language subdomain fm :
  get_metadata md5_hex iri_to_uri registry found path name site language subdomain
    = Return fm →
  instances_original fm = Generator found ∧ instances_cache fm = [].
Proof.
  unfold get_metadata, _get_formatted_data.
  destruct (_get_metadata_model registry name) as [cls|]; simpl; [|done].
  destruct (meta_of cls) as [meta|]; simpl; [|done].
  unfold FormattedMetadata__init__.
  destruct (use_cache _); [destruct (join_bits _); [|done]|]; by intros [= <-].
Qed.

Lemma get_linked_metadata_over_list md5_hex iri_to_uri registry obj name
    site language subdomain db fm :
  get_linked_metadata md5_hex iri_to_uri registry obj name site language subdomain db
    = Return fm →
  ∃ instances, instances_original fm = PyList instances ∧ instances_cache fm = [].
Proof.
  unfold get_linked_metadata.
  destruct (_get_metadata_model registry name) as [cls|]; simpl; [|done].
  destruct (meta_of cls) as [meta|]; simpl; [|done].
  destruct (linked_instances meta obj db) as [instances|]; simpl; [|done].
  unfold FormattedMetadata__init__.
  destruct (use_cache _); [destruct (join_bits _); [|done]|];
    intros [= <-]; by eexists.
Qed.

(** ** What the cache serves *)

Lemma py_or_empty_not_None (v : pyval) : py_or v (PStr "") ≠ PNone.
Proof. unfold py_or. by destruct v as [|s]; simpl; [|case_decide]. Qed.

Lemma py_or_twice (v : pyval) :
  py_or (py_or v (PStr "")) PNone = py_or v PNone.
Proof. unfold py_or. destruct v as [|s]; simpl; [done|]. by case_decide; simpl; [|rewrite decide_False]. Qed.

Lemma cache_get_set (c : gmap string pyval) (key : string) (v : pyval) :
  cache_get (<[key := v]> c) key = v.
Proof. unfold cache_get. by rewrite lookup_insert_eq. Qed.

Lemma bound_of_cached (e : MetadataField) (v : pyval) :
  BoundMetadataField__init__ e (py_or (py_or v (PStr "")) PNone) =
  BoundMetadataField__init__ e v.
Proof.
  rewrite py_or_twice. unfold BoundMetadataField__init__, py_or.
  by destruct (truthy v) eqn:Hv; [rewrite Hv|].
Qed.

Section CacheFacts.
Context {I : Type}.
Variable strip : string → string.
Implicit Types (fm : FormattedMetadata I) (c : gmap string pyval).

Lemma resolve_value_meta (inst_resolve : I → string → pyval) depth name fm :
  fm_metadata (_resolve_value inst_resolve depth name fm).2 = fm_metadata fm ∧
  cache_prefix (_resolve_value inst_resolve depth name fm).2 = cache_prefix fm.
Proof.
  revert name fm. induction depth as [|depth IH]; intros name fm; [done|]. simpl.
  destruct (instances_run _ fm) as [[[ys drawn] b] fm1] eqn:Hrun.
  destruct (instances_run_meta _ _ _ _ _ _ Hrun) as [Hm Hp].
  destruct (if b then last ys else None); [done|].
  destruct (assoc name _) as [e|]; [|done].
  destruct (populate_from e); try done.
  destruct (IH name0 fm1) as [? ?]. split; congruence.
Qed.

Lemma group_texts_meta (inst_resolve : I → string → pyval) depth members fm :
  fm_metadata (group_texts inst_resolve depth members fm).2 = fm_metadata fm ∧
  cache_prefix (group_texts inst_resolve depth members fm).2 = cache_prefix fm.
Proof.
  revert fm. induction members as [|f members IH]; intros fm; [done|]. simpl.
  destruct (assoc f _) as [e|]; [|done].
  destruct (resolve_value_meta inst_resolve depth f fm) as [Hm Hp].
  destruct (_resolve_value inst_resolve depth f fm) as [[v|ex] fm1]; [|done].
  simpl in Hm, Hp. destruct (IH fm1) as [Hm' Hp'].
  destruct (group_texts inst_resolve depth members fm1) as [[ts|ex] fm2];
    simpl in *; split; congruence.
Qed.

(** Attribute access changes neither the metadata nor the prefix of
    the object. *)
Lemma getattr_meta (inst_resolve : I → string → pyval) depth name fm c :
  fm_metadata (FormattedMetadata__getattr__ inst_resolve strip depth name fm c).1.2
    = fm_metadata fm ∧
  cache_prefix (FormattedMetadata__getattr__ inst_resolve strip depth name fm c).1.2
    = cache_prefix fm.
Proof.
  unfold FormattedMetadata__getattr__.
  destruct (assoc name (groups _)) as [members|].
  - case_decide; [|done].
    pose proof (group_texts_meta inst_resolve depth members fm) as Hmeta.
    by destruct (group_texts _ _ _ _) as [[ts|ex] fm1].
  - destruct (assoc name (elements _)) as [e|]; [|done].
    case_decide; [|done].
    pose proof (resolve_value_meta inst_resolve depth name fm) as Hmeta.
    by destruct (_resolve_value _ _ _ _) as [[v|ex] fm1].
Qed.

(** Without a cache prefix attribute access leaves the cache alone. *)
Lemma getattr_uncached (inst_resolve : I → string → pyval) depth name fm c :
  cache_prefix fm = None →
  (FormattedMetadata__getattr__ inst_resolve strip depth name fm c).2 = c.
Proof.
  intros Hp. unfold FormattedMetadata__getattr__, cache_key_of. rewrite Hp.
  destruct (assoc name (groups _)) as [members|].
  - rewrite decide_True by done.
    by destruct (group_texts _ _ _ _) as [[ts|ex] fm1].
  - destruct (assoc name (elements _)) as [e|]; [|done].
    rewrite decide_True by done.
    by destruct (_resolve_value _ _ _ _) as [[v|ex] fm1].
Qed.

(** An attribute that was returned once is afterwards served from the
    cache to every object with the same prefix and metadata, as long
    as the entry under its key stays: the same result, whatever the
    instances of that object hold, and neither the object nor the
    cache changes. *)
Lemma getattr_served_from_cache (inst_resolve inst_resolve' : I → string → pyval)
    depth depth' name fm fm2 c c2 p a fm' c' :
  cache_prefix fm = Some p → p ≠ "" →
  cache_prefix fm2 = Some p → fm_metadata fm2 = fm_metadata fm →
  FormattedMetadata__getattr__ inst_resolve strip depth name fm c = (Return a, fm', c') →
  cache_get c2 (p +:+ "." +:+ name) = cache_get c' (p +:+ "." +:+ name) →
  FormattedMetadata__getattr__ inst_resolve' strip depth' name fm2 c2 = (Return a, fm2, c2).
Proof.
  intros Hp Hne Hp2 Hm2. unfold FormattedMetadata__getattr__.
  rewrite (cache_key_enabled _ _ _ Hp Hne), (cache_key_enabled _ _ _ Hp2 Hne), Hm2.
  set (key := p +:+ "." +:+ name).
  destruct (assoc name (groups _)) as [members|].
  - destruct (decide (cache_get c key = PNone)) as [Hmiss|Hhit].
    + destruct (group_texts _ _ _ _) as [[ts|ex] fm1]; [|done].
      intros [= <- <- <-]. simpl. rewrite cache_get_set. intros ->.
      rewrite decide_False by apply py_or_empty_not_None.
      by rewrite py_or_twice.
    + intros [= <- <- <-] ->. by rewrite decide_False.
  - destruct (assoc name (elements _)) as [e|]; [|done].
    destruct (decide (cache_get c key = PNone)) as [Hmiss|Hhit].
    + destruct (_resolve_value _ _ _ _) as [[v|ex] fm1]; [|done].
      intros [= <- <- <-]. simpl. rewrite cache_get_set. intros ->.
      rewrite decide_False by apply py_or_empty_not_None.
      by rewrite bound_of_cached.
    + intros [= <- <- <-] ->. by rewrite decide_False.
Qed.

(** Attribute access only ever adds entries that are not [None]: a key
    that is served from the cache stays served. *)
Lemma getattr_cache_grows (inst_resolve : I → string → pyval) depth name fm c key :
  cache_get c key ≠ PNone →
  cache_get (FormattedMetadata__getattr__ inst_resolve strip depth name fm c).2 key
    ≠ PNone.
Proof.
  intros Hk. unfold FormattedMetadata__getattr__.
  assert (∀ v, cache_get (cache_set_opt c (cache_key_of fm name) (py_or v (PStr ""))) key
               ≠ PNone) as Hset.
  { intros v. destruct (cache_key_of fm name) as [k|]; simpl; [|done].
    destruct (decide (k = key)) as [->|Hne].
    - rewrite cache_get_set. apply py_or_empty_not_None.
    - unfold cache_get. by rewrite lookup_insert_ne. }
  destruct (assoc name (groups _)) as [members|].
  - case_decide; [|done].
    destruct (group_texts _ _ _ _) as [[ts|ex] fm1]; [apply Hset|done].
  - destruct (assoc name (elements _)) as [e|]; [|done].
    case_decide; [|done].
    destruct (_resolve_value _ _ _ _) as [[v|ex] fm1]; [apply Hset|done].
Qed.

(** An access that returns leaves the attribute's own key filled. *)
Lemma getattr_fills_key (inst_resolve : I → string → pyval) depth name fm c p a fm' c' :
  cache_prefix fm = Some p → p ≠ "" →
  FormattedMetadata__getattr__ inst_resolve strip depth name fm c = (Return a, fm', c') →
  cache_get c' (p +:+ "." +:+ name) ≠ PNone.
Proof.
  intros Hp Hne. unfold FormattedMetadata__getattr__.
  rewrite (cache_key_enabled _ _ _ Hp Hne).
  set (key := p +:+ "." +:+ name).
  destruct (assoc name (groups _)) as [members|].
  - destruct (decide (cache_get c key = PNone)) as [Hmiss|Hhit].
    + destruct (group_texts _ _ _ _) as [[ts|ex] fm1]; [|done].
      intros [= <- <- <-]. simpl. rewrite cache_get_set. apply py_or_empty_not_None.
    + by intros [= <- <- <-].
  - destruct (assoc name (elements _)) as [e|]; [|done].
    destruct (decide (cache_get c key = PNone)) as [Hmiss|Hhit].
    + destruct (_resolve_value _ _ _ _) as [[v|ex] fm1]; [|done].
      intros [= <- <- <-]. simpl. rewrite cache_get_set. apply py_or_empty_not_None.
    + by intros [= <- <- <-].
Qed.

End CacheFacts.

(** ** The cache across lookups *)

Section SharedCache.
Variable md5_hex : string → string.
Variable iri_to_uri : string → string.
Variable strip : string → string.

(** The prefix is built from the metadata and the lookup, never from
    the instances. *)
Lemma init_same_prefix {I J} metadata (instances : iterable I) (instances' : iterable J)
    path site language subdomain fm1 fm2 :
  FormattedMetadata__init__ md5_hex iri_to_uri metadata instances path site
    language subdomain = Return fm1 →
  FormattedMetadata__init__ md5_hex iri_to_uri metadata instances' path site
    language subdomain = Return fm2 →
  cache_prefix fm1 = cache_prefix fm2 ∧
  fm_metadata fm1 = metadata ∧ fm_metadata fm2 = metadata.
Proof.
  unfold FormattedMetadata__init__.
  destruct (use_cache (_meta metadata)).
  - destruct (join_bits _); [|done]. by intros [= <-] [= <-].
  - by intros [= <-] [= <-].
Qed.

(** Two calls of [get_metadata] for the same path, name, site, language
    and subdomain share their cache entries, whatever instances the
    backends provide for each: an attribute (element or group) that the
    first object returned is served to the second object, and to the
    first one again, from the cache, as long as the entry stays; the
    instances are not consulted and nothing is written. *)
Theorem get_metadata_serves_cached_attributes
    (inst_resolve inst_resolve' : MetadataRow → string → pyval)
    registry found found' path name site language subdomain fm1 fm2 p
    depth depth' attr c c2 a fm1' c' :
  get_metadata md5_hex iri_to_uri registry found path name site language subdomain
    = Return fm1 →
  get_metadata md5_hex iri_to_uri registry found' path name site language subdomain
    = Return fm2 →
  cache_prefix fm1 = Some p →
  FormattedMetadata__getattr__ inst_resolve strip depth attr fm1 c = (Return a, fm1', c') →
  cache_get c2 (p +:+ "." +:+ attr) = cache_get c' (p +:+ "." +:+ attr) →
  FormattedMetadata__getattr__ inst_resolve' strip depth' attr fm2 c2
    = (Return a, fm2, c2) ∧
  FormattedMetadata__getattr__ inst_resolve' strip depth' attr fm1' c2
    = (Return a, fm1', c2).
Proof.
  unfold get_metadata, _get_formatted_data.
  destruct (_get_metadata_model registry name) as [cls|]; simpl; [|done].
  destruct (meta_of cls) as [meta|]; simpl; [|done].
  intros H1 H2 Hp Hget Hc2.
  destruct (init_same_prefix _ _ _ _ _ _ _ _ _ H1 H2) as (Hpp & Hm1 & Hm2).
  pose proof (init_prefix_nonempty _ _ _ _ _ _ _ _ _ _ H1 Hp) as Hne.
  pose proof (getattr_meta strip inst_resolve depth attr fm1 c) as [Hm' Hp'].
  rewrite Hget in Hm', Hp'. simpl in Hm', Hp'.
  split.
  - eapply getattr_served_from_cache; [exact Hp|exact Hne|congruence|congruence|
      exact Hget|exact Hc2].
  - eapply getattr_served_from_cache; [exact Hp|exact Hne|congruence|congruence|
      exact Hget|exact Hc2].
Qed.

(** [get_linked_metadata] builds its prefix from the empty path and the
    name of the metaclass, so the prefix does not depend on the object:
    two calls for different objects (in different states of the
    database) with the same name, site, language and subdomain have the
    same prefix, and an attribute that the first object returned is
    served from the cache for the second object, whose own instances
    are not consulted. *)
Theorem linked_metadata_cache_is_shared_between_objects
    (inst_resolve inst_resolve' : MetadataRow → string → pyval)
    registry obj1 obj2 db1 db2 name site language subdomain fm1 fm2 :
  get_linked_metadata md5_hex iri_to_uri registry obj1 name site language subdomain db1
    = Return fm1 →
  get_linked_metadata md5_hex iri_to_uri registry obj2 name site language subdomain db2
    = Return fm2 →
  cache_prefix fm1 = cache_prefix fm2 ∧
  ∀ p depth depth' attr c c2 a fm1' c',
    cache_prefix fm1 = Some p →
    FormattedMetadata__getattr__ inst_resolve strip depth attr fm1 c
      = (Return a, fm1', c') →
    cache_get c2 (p +:+ "." +:+ attr) = cache_get c' (p +:+ "." +:+ attr) →
    FormattedMetadata__getattr__ inst_resolve' strip depth' attr fm2 c2
      = (Return a, fm2, c2).
Proof.
  unfold get_linked_metadata.
  destruct (_get_metadata_model registry name) as [cls|]; simpl; [|done].
  destruct (meta_of cls) as [meta|]; simpl; [|done].
  destruct (linked_instances meta obj1 db1) as [l1|]; simpl; [|done].
  destruct (linked_instances meta obj2 db2) as [l2|]; simpl; [|done].
  intros H1 H2.
  destruct (init_same_prefix _ _ _ _ _ _ _ _ _ H1 H2) as (Hpp & Hm1 & Hm2).
  split; [exact Hpp|].
  intros p depth depth' attr c c2 a fm1' c' Hp Hget Hc2.
  pose proof (init_prefix_nonempty _ _ _ _ _ _ _ _ _ _ H1 Hp) as Hne.
  eapply getattr_served_from_cache; [exact Hp|exact Hne|congruence|congruence|
    exact Hget|exact Hc2].
Qed.

End SharedCache.

(** ** FormattedMetadata.__str__ and the cache *)

Lemma py_or_str (t : string) : py_or (PStr t) (PStr "") = PStr t.
Proof. unfold py_or. simpl. by case_decide; [subst|]. Qed.

Lemma key_not_prefix (p name : string) : p +:+ "." +:+ name ≠ p.
Proof. intros H. symmetry in H. by apply string_app_not_longer in H. Qed.

Section StrFacts.
Context {I : Type}.
Variable strip : string → string.
Variable is_head : MetadataField → bool.
Variable own_attribute : string → option (FormattedMetadata I → string).
Implicit Types (fm : FormattedMetadata I) (c : gmap string pyval).

Local Abbreviation text_of r := (getattr_text r strip own_attribute).
Local Abbreviation texts_of r := (head_texts r strip is_head own_attribute).
Local Abbreviation str_of r := (FormattedMetadata__str__ r strip is_head own_attribute).

Lemma getattr_text_meta (inst_resolve : I → string → pyval) depth f fm c :
  fm_metadata (text_of inst_resolve depth f fm c).1.2 = fm_metadata fm ∧
  cache_prefix (text_of inst_resolve depth f fm c).1.2 = cache_prefix fm.
Proof.
  unfold getattr_text. destruct (own_attribute f); [done|].
  pose proof (getattr_meta strip inst_resolve depth f fm c) as Hmeta.
  by destruct (FormattedMetadata__getattr__ _ _ _ _ _ _) as [[[a|ex] fm1] c1].
Qed.

Lemma getattr_text_cache_grows (inst_resolve : I → string → pyval) depth f fm c key :
  cache_get c key ≠ PNone →
  cache_get (text_of inst_resolve depth f fm c).2 key ≠ PNone.
Proof.
  intros Hk. unfold getattr_text. destruct (own_attribute f); [done|].
  pose proof (getattr_cache_grows strip inst_resolve depth f fm c key Hk) as Hg.
  by destruct (FormattedMetadata__getattr__ _ _ _ _ _ _) as [[[a|ex] fm1] c1].
Qed.

Lemma head_texts_meta (inst_resolve : I → string → pyval) depth items fm c :
  fm_metadata (texts_of inst_resolve depth items fm c).1.2 = fm_metadata fm ∧
  cache_prefix (texts_of inst_resolve depth items fm c).1.2 = cache_prefix fm.
Proof.
  revert fm c. induction items as [|[f e] items IH]; intros fm c; [done|]. simpl.
  destruct (is_head e); [|apply IH].
  pose proof (getattr_text_meta inst_resolve depth f fm c) as [Hm Hp].
  destruct (getattr_text _ _ _ _ _ _ _) as [[[t|ex] fm1] c1]; [|done].
  simpl in Hm, Hp. destruct (IH fm1 c1) as [Hm' Hp'].
  destruct (head_texts _ _ _ _ _ _ _ _) as [[[ts|ex] fm2] c2];
    simpl in *; split; congruence.
Qed.

Lemma head_texts_cache_grows (inst_resolve : I → string → pyval) depth items fm c key :
  cache_get c key ≠ PNone →
  cache_get (texts_of inst_resolve depth items fm c).2 key ≠ PNone.
Proof.
  revert fm c. induction items as [|[f e] items IH]; intros fm c Hk; [done|]. simpl.
  destruct (is_head e); [|by apply IH].
  pose proof (getattr_text_cache_grows inst_resolve depth f fm c key Hk) as Hg.
  destruct (getattr_text _ _ _ _ _ _ _) as [[[t|ex] fm1] c1]; [|done].
  simpl in Hg. pose proof (IH fm1 c1 Hg) as Hg'.
  by destruct (head_texts _ _ _ _ _ _ _ _) as [[[ts|ex] fm2] c2].
Qed.

(** When the loop of [__str__] runs to its end, every head element
    that is reached through [__getattr__] has its own cache entry. *)
Lemma head_texts_fills (inst_resolve : I → string → pyval) depth items fm c p ts fm' c' :
  cache_prefix fm = Some p → p ≠ "" →
  texts_of inst_resolve depth items fm c = (Return ts, fm', c') →
  ∀ f e, (f, e) ∈ items → is_head e = true → own_attribute f = None →
    cache_get c' (p +:+ "." +:+ f) ≠ PNone.
Proof.
  intros Hp Hne. revert fm c ts Hp.
  induction items as [|[f0 e0] items IH]; intros fm c ts Hp Hrun f e Hin Hh Hown.
  { by apply elem_of_nil in Hin. }
  simpl in Hrun.
  destruct (is_head e0) eqn:Hh0.
  - pose proof (getattr_text_meta inst_resolve depth f0 fm c) as [_ Hp1].
    destruct (getattr_text _ _ _ _ _ _ _) as [[[t|ex] fm1] c1] eqn:Hget; [|done].
    simpl in Hp1.
    pose proof (head_texts_cache_grows inst_resolve depth items fm1 c1
                  (p +:+ "." +:+ f)) as Hgrow.
    destruct (head_texts _ _ _ _ _ _ _ _) as [[[ts'|ex] fm2] c2] eqn:Hrest; [|done].
    injection Hrun as <- <- <-. simpl in Hgrow.
    apply elem_of_cons in Hin as [[= -> ->]|Hin].
    + apply Hgrow. revert Hget. unfold getattr_text. rewrite Hown.
      destruct (FormattedMetadata__getattr__ _ _ _ _ _ _) as [[[a|ex] fm3] c3] eqn:Ha;
        [|done].
      intros [= <- <- <-]. by eapply getattr_fills_key.
    + eapply (IH fm1 c1 ts'); [congruence|exact Hrest|exact Hin|exact Hh|exact Hown].
  - apply elem_of_cons in Hin as [[= -> ->]|Hin]; [congruence|].
    by eapply (IH fm c ts).
Qed.

(** Once [str(metadata)] has returned, the head text is in the cache
    under the prefix and, when it had to be built, so is every head
    element under its own key; every later [str()] of an object with
    the same prefix returns the same text as long as that entry
    stays, without looking at an element or an instance. *)
Theorem str_is_served_from_cache (inst_resolve inst_resolve' : I → string → pyval)
    depth fm c p t fm' c' :
  cache_prefix fm = Some p → p ≠ "" →
  str_of inst_resolve depth fm c = (Return t, fm', c') →
  cache_get c' p = PStr t ∧
  (cache_get c p = PNone →
   ∀ f e, (f, e) ∈ elements (_meta (fm_metadata fm)) →
     is_head e = true → own_attribute f = None →
     cache_get c' (p +:+ "." +:+ f) ≠ PNone) ∧
  (∀ fm2 c2 depth', cache_prefix fm2 = Some p → cache_get c2 p = cache_get c' p →
     str_of inst_resolve' depth' fm2 c2 = (Return t, fm2, c2)).
Proof.
  intros Hp Hne Hstr.
  assert (cache_get c' p = PStr t ∧
          (cache_get c p = PNone →
           ∀ f e, (f, e) ∈ elements (_meta (fm_metadata fm)) →
             is_head e = true → own_attribute f = None →
             cache_get c' (p +:+ "." +:+ f) ≠ PNone)) as [Hc' Hfields].
  { revert Hstr. unfold FormattedMetadata__str__. rewrite Hp.
    destruct (cache_get c p) as [|s] eqn:Hcp.
    - pose proof (head_texts_meta inst_resolve depth
                    (elements (_meta (fm_metadata fm))) fm c) as [_ Hp1].
      destruct (head_texts _ _ _ _ _ _ _ _) as [[[ts|ex] fm1] c1] eqn:Hrun; [|done].
      simpl in Hp1. rewrite Hp1, Hp. simpl. intros [= <- <- <-].
      rewrite cache_get_set, py_or_str. split; [done|].
      intros _ f e Hin Hh Hown. unfold cache_get.
      rewrite lookup_insert_ne by (intros H; symmetry in H; by apply key_not_prefix in H).
      by eapply head_texts_fills.
    - intros [= <- <- <-]. by split. }
  split; [exact Hc'|]. split; [exact Hfields|].
  intros fm2 c2 depth' Hp2 Hc2. unfold FormattedMetadata__str__.
  by rewrite Hp2, Hc2, Hc'.
Qed.

(** An object without cache prefix neither reads nor writes the cache. *)
Lemma head_texts_uncached (inst_resolve : I → string → pyval) depth items fm c1 c2 :
  cache_prefix fm = None →
  (texts_of inst_resolve depth items fm c1).1 = (texts_of inst_resolve depth items fm c2).1 ∧
  (texts_of inst_resolve depth items fm c1).2 = c1.
Proof.
  revert fm. induction items as [|[f e] items IH]; intros fm Hp; [done|]. simpl.
  destruct (is_head e); [|by apply IH].
  unfold getattr_text. destruct (own_attribute f) as [text|].
  - destruct (IH fm Hp) as [Hr Hc].
    destruct (head_texts _ _ _ _ _ _ _ c1) as [[[ts1|ex1] fm1] d1];
      destruct (head_texts _ _ _ _ _ _ _ c2) as [[[ts2|ex2] fm2] d2];
      simpl in *; by simplify_eq.
  - pose proof (getattr_uncached strip inst_resolve depth f fm c1 Hp) as Hc1.
    pose proof (getattr_uncached strip inst_resolve depth f fm c2 Hp) as Hc2.
    pose proof (getattr_meta strip inst_resolve depth f fm c1) as [_ Hp1].
    assert ((FormattedMetadata__getattr__ inst_resolve strip depth f fm c1).1 =
            (FormattedMetadata__getattr__ inst_resolve strip depth f fm c2).1) as Hsame.
    { unfold FormattedMetadata__getattr__, cache_key_of. rewrite Hp.
      destruct (assoc f (groups _)) as [members|].
      - rewrite !decide_True by done.
        by destruct (group_texts _ _ _ _) as [[ts|ex] fm1].
      - destruct (assoc f (elements _)) as [e'|]; [|done].
        rewrite !decide_True by done.
        by destruct (_resolve_value _ _ _ _) as [[v|ex] fm1]. }
    destruct (FormattedMetadata__getattr__ _ _ _ _ _ c1) as [[[a1|ex1] fm1] d1];
      destruct (FormattedMetadata__getattr__ _ _ _ _ _ c2) as [[[a2|ex2] fm2] d2];
      simpl in *; simplify_eq; [|done].
    destruct (IH fm2 (eq_trans Hp1 Hp)) as [Hr Hc].
    destruct (head_texts _ _ _ _ _ _ _ c1) as [[[ts1|ex1] fm3] d3];
      destruct (head_texts _ _ _ _ _ _ _ c2) as [[[ts2|ex2] fm4] d4];
      simpl in *; by simplify_eq.
Qed.

Lemma str_uncached (inst_resolve : I → string → pyval) depth fm c1 c2 :
  cache_prefix fm = None →
  (str_of inst_resolve depth fm c1).1 = (str_of inst_resolve depth fm c2).1 ∧
  (str_of inst_resolve depth fm c1).2 = c1 ∧
  cache_prefix (str_of inst_resolve depth fm c1).1.2 = None.
Proof.
  intros Hp. unfold FormattedMetadata__str__. rewrite Hp.
  destruct (head_texts_uncached inst_resolve depth
              (elements (_meta (fm_metadata fm))) fm c1 c2 Hp) as [Hr Hc].
  pose proof (head_texts_meta inst_resolve depth
                (elements (_meta (fm_metadata fm))) fm c1) as [_ Hp1].
  pose proof (head_texts_meta inst_resolve depth
                (elements (_meta (fm_metadata fm))) fm c2) as [_ Hp2].
  destruct (head_texts _ _ _ _ _ _ _ c1) as [[[ts1|ex1] fm1] d1];
    destruct (head_texts _ _ _ _ _ _ _ c2) as [[[ts2|ex2] fm2] d2];
    simpl in *; simplify_eq; rewrite ?Hp1, ?Hp2, ?Hp; simpl; done.
Qed.

Lemma access_run_uncached (inst_resolve : I → string → pyval) depth op fm c1 c2 :
  cache_prefix fm = None →
  (access_run inst_resolve strip is_head own_attribute depth op fm c1).1 =
  (access_run inst_resolve strip is_head own_attribute depth op fm c2).1 ∧
  (access_run inst_resolve strip is_head own_attribute depth op fm c1).2 = c1 ∧
  cache_prefix (access_run inst_resolve strip is_head own_attribute depth op fm c1).1.2
    = None.
Proof.
  intros Hp. destruct op as [name|]; simpl.
  - pose proof (getattr_uncached strip inst_resolve depth name fm c1 Hp) as Hc1.
    pose proof (getattr_meta strip inst_resolve depth name fm c1) as [_ Hp1].
    assert ((FormattedMetadata__getattr__ inst_resolve strip depth name fm c1).1 =
            (FormattedMetadata__getattr__ inst_resolve strip depth name fm c2).1) as Hsame.
    { unfold FormattedMetadata__getattr__, cache_key_of. rewrite Hp.
      destruct (assoc name (groups _)) as [members|].
      - rewrite !decide_True by done.
        by destruct (group_texts _ _ _ _) as [[ts|ex] fm1].
      - destruct (assoc name (elements _)) as [e'|]; [|done].
        rewrite !decide_True by done.
        by destruct (_resolve_value _ _ _ _) as [[v|ex] fm1]. }
    destruct (FormattedMetadata__getattr__ _ _ _ _ _ c1) as [[[a1|ex1] fm1] d1];
      destruct (FormattedMetadata__getattr__ _ _ _ _ _ c2) as [[[a2|ex2] fm2] d2];
      simpl in *; simplify_eq; by rewrite <- Hp.
  - destruct (str_uncached inst_resolve depth fm c1 c2 Hp) as (Hr & Hc & Hp1).
    destruct (FormattedMetadata__str__ _ _ _ _ _ _ c1) as [[[a1|ex1] fm1] d1];
      destruct (FormattedMetadata__str__ _ _ _ _ _ _ c2) as [[[a2|ex2] fm2] d2];
      simpl in *; by simplify_eq.
Qed.

Lemma access_all_uncached (inst_resolve : I → string → pyval) ops fm c1 c2 :
  cache_prefix fm = None →
  (access_all inst_resolve strip is_head own_attribute ops fm c1).1 =
  (access_all inst_resolve strip is_head own_attribute ops fm c2).1 ∧
  (access_all inst_resolve strip is_head own_attribute ops fm c1).2 = c1.
Proof.
  revert fm c1 c2. induction ops as [|[depth op] ops IH]; intros fm c1 c2 Hp; [done|].
  simpl.
  destruct (access_run_uncached inst_resolve depth op fm c1 c2 Hp) as (Hr & Hc & Hp1).
  destruct (access_run_uncached inst_resolve depth op fm c2 c1 Hp) as (_ & Hc2 & _).
  destruct (access_run _ _ _ _ _ _ _ c1) as [[r1 fm1] d1].
  destruct (access_run _ _ _ _ _ _ _ c2) as [[r2 fm2] d2].
  simpl in *. simplify_eq.
  destruct (IH fm2 c1 c2 Hp1) as [Hrs Hcs].
  destruct (access_all _ _ _ _ _ _ c1) as [[rs1 fm3] d3].
  destruct (access_all _ _ _ _ _ _ c2) as [[rs2 fm4] d4].
  simpl in *. by simplify_eq.
Qed.

(** With [use_cache] off the object is built for any lookup, and over
    any sequence of attribute reads and renderings it neither reads nor
    writes the cache: the cache at the end is the cache at the start,
    and the outcomes and the object are the same whatever the cache
    holds. *)
Theorem uncached_metadata_never_uses_the_cache
    (inst_resolve : I → string → pyval) (md5_hex iri_to_uri : string → string)
    metadata instances path site language subdomain :
  use_cache (_meta metadata) = false →
  ∃ fm, FormattedMetadata__init__ md5_hex iri_to_uri metadata instances path site
          language subdomain = Return fm ∧
    ∀ ops c1 c2,
      (access_all inst_resolve strip is_head own_attribute ops fm c1).1 =
      (access_all inst_resolve strip is_head own_attribute ops fm c2).1 ∧
      (access_all inst_resolve strip is_head own_attribute ops fm c1).2 = c1.
Proof.
  intros Hc.
  destruct (init_uncached md5_hex iri_to_uri metadata instances path site
              language subdomain Hc) as (fm & Hinit & Hp).
  exists fm. split; [exact Hinit|].
  intros ops c1 c2. by apply access_all_uncached.
Qed.

End StrFacts.

(** ** What str() renders *)

Lemma assoc_NoDup {V} (k : string) (v : V) (d : list (string * V)) :
  NoDup d.*1 → (k, v) ∈ d → assoc k d = Some v.
Proof.
  induction d as [|[k' v'] d IH]; simpl; intros Hnd Hin.
  { by apply elem_of_nil in Hin. }
  apply NoDup_cons in Hnd as [Hk' Hnd].
  apply elem_of_cons in Hin as [[= -> ->]|Hin].
  - by rewrite decide_True.
  - rewrite decide_False; [by apply IH|].
    intros ->. apply Hk'. apply list_elem_of_fmap. by exists (k', v).
Qed.

Lemma cache_key_of_inj {I} (fm : FormattedMetadata I) (f f0 k : string) :
  cache_key_of fm f = Some k → cache_key_of fm f0 = Some k → f = f0.
Proof.
  unfold cache_key_of. destruct (cache_prefix fm) as [p|]; [|done].
  case_decide; [done|]. intros [= <-] [= Heq].
  by apply string_app_inv_head, string_app_inv_head in Heq.
Qed.

Section StrChain.
Context {I : Type}.
Variable inst_resolve : I → string → pyval.
Variable strip : string → string.
Variable is_head : MetadataField → bool.
Variable own_attribute : string → option (FormattedMetadata I → string).
Implicit Types (fm : FormattedMetadata I) (c : gmap string pyval).

Local Abbreviation texts_of := (head_texts inst_resolve strip is_head own_attribute).
Local Abbreviation heads items := (filter (λ fe : string * MetadataField, is_head fe.2) items).
Local Abbreviation rendered := (λ (fe : string * MetadataField) (v : pyval),
  make_safe (BoundMetadataField__init__ fe.2 v)).

Lemma head_texts_resolved all md depth items fm c ts fm' c' :
  consistent all fm → fm_metadata fm = md →
  NoDup items.*1 →
  (∀ f e, (f, e) ∈ items → is_head e = true →
     own_attribute f = None ∧ assoc f (groups (_meta md)) = None ∧
     assoc f (elements (_meta md)) = Some e ∧
     ∀ k, cache_key_of fm f = Some k → cache_get c k = PNone) →
  texts_of depth items fm c = (Return ts, fm', c') →
  ∃ vs, Forall2 (λ fe v, resolves inst_resolve all (elements (_meta md)) fe.1 v)
          (heads items) vs ∧
        ts = zip_with rendered (heads items) vs.
Proof.
  intros Hc Hm. revert fm c ts Hc Hm.
  induction items as [|[f0 e0] items IH]; intros fm c ts Hc Hm Hnd Hitems Hrun.
  { injection Hrun as <- _ _. by exists []. }
  simpl in Hnd. apply NoDup_cons in Hnd as [Hf0 Hnd].
  simpl in Hrun. destruct (is_head e0) eqn:Hh0.
  - rewrite filter_cons_True by (simpl; by rewrite Hh0).
    destruct (Hitems f0 e0 (list_elem_of_here _ _) Hh0) as (Hown & Hg & He & Hcold).
    unfold getattr_text in Hrun. rewrite Hown in Hrun.
    unfold FormattedMetadata__getattr__ in Hrun. rewrite Hm, Hg, He in Hrun.
    assert (match cache_key_of fm f0 with
            | Some k => cache_get c k
            | None => PNone
            end = PNone) as Hmiss.
    { destruct (cache_key_of fm f0) as [k|] eqn:Hk; [by apply Hcold|done]. }
    rewrite Hmiss in Hrun. rewrite decide_True in Hrun by done.
    pose proof (resolve_value_consistent inst_resolve all depth f0 fm Hc)
      as (Hc1 & Hm1 & Hp1).
    pose proof (λ v, resolve_value_sound inst_resolve all depth f0 fm v Hc) as Hsound.
    destruct (_resolve_value inst_resolve depth f0 fm) as [[v|ex] fm1]; [|done].
    simpl in Hc1, Hm1, Hp1, Hsound.
    destruct (head_texts _ _ _ _ _ items fm1 _) as [[[ts'|ex] fm2] c2] eqn:Hrest;
      [|done].
    injection Hrun as <- <- <-.
    destruct (IH fm1 (cache_set_opt c (cache_key_of fm f0) (py_or v (PStr ""))) ts'
                Hc1 (eq_trans Hm1 Hm) Hnd) as (vs & Hvs & ->).
    + intros f e Hin Hh.
      destruct (Hitems f e (list_elem_of_further _ _ _ Hin) Hh)
        as (Hown' & Hg' & He' & Hcold').
      split; [done|]. split; [done|]. split; [done|].
      intros k Hk.
      assert (cache_key_of fm f = Some k) as Hk'.
      { revert Hk. unfold cache_key_of. by rewrite Hp1. }
      destruct (cache_key_of fm f0) as [k0|] eqn:Hk0; simpl; [|by apply Hcold'].
      unfold cache_get. rewrite lookup_insert_ne; [by apply Hcold'|].
      intros ->. apply Hf0.
      rewrite <- (cache_key_of_inj fm f f0 k Hk' Hk0).
      apply list_elem_of_fmap. by exists (f, e).
    + exact Hrest.
    + exists (v :: vs). split; [|done].
      constructor; [|done]. simpl. rewrite <- Hm. by apply Hsound.
  - rewrite filter_cons_False by (simpl; rewrite Hh0; by intros []).
    apply (IH fm c ts Hc Hm Hnd); [|exact Hrun].
    intros f e Hin Hh. by apply Hitems; [apply list_elem_of_further|].
Qed.

(** On a cold cache (no entry under the prefix nor under the key of
    an element; in particular without caching) [str(metadata)] is the
    text of the head elements, in the order of the elements, joined by
    newlines, where each element renders the value that the resolution
    chain gives its name over the instances of the backends. *)
Theorem str_joins_the_resolved_head_elements all depth fm c t fm' c' :
  consistent all fm →
  NoDup (elements (_meta (fm_metadata fm))).*1 →
  (∀ f e, (f, e) ∈ elements (_meta (fm_metadata fm)) → is_head e = true →
     own_attribute f = None ∧ assoc f (groups (_meta (fm_metadata fm))) = None) →
  (∀ p, cache_prefix fm = Some p →
     cache_get c p = PNone ∧
     ∀ f e, (f, e) ∈ elements (_meta (fm_metadata fm)) →
       cache_get c (p +:+ "." +:+ f) = PNone) →
  FormattedMetadata__str__ inst_resolve strip is_head own_attribute depth fm c
    = (Return t, fm', c') →
  ∃ vs,
    Forall2 (λ fe v, resolves inst_resolve all (elements (_meta (fm_metadata fm))) fe.1 v)
      (heads (elements (_meta (fm_metadata fm)))) vs ∧
    t = String.concat newline
          (zip_with rendered (heads (elements (_meta (fm_metadata fm)))) vs).
Proof.
  intros Hc Hnd Hels Hcold. unfold FormattedMetadata__str__.
  assert (match cache_prefix fm with
          | Some p => cache_get c p
          | None => PNone
          end = PNone) as ->.
  { destruct (cache_prefix fm) as [p|] eqn:Hp; [|done]. by apply (Hcold p). }
  destruct (head_texts _ _ _ _ _ _ fm c) as [[[ts|ex] fm1] c1] eqn:Hrun; [|done].
  intros [= <- <- <-].
  destruct (head_texts_resolved all (fm_metadata fm) depth _ fm c ts fm1 c1
              Hc eq_refl Hnd) as (vs & Hvs & ->); [|exact Hrun|by exists vs].
  intros f e Hin Hh. destruct (Hels f e Hin Hh) as [Hown Hg].
  split; [done|]. split; [done|]. split; [by apply assoc_NoDup|].
  intros k. unfold cache_key_of.
  destruct (cache_prefix fm) as [p|] eqn:Hp; [|done].
  case_decide; [done|]. intros [= <-]. by eapply (Hcold p).
Qed.

End StrChain.

(** ** The registry *)

Lemma dict_set_other {V} (k k' : string) (v : V) (d : list (string * V)) :
  k' ≠ k → assoc k' (dict_set k v d) = assoc k' d.
Proof.
  intros Hne. induction d as [|[k0 v0] d IH]; simpl.
  - by rewrite decide_False.
  - case_decide as Hk; simpl.
    + subst k0. by rewrite !decide_False.
    + case_decide; [done|exact IH].
Qed.

Lemma dict_set_keys {V} (k : string) (v : V) (d : list (string * V)) :
  (dict_set k v d).*1 = if decide (k ∈ d.*1) then d.*1 else d.*1 ++ [k].
Proof.
  induction d as [|[k0 v0] d IH]; [done|].
  cbn [dict_set]. rewrite (fmap_cons fst (k0, v0) d). cbn [fst].
  destruct (decide (k = k0)) as [->|Hk].
  - rewrite fmap_cons. cbn [fst]. rewrite decide_True; [done|]. by left.
  - rewrite fmap_cons, IH. cbn [fst]. destruct (decide (k ∈ d.*1)) as [Hin|Hin].
    + rewrite decide_True; [done|]. by right.
    + rewrite decide_False; [done|].
      intros [?|?]%elem_of_cons; [done|done].
Qed.

Section RegistryFacts.
Variable Options__init__ : option class_attr → option class_attr → Options.
Variable backend_registry : list (string * Backend).
Variable RESERVED_FIELD_NAMES : list string.

Lemma new_registers registry name attrs cls registry' :
  MetadataBase__new__ Options__init__ backend_registry RESERVED_FIELD_NAMES
    registry name false attrs = Return (cls, registry') →
  registry' = dict_set name cls registry ∧ mc_name cls = name.
Proof.
  unfold MetadataBase__new__. cbv zeta.
  destruct (check_groups _ _); simpl; [|done].
  destruct (check_reserved _ _); simpl; [|done].
  destruct (add_backends _ _ _) as [o|]; simpl; [|done].
  destruct (validate_backends _ _ _); simpl; [|done].
  by intros [= <- <-].
Qed.

(** A class that the metaclass has created is found under its name by
    [_get_metadata_model]; the lookup of every other name is as
    before; the class takes the place of an older class of the same
    name and is put last otherwise; and the lookup without a name
    returns it exactly when no class of another name was registered,
    and fails its assertion otherwise. *)
Theorem created_class_is_found_by_name registry name attrs cls registry' :
  MetadataBase__new__ Options__init__ backend_registry RESERVED_FIELD_NAMES
    registry name false attrs = Return (cls, registry') →
  _get_metadata_model registry' (Some name) = Return cls ∧
  (∀ n, n ≠ name →
     _get_metadata_model registry' (Some n) = _get_metadata_model registry (Some n)) ∧
  registry'.*1 = (if decide (name ∈ registry.*1) then registry.*1
                  else registry.*1 ++ [name]) ∧
  (registry.*1 = [] ∨ registry.*1 = [name] →
     _get_metadata_model registry' None = Return cls) ∧
  (¬ (registry.*1 = [] ∨ registry.*1 = [name]) →
     ∃ msg, _get_metadata_model registry' None = Raise (AssertionError msg)).
Proof.
  intros [-> _]%new_registers. split; [|split; [|split; [|split]]].
  - simpl. by rewrite dict_set_lookup.
  - intros n Hn. simpl. by rewrite dict_set_other.
  - apply dict_set_keys.
  - intros [Hnil|Hone].
    + apply fmap_nil_inv in Hnil as ->. reflexivity.
    + destruct registry as [|[k c] [|? ?]]; [done| |done].
      injection Hone as ->. simpl. by rewrite decide_True.
  - intros Hnot. destruct registry as [|[k c] [|[k' c'] l]]; simpl.
    + destruct Hnot. by left.
    + case_decide as Hk; [|by eexists]. subst k. destruct Hnot. by right.
    + case_decide; [by eexists|]. simpl. case_decide; [by eexists|].
      destruct (dict_set name cls l) eqn:Hl; [|by eexists].
      by destruct l as [|[??] ?]; simpl in Hl; [|case_decide].
Qed.

End RegistryFacts.

(** ** What create_metadata_instance leaves alone *)

Lemma same_but_table_refl model_class db : same_but_table model_class db db.
Proof. by repeat split. Qed.

Lemma same_but_table_trans model_class db1 db2 db3 :
  same_but_table model_class db1 db2 → same_but_table model_class db2 db3 →
  same_but_table model_class db1 db3.
Proof.
  intros (? & ? & ? & ? & H12) (? & ? & ? & ? & H23).
  repeat split; try congruence. intros m Hm. by rewrite H23, H12.
Qed.

Lemma same_but_table_Model_save model_class md db :
  same_but_table model_class db (Model_save model_class md db).
Proof.
  repeat split. intros m Hm. unfold Model_save. simpl. by rewrite lookup_insert_ne.
Qed.

Lemma save_row_length md rows : length rows ≤ length (save_row md rows).
Proof.
  unfold save_row. destruct (row_id md) as [id|].
  - case_decide; [by rewrite length_fmap|rewrite length_app; lia].
  - rewrite length_app. lia.
Qed.

Lemma save_frame model_class md db md' db' :
  save model_class md db = Return (md', db') →
  same_but_table model_class db db' ∧
  length (table db model_class) ≤ length (table db' model_class).
Proof.
  unfold save.
  destruct (match _content_object md db with Some _ => _ | None => _ end)
    as [md1|e]; simpl; [|done].
  case_decide; [done|]. intros [= <- <-].
  split; [apply same_but_table_Model_save|].
  rewrite table_Model_save. apply save_row_length.
Qed.

Lemma repoint_loop_frame metadata_class content_type instance mds found db exit :
  repoint_loop metadata_class content_type instance mds found db = Return exit →
  same_but_table metadata_class db (exit_db exit) ∧
  length (table db metadata_class) ≤ length (table (exit_db exit) metadata_class).
Proof.
  revert found db. induction mds as [|md mds IH]; intros found db; simpl.
  - intros [= <-]. split; [apply same_but_table_refl|done].
  - case_decide; [apply IH|].
    destruct (_content_object md db) as [other|].
    + destruct (t_url other) as [url|e]; simpl; [|done].
      destruct (save _ _ _) as [[md' db1]|e] eqn:Hsave; simpl; [|done].
      apply save_frame in Hsave as [Hsame1 Hlen1].
      intros Hloop. apply IH in Hloop as [Hsame Hlen]. split.
      * eapply same_but_table_trans; [exact Hsame1|exact Hsame].
      * etrans; [exact Hlen1|exact Hlen].
    + intros [= <-]. split; [apply same_but_table_refl|done].
Qed.

Lemma get_or_create_frame model_class content_type pk db md db' :
  get_or_create model_class content_type pk db = Return (md, db') →
  same_but_table model_class db db' ∧
  length (table db model_class) ≤ length (table db' model_class).
Proof.
  unfold get_or_create.
  destruct (filter _ _) as [|md0 [|md1 l]]; [| |done].
  - apply save_frame.
  - intros [= <- <-]. split; [apply same_but_table_refl|done].
Qed.

Lemma create_metadata_instance_same_but_table metadata_class instance db db' :
  create_metadata_instance metadata_class instance db = Return db' →
  same_but_table metadata_class db db' ∧
  length (table db metadata_class) ≤ length (table db' metadata_class).
Proof.
  unfold create_metadata_instance.
  destruct (t_handled instance) eqn:Hh.
  { intros [= <-]. split; [apply same_but_table_refl|done]. }
  destruct (t_url instance) as [path|e] eqn:Hurl.
  - destruct (repoint_loop _ _ _ _ _ _) as [exit|e] eqn:Hloop; simpl; [|done].
    apply repoint_loop_frame in Hloop as [Hsame Hlen].
    destruct exit as [[md|] db1|db1]; simpl in *.
    + by intros [= <-].
    + destruct (get_or_create _ _ _ _) as [[md db2]|e] eqn:Hget; simpl; [|done].
      apply get_or_create_frame in Hget as [Hsame2 Hlen2].
      destruct (save _ _ _) as [[md' db3]|e] eqn:Hsave; simpl; [|done].
      apply save_frame in Hsave as [Hsame3 Hlen3].
      intros [= <-]. split.
      * eapply same_but_table_trans; [exact Hsame|].
        eapply same_but_table_trans; [exact Hsame2|exact Hsame3].
      * etrans; [exact Hlen|]. etrans; [exact Hlen2|exact Hlen3].
    + by intros [= <-].
  - destruct e; try done. intros [= <-].
    split; [apply same_but_table_refl|done].
Qed.

(** Whenever [create_metadata_instance] returns, the stored objects,
    the redirects, the log and every other metadata table are as
    before, and no row of the table has been deleted; for an instance
    that is marked as handled or has no [get_absolute_url] the
    database is unchanged. *)
Theorem create_metadata_instance_frame metadata_class instance db db' :
  create_metadata_instance metadata_class instance db = Return db' →
  same_but_table metadata_class db db' ∧
  length (table db metadata_class) ≤ length (table db' metadata_class) ∧
  (t_handled instance = true ∨ t_url instance = Raise AttributeError → db' = db).
Proof.
  intros Hc.
  destruct (create_metadata_instance_same_but_table _ _ _ _ Hc) as [Hsame Hlen].
  split; [exact Hsame|]. split; [exact Hlen|].
  revert Hc. unfold create_metadata_instance.
  intros Hc [Hh| Hu].
  - rewrite Hh in Hc. by injection Hc.
  - rewrite Hu in Hc. destruct (t_handled instance); by injection Hc.
Qed.

(** ** The table after create_metadata_instance *)

Lemma set_path_same r : set_path r (_path r) = r.
Proof. by destruct r. Qed.

Lemma relinked_id db instance path r :
  row_id (relinked db instance path r) = row_id r.
Proof. unfold relinked. by repeat case_decide. Qed.

Lemma relinked_linked db instance path ct pk r :
  linked_to ct pk (relinked db instance path r) ↔ linked_to ct pk r.
Proof. unfold relinked. by repeat case_decide. Qed.

Lemma relinked_other_url db db' instance path r :
  tracked db' = tracked db →
  other_url db' (relinked db instance path r) = other_url db r.
Proof.
  intros Htr. unfold other_url, _content_object, relinked. rewrite Htr.
  by repeat case_decide.
Qed.

Lemma fresh_id_fmap (f : MetadataRow → MetadataRow) rows :
  (∀ r, row_id (f r) = row_id r) → fresh_id (f <$> rows) = fresh_id rows.
Proof.
  intros Hf. unfold fresh_id. f_equal. f_equal.
  induction rows as [|r rows IH]; [done|].
  rewrite fmap_cons. cbn [omap list_omap]. rewrite Hf.
  destruct (row_id r); by rewrite <- IH.
Qed.

Lemma filter_singleton_elem {A} (P : A → Prop) `{∀ x, Decision (P x)}
    (l : list A) (x : A) :
  length (filter P l) ≤ 1 → x ∈ l → P x → filter P l = [x].
Proof.
  intros Hlen Hin HP.
  assert (x ∈ filter P l) as Hx by (by apply list_elem_of_filter).
  destruct (filter P l) as [|y [|z l']]; simpl in Hlen.
  - by apply elem_of_nil in Hx.
  - by apply list_elem_of_singleton in Hx as ->.
  - lia.
Qed.

(** [create_metadata_instance] in closed form, for an instance with a
    primary key that is stored with the URL it has and is not marked
    as handled. *)
Lemma create_metadata_instance_table metadata_class instance db path k stored :
  let ct := t_model instance in
  let pk := t_pk instance in
  let T := table db metadata_class in
  pk = Some k →
  head (filter (λ t, t_model t = ct ∧ t_pk t = Some k) (tracked db)) = Some stored →
  t_url stored = Return path →
  t_handled instance = false →
  t_url instance = Return path →
  rows_wf T →
  (∀ r, r ∈ T → _path r = path → ¬ linked_to ct pk r → is_Some (other_url db r)) →
  length (filter (linked_to ct pk) T) ≤ 1 →
  ∃ db', create_metadata_instance metadata_class instance db = Return db' ∧
    table db' metadata_class =
      (relinked db instance path <$> T) ++ created_rows T instance path.
Proof.
  intros ct pk T Hk Hstored Hsurl Hh Hpath Hwf Hurl Hone.
  set (mds := get_instances path T).
  assert (∀ r, r ∈ mds ↔ _path r = path ∧ r ∈ T) as Hmds.
  { intros r. unfold mds, get_instances. by rewrite list_elem_of_filter. }
  destruct (repoint_loop_spec metadata_class instance mds None db Hwf)
    as (db1 & Hloop & Htab & Htr).
  { apply Forall_forall. intros r Hr. by apply Hmds. }
  { apply NoDup_filter. destruct Hwf as [Hids _]. by apply NoDup_fmap_1 in Hids. }
  { intros r [? ?]%Hmds ?. by apply Hurl. }
  fold ct pk T in Hloop, Htab.
  set (T1 := table db1 metadata_class) in *.
  assert (∀ r, linked_to ct pk r → _content_object r db1 = Some stored) as Hco.
  { intros r Hl. apply (content_object_stored db1 ct k); [by rewrite Htr|].
    by rewrite <- Hk. }
  assert (∀ r, r ∈ T → ¬ linked_to ct pk r →
            repointed db ct pk mds r = relinked db instance path r) as Hother.
  { intros r Hr Hl. unfold repointed, relinked. fold ct pk.
    rewrite (decide_False (P := linked_to ct pk r)) by done.
    destruct (decide (_path r = path)) as [Hp|Hp].
    - rewrite decide_True; [done|]. split; [by apply Hmds|done].
    - rewrite decide_False; [done|]. intros [[? ?]%Hmds _]. done. }
  assert (filter (linked_to ct pk) T1 = filter (linked_to ct pk) T) as F4.
  { rewrite Htab. apply filter_fmap_fix.
    - intros r. apply repointed_linked.
    - intros r. apply repointed_fix. }
  assert (rows_wf T1) as F3.
  { destruct Hwf as [Hids Hsome]. rewrite Htab. split.
    - rewrite <- list_fmap_compose. erewrite list_fmap_ext; [exact Hids|].
      intros i r _. simpl. apply repointed_id.
    - apply Forall_fmap. eapply Forall_impl; [exact Hsome|].
      intros r Hr. simpl. by rewrite repointed_id. }
  unfold create_metadata_instance. rewrite Hh, Hpath.
  fold ct pk T mds. rewrite Hloop. simpl.
  destruct (last (filter (linked_to ct pk) mds)) as [md|] eqn:Hlast.
  - exists db1. split; [done|].
    apply last_Some_elem_of, list_elem_of_filter in Hlast as [Hl [Hp Hin]%Hmds].
    pose proof (filter_singleton_elem _ T md Hone Hin Hl) as Hf.
    unfold created_rows. fold ct pk. rewrite Hf, app_nil_r. fold T1. rewrite Htab.
    apply list_fmap_ext. intros i r Hr%list_elem_of_lookup_2.
    destruct (decide (linked_to ct pk r)) as [Hlr|Hlr]; [|by apply Hother].
    rewrite repointed_fix by done.
    assert (r ∈ filter (linked_to ct pk) T) as Hrf by (by apply list_elem_of_filter).
    rewrite Hf in Hrf. apply list_elem_of_singleton in Hrf as ->.
    unfold relinked. fold ct pk. rewrite decide_True by done.
    by rewrite <- Hp, set_path_same.
  - destruct (filter (linked_to ct pk) T) as [|md0 [|md1 l]] eqn:Hf;
      [| |simpl in Hone; lia].
    + destruct (get_or_create_then_save metadata_class ct pk db1 stored path
                  Hco Hsurl F4) as (db' & Hrun & Htab').
      exists db'. split; [exact Hrun|]. rewrite Htab'. fold T1.
      unfold created_rows. fold ct pk T. rewrite Hf. f_equal.
      * rewrite Htab. apply list_fmap_ext. intros i r Hr%list_elem_of_lookup_2.
        apply Hother; [done|]. intros Hl.
        assert (r ∈ filter (linked_to ct pk) T) as Hrf
          by (by apply list_elem_of_filter).
        rewrite Hf in Hrf. by apply elem_of_nil in Hrf.
      * do 3 f_equal.
        rewrite Htab. apply fresh_id_fmap. intros r. apply repointed_id.
    + assert (md0 ∈ filter (linked_to ct pk) T) as Hmd0 by (rewrite Hf; by left).
      apply list_elem_of_filter in Hmd0 as [Hl0 Hin0].
      destruct Hwf as [Hids Hsome].
      assert (is_Some (row_id md0)) as Hid0.
      { rewrite Forall_forall in Hsome. by apply Hsome. }
      unfold get_or_create. fold T1. rewrite F4. simpl.
      rewrite (save_at_own_url metadata_class (set_path md0 path) db1 stored);
        [|done|by apply (Hco md0)|done].
      eexists. split; [done|]. rewrite table_Model_save. fold T1.
      rewrite save_row_existing.
      2:{ simpl. by destruct Hid0 as [id ->]. }
      2:{ simpl. rewrite Htab, <- list_fmap_compose.
          apply (list_elem_of_fmap_2' _ _ md0); [done|]. simpl.
          by rewrite repointed_id. }
      unfold created_rows. fold ct pk. rewrite Hf, app_nil_r.
      rewrite Htab, <- list_fmap_compose.
      apply list_fmap_ext. intros i r Hr%list_elem_of_lookup_2. simpl.
      rewrite repointed_id.
      destruct (decide (row_id r = row_id md0)) as [Heq|Hne].
      * assert (r = md0) as -> by (by apply (NoDup_fmap_eq row_id T)).
        unfold relinked. fold ct pk. by rewrite decide_True.
      * apply Hother; [done|]. intros Hl.
        assert (r ∈ filter (linked_to ct pk) T) as Hrf
          by (by apply list_elem_of_filter).
        rewrite Hf in Hrf. apply list_elem_of_singleton in Hrf. by subst.
Qed.

(** ** populate_metadata on a healthy database *)

(** Among stored objects with distinct keys, the object found for the
    key of a stored object is that object. *)
Lemma stored_object_found db t k :
  NoDup (object_key <$> tracked db) → t ∈ tracked db → t_pk t = Some k →
  head (filter (λ t', t_model t' = t_model t ∧ t_pk t' = Some k) (tracked db))
    = Some t.
Proof.
  intros Hnd Hin Hk.
  assert (t ∈ filter (λ t', t_model t' = t_model t ∧ t_pk t' = Some k) (tracked db))
    as Hf by (by apply list_elem_of_filter).
  destruct (filter _ (tracked db)) as [|t0 l] eqn:Heq; [by apply elem_of_nil in Hf|].
  simpl. f_equal.
  assert (t0 ∈ filter (λ t', t_model t' = t_model t ∧ t_pk t' = Some k) (tracked db))
    as [[Hm0 Hk0] Hin0]%list_elem_of_filter by (rewrite Heq; by left).
  apply (NoDup_fmap_eq object_key (tracked db)); [done..|].
  unfold object_key. by rewrite Hm0, Hk0, Hk.
Qed.

Lemma content_object_of db t r :
  NoDup (object_key <$> tracked db) → t ∈ tracked db → is_Some (t_pk t) →
  linked_to (t_model t) (t_pk t) r → _content_object r db = Some t.
Proof.
  intros Hnd Hin [k Hk] Hl.
  apply (content_object_stored db (t_model t) k);
    [by apply stored_object_found|by rewrite <- Hk].
Qed.

Lemma other_url_of db t r path :
  NoDup (object_key <$> tracked db) → t ∈ tracked db → is_Some (t_pk t) →
  linked_to (t_model t) (t_pk t) r → t_url t = Return path →
  other_url db r = Some path.
Proof.
  intros Hnd Hin Hpk Hl Hurl. unfold other_url.
  by rewrite (content_object_of db t r Hnd Hin Hpk Hl), Hurl.
Qed.

Lemma filter_fmap_length {A} (P : A → Prop) `{∀ x, Decision (P x)} (f : A → A)
    (l : list A) :
  (∀ x, P (f x) ↔ P x) → length (filter P (f <$> l)) = length (filter P l).
Proof.
  intros Hiff. induction l as [|x l IH]; [done|].
  rewrite fmap_cons. destruct (decide (P x)) as [Hx|Hx].
  - rewrite !filter_cons_True by (by rewrite ?Hiff). simpl. by rewrite IH.
  - by rewrite !filter_cons_False by (by rewrite ?Hiff).
Qed.

Lemma created_rows_spec rows instance path r :
  r ∈ created_rows rows instance path →
  filter (linked_to (t_model instance) (t_pk instance)) rows = [] ∧
  r = {| row_id := Some (fresh_id rows); _content_type := Some (t_model instance);
         _object_id := t_pk instance; _path := path |}.
Proof.
  unfold created_rows. destruct (filter _ rows) as [|r0 l].
  - by intros ->%list_elem_of_singleton.
  - by intros ?%elem_of_nil.
Qed.

(** One call on a healthy database: it returns, the database stays
    healthy, every object that had a row at its URL still has one, and
    the instance has one at its URL. *)
Lemma create_metadata_instance_healthy metadata_class instance db :
  healthy db metadata_class → instance ∈ tracked db →
  (∀ e, t_url instance = Raise e → e = AttributeError) →
  ∃ db', create_metadata_instance metadata_class instance db = Return db' ∧
    healthy db' metadata_class ∧ tracked db' = tracked db ∧
    (∀ t path, t ∈ tracked db → t_url t = Return path →
       has_metadata db metadata_class t path → has_metadata db' metadata_class t path) ∧
    (t_handled instance = false → ∀ path, t_url instance = Return path →
       has_metadata db' metadata_class instance path).
Proof.
  intros Hh Hin Hexn.
  destruct (t_handled instance) eqn:Hhandled.
  { exists db. unfold create_metadata_instance. rewrite Hhandled.
    split; [done|]. split; [done|]. split; [done|]. by split. }
  destruct (t_url instance) as [path|e] eqn:Hurl.
  2:{ rewrite (Hexn e eq_refl) in Hurl. exists db.
      unfold create_metadata_instance. rewrite Hhandled, Hurl.
      split; [done|]. split; [done|]. split; [done|]. by split. }
  destruct Hh as (Hkeys & Hpks & Hwf & Hurls & Hone).
  set (T := table db metadata_class) in *.
  rewrite Forall_forall in Hurls. rewrite Forall_forall in Hpks.
  destruct (Hpks instance Hin) as [k Hk].
  destruct (create_metadata_instance_table metadata_class instance db path
              k instance Hk (stored_object_found db instance k Hkeys Hin Hk)
              Hurl Hhandled Hurl Hwf) as (db' & Hcreate & Htab).
  { intros r Hr _ _. by apply Hurls. }
  { apply Hone. }
  fold T in Htab.
  destruct (create_metadata_instance_same_but_table _ _ _ _ Hcreate)
    as [(Htr & _) _].
  exists db'. split; [exact Hcreate|].
  assert (∀ r, r ∈ created_rows T instance path →
            linked_to (t_model instance) (t_pk instance) r ∧ _path r = path ∧
            row_id r = Some (fresh_id T) ∧
            filter (linked_to (t_model instance) (t_pk instance)) T = []) as Hnew.
  { intros r [Hf ->]%created_rows_spec. by repeat split. }
  split; [|split; [exact Htr|split]].
  - split; [by rewrite Htr|]. split; [by rewrite Htr; apply Forall_forall|].
    rewrite Htab. split; [|split].
    + destruct Hwf as [Hids Hsome]. split.
      * rewrite fmap_app, <- list_fmap_compose.
        erewrite (list_fmap_ext (row_id ∘ relinked db instance path) row_id);
          [|intros i r _; apply relinked_id].
        apply NoDup_app. split; [exact Hids|]. split.
        -- intros id Hid (r & -> & Hr)%list_elem_of_fmap.
           destruct (Hnew r Hr) as (_ & _ & Hfresh & _). rewrite Hfresh in Hid.
           by apply fresh_id_fresh in Hid.
        -- unfold created_rows. destruct (filter _ T); simpl;
             [apply NoDup_singleton|apply NoDup_nil_2].
      * apply Forall_app. split.
        -- apply Forall_fmap. eapply Forall_impl; [exact Hsome|].
           intros r Hr. simpl. by rewrite relinked_id.
        -- apply Forall_forall. intros r Hr.
           destruct (Hnew r Hr) as (_ & _ & -> & _). by eexists.
    + apply Forall_app. split.
      * apply Forall_fmap, Forall_forall. intros r Hr. simpl.
        rewrite (relinked_other_url db db' instance path r Htr). by apply Hurls.
      * apply Forall_forall. intros r Hr. destruct (Hnew r Hr) as (Hl & _).
        exists path. by apply (other_url_of db' instance r path); rewrite ?Htr.
    + intros ct pk. rewrite filter_app, length_app.
      rewrite filter_fmap_length by (intros r; apply relinked_linked).
      destruct (created_rows T instance path) as [|r0 l] eqn:Hcr; [simpl; by rewrite Nat.add_0_r|].
      assert (l = []) as ->.
      { revert Hcr. unfold created_rows. destruct (filter _ T); by intros [= _ <-]. }
      destruct (Hnew r0) as (Hl0 & _ & _ & Hnone); [by left|].
      destruct (decide (linked_to ct pk r0)) as [Hl|Hl].
      * assert (ct = t_model instance ∧ pk = t_pk instance) as [-> ->].
        { destruct Hl as [H1 H2], Hl0 as [H3 H4]. split; congruence. }
        rewrite Hnone. rewrite filter_cons_True by done. done.
      * rewrite filter_cons_False by done. simpl. rewrite Nat.add_0_r. apply Hone.
  - intros t p Ht Htu (r & Hr & Hl & Hp). rewrite <- Hp in *.
    exists (relinked db instance path r). unfold has_metadata. rewrite Htab.
    split; [apply elem_of_app; left; by apply list_elem_of_fmap_2|].
    split; [by apply relinked_linked|].
    unfold relinked.
    destruct (decide (linked_to (t_model instance) (t_pk instance) r)) as [Hli|Hli].
    + assert (instance = t) as <-.
      { apply (NoDup_fmap_eq object_key (tracked db)); [done..|].
        unfold object_key. destruct Hl as [H1 H2], Hli as [H3 H4].
        f_equal; congruence. }
      simpl. congruence.
    + case_decide; [|done]. simpl.
      by rewrite (other_url_of db t r (_path r) Hkeys Ht (Hpks t Ht) Hl Htu).
  - intros _ p [= <-]. unfold has_metadata. rewrite Htab.
    destruct (filter (linked_to (t_model instance) (t_pk instance)) T)
      as [|md0 l] eqn:Hf.
    + exists {| row_id := Some (fresh_id T); _content_type := Some (t_model instance);
               _object_id := t_pk instance; _path := path |}.
      split; [|by split]. apply elem_of_app. right.
      unfold created_rows. rewrite Hf. by left.
    + assert (md0 ∈ filter (linked_to (t_model instance) (t_pk instance)) T)
        as [Hl0 Hin0]%list_elem_of_filter by (rewrite Hf; by left).
      exists (relinked db instance path md0).
      split; [apply elem_of_app; left; by apply list_elem_of_fmap_2|].
      split; [by apply relinked_linked|].
      unfold relinked. by rewrite decide_True.
Qed.

Lemma populate_loop metadata_class l db :
  healthy db metadata_class →
  (∀ t, t ∈ l → t ∈ tracked db ∧ ∀ e, t_url t = Raise e → e = AttributeError) →
  ∃ db', foldl (λ r instance, db' ← r; create_metadata_instance metadata_class instance db')
           (Return db) l = Return db' ∧
    healthy db' metadata_class ∧ tracked db' = tracked db ∧
    (∀ t path, t ∈ tracked db → t_url t = Return path →
       has_metadata db metadata_class t path → has_metadata db' metadata_class t path) ∧
    (∀ t path, t ∈ l → t_handled t = false → t_url t = Return path →
       has_metadata db' metadata_class t path).
Proof.
  revert db. induction l as [|x l IH]; intros db Hh Hl.
  { exists db. split; [done|]. split; [done|]. split; [done|]. split; [done|].
    by intros t path ?%elem_of_nil. }
  destruct (Hl x (list_elem_of_here _ _)) as [Hx Hexn].
  destruct (create_metadata_instance_healthy metadata_class x db Hh Hx Hexn)
    as (db1 & Hcreate & Hh1 & Htr1 & Hkeep1 & Hnew1).
  destruct (IH db1 Hh1) as (db2 & Hloop & Hh2 & Htr2 & Hkeep2 & Hnew2).
  { intros t Ht. rewrite Htr1. apply Hl. by right. }
  exists db2. simpl. rewrite Hcreate.
  split; [exact Hloop|]. split; [exact Hh2|]. split; [congruence|]. split.
  - intros t path Ht Hu Hm. apply Hkeep2; [by rewrite Htr1|done|]. by apply Hkeep1.
  - intros t path [->|Ht]%elem_of_cons Hhandled Hu.
    + apply Hkeep2; [by rewrite Htr1|done|]. by apply Hnew1.
    + by apply Hnew2.
Qed.

(** On a healthy database, where every instance of the model either
    has a URL or has no [get_absolute_url], [populate_metadata]
    returns and reaches the goal of its docstring: every instance of
    the model that is not marked as handled has a metadata row at its
    URL; the database stays healthy, the stored objects are as before,
    and no object that had a row at its URL has lost it. *)
Theorem populate_metadata_gives_every_instance_metadata model MetadataClass db :
  healthy db MetadataClass →
  (∀ t e, t ∈ tracked db → t_model t = model → t_url t = Raise e →
     e = AttributeError) →
  ∃ db', populate_metadata model MetadataClass db = Return db' ∧
    healthy db' MetadataClass ∧ tracked db' = tracked db ∧
    (∀ t path, t ∈ tracked db → t_model t = model → t_handled t = false →
       t_url t = Return path → has_metadata db' MetadataClass t path) ∧
    (∀ t path, t ∈ tracked db → t_url t = Return path →
       has_metadata db MetadataClass t path → has_metadata db' MetadataClass t path).
Proof.
  intros Hh Hexn.
  destruct (populate_loop MetadataClass
              (filter (λ t, t_model t = model) (tracked db)) db Hh)
    as (db' & Hloop & Hh' & Htr & Hkeep & Hnew).
  { intros t [Hm Ht]%list_elem_of_filter. split; [done|].
    intros e. by apply Hexn. }
  exists db'. split; [exact Hloop|]. split; [exact Hh'|]. split; [exact Htr|].
  split; [|exact Hkeep].
  intros t path Ht Hm. apply Hnew. by apply list_elem_of_filter.
Qed.

Lemma relinked_idem db db' instance path r :
  tracked db' = tracked db →
  relinked db' instance path (relinked db instance path r) = relinked db instance path r.
Proof.
  intros Htr.
  destruct (decide (linked_to (t_model instance) (t_pk instance) r)) as [Hlr|Hlr].
  - assert (relinked db instance path r = set_path r path) as ->
      by (unfold relinked; by rewrite decide_True).
    unfold relinked. rewrite decide_True by done. by destruct r.
  - destruct (decide (_path r = path)) as [Hp|Hp].
    + assert (relinked db instance path r
              = set_path r (default (_path r) (other_url db r))) as ->
        by (unfold relinked; rewrite decide_False by done; by rewrite decide_True).
      unfold relinked. rewrite decide_False by done.
      case_decide as Hp'; [|done].
      assert (other_url db' (set_path r (default (_path r) (other_url db r)))
              = other_url db r) as ->
        by (unfold other_url, _content_object; by rewrite Htr).
      simpl. destruct (other_url db r); by destruct r.
    + assert (relinked db instance path r = r) as ->
        by (unfold relinked; by rewrite !decide_False by done).
      unfold relinked. by rewrite !decide_False by done.
Qed.

(** On a healthy database a second call of [create_metadata_instance]
    for the same instance returns and leaves the table as the first
    call made it. *)
Theorem create_metadata_instance_twice metadata_class instance db :
  healthy db metadata_class → instance ∈ tracked db →
  (∀ e, t_url instance = Raise e → e = AttributeError) →
  ∃ db' db'',
    create_metadata_instance metadata_class instance db = Return db' ∧
    create_metadata_instance metadata_class instance db' = Return db'' ∧
    table db'' metadata_class = table db' metadata_class ∧
    tracked db'' = tracked db.
Proof.
  intros Hh Hin Hexn.
  destruct (create_metadata_instance_healthy metadata_class instance db Hh Hin Hexn)
    as (db' & Hcreate & Hh' & Htr & _ & Hnew).
  exists db'.
  destruct (t_handled instance) eqn:Hhandled.
  { exists db'. revert Hcreate. unfold create_metadata_instance. rewrite Hhandled.
    by intros [= <-]. }
  destruct (t_url instance) as [path|e] eqn:Hurl.
  2:{ exists db'. revert Hcreate. unfold create_metadata_instance.
      rewrite Hhandled, Hurl, (Hexn e eq_refl). by intros [= <-]. }
  destruct Hh as (Hkeys & Hpks & Hwf & Hurls & Hone).
  rewrite Forall_forall in Hpks. destruct (Hpks instance Hin) as [k Hk].
  destruct (create_metadata_instance_table metadata_class instance db path
              k instance Hk (stored_object_found db instance k Hkeys Hin Hk)
              Hurl Hhandled Hurl Hwf) as (db1 & Hcreate1 & Htab1).
  { intros r Hr _ _. rewrite Forall_forall in Hurls. by apply Hurls. }
  { apply Hone. }
  assert (db1 = db') as -> by congruence.
  destruct Hh' as (Hkeys' & _ & Hwf' & Hurls' & Hone').
  assert (instance ∈ tracked db') as Hin' by (by rewrite Htr).
  destruct (create_metadata_instance_table metadata_class instance db' path
              k instance Hk (stored_object_found db' instance k Hkeys' Hin' Hk)
              Hurl Hhandled Hurl Hwf') as (db'' & Hcreate2 & Htab2).
  { intros r Hr _ _. rewrite Forall_forall in Hurls'. by apply Hurls'. }
  { apply Hone'. }
  destruct (create_metadata_instance_same_but_table _ _ _ _ Hcreate2)
    as [(Htr2 & _) _].
  exists db''. split; [exact Hcreate|]. split; [exact Hcreate2|].
  split; [|congruence].
  destruct (Hnew eq_refl path eq_refl) as (r0 & Hr0 & Hl0 & _).
  assert (created_rows (table db' metadata_class) instance path = []) as Hnone.
  { unfold created_rows.
    assert (r0 ∈ filter (linked_to (t_model instance) (t_pk instance))
                   (table db' metadata_class)) as Hf
      by (by apply list_elem_of_filter).
    by destruct (filter _ (table db' metadata_class)); [apply elem_of_nil in Hf|]. }
  rewrite Htab2, Hnone, app_nil_r.
  trans (id <$> table db' metadata_class); [|by rewrite list_fmap_id].
  apply list_fmap_ext. intros i r Hr%list_elem_of_lookup_2. simpl.
  rewrite Htab1 in Hr. apply elem_of_app in Hr as [Hr|Hr].
  - apply list_elem_of_fmap in Hr as (r1 & -> & _). by apply relinked_idem.
  - apply created_rows_spec in Hr as [_ ->].
    unfold relinked. by rewrite decide_True.
Qed.

(** ** The generator _get_instances *)

Section GetInstancesFacts.
Context {I Ctx : Type}.
Variable manager_get_instances :
  string → string → option Site → option string → option string → Ctx → option (list I).
Variable _process_context : I → option (Ctx → Ctx).
Variable path : string.
Variable site : option Site.
Variable language subdomain : option string.

Local Abbreviation query' :=
  (query manager_get_instances path site language subdomain).
Local Abbreviation process' := (process _process_context).
Local Abbreviation draw' :=
  (draw manager_get_instances _process_context path site language subdomain).
Local Abbreviation by_model :=
  (instances_by_model manager_get_instances _process_context path site language
     subdomain).

(** What a suspended generator still has to yield. *)
Local Abbreviation ahead ctx pending remaining :=
  (pending ++ concat (by_model remaining (foldl process' ctx pending))).

Local Abbreviation state ctx pending remaining :=
  ({| backend_context := ctx; pending := pending; remaining := remaining |}
   : @generator I Ctx).

Lemma draw_skip n ctx model remaining :
  draw' (S n) (state ctx [] (model :: remaining)) =
  let '(instances, queried, g) :=
    draw' (S n) (state ctx (query' model ctx) remaining) in
  (instances, model :: queried, g).
Proof.
  simpl. unfold generator_next. simpl.
  destruct (generator_resume _ _ _ _ _ _ ctx (query' model ctx) remaining)
    as [[[x|] g] qs]; [|done].
  by destruct (draw _ _ _ _ _ _ n g) as [[xs qs'] g'].
Qed.

Lemma draw_spec n ctx pending remaining :
  (draw' n (state ctx pending remaining)).1.1 = take n (ahead ctx pending remaining) ∧
  (draw' n (state ctx pending remaining)).1.2 `prefix_of` remaining ∧
  ∀ j, n ≤ length pending +
           length (concat (take j (by_model remaining (foldl process' ctx pending)))) →
       length (draw' n (state ctx pending remaining)).1.2 ≤ j.
Proof.
  revert ctx pending remaining. induction n as [|n IH]; intros ctx pending remaining.
  { simpl. split; [done|]. split; [apply prefix_nil|]. intros j _. lia. }
  assert (∀ ctx x pending remaining,
    (draw' (S n) (state ctx (x :: pending) remaining)).1.1
      = take (S n) (ahead ctx (x :: pending) remaining) ∧
    (draw' (S n) (state ctx (x :: pending) remaining)).1.2 `prefix_of` remaining ∧
    ∀ j, S n ≤ length (x :: pending) +
               length (concat (take j (by_model remaining
                                         (foldl process' ctx (x :: pending))))) →
         length (draw' (S n) (state ctx (x :: pending) remaining)).1.2 ≤ j) as Hcons.
  { clear ctx pending remaining. intros ctx x pending remaining.
    destruct (IH (process' ctx x) pending remaining) as (Hitems & Hpre & Hbound).
    simpl. unfold generator_next. simpl. destruct remaining as [|m ms]; simpl;
      destruct (draw _ _ _ _ _ _ n _) as [[xs qs] g'];
      simpl in *; (split; [by rewrite Hitems|]); (split; [done|]);
      intros j Hj; apply Hbound; lia. }
  destruct pending as [|x pending]; [|apply Hcons].
  clear IH. revert ctx. induction remaining as [|m ms IHr]; intros ctx.
  { simpl. split; [done|]. split; [done|]. intros j _. lia. }
  rewrite draw_skip.
  assert ((draw' (S n) (state ctx (query' m ctx) ms)).1.1
            = take (S n) (ahead ctx (query' m ctx) ms) ∧
          (draw' (S n) (state ctx (query' m ctx) ms)).1.2 `prefix_of` ms ∧
          ∀ j, S n ≤ length (query' m ctx) +
                     length (concat (take j (by_model ms
                                               (foldl process' ctx (query' m ctx))))) →
               length (draw' (S n) (state ctx (query' m ctx) ms)).1.2 ≤ j)
    as (Hitems & Hpre & Hbound).
  { destruct (query' m ctx) as [|x found]; [apply IHr|apply Hcons]. }
  destruct (draw _ _ _ _ _ _ (S n) (state ctx (query' m ctx) ms)) as [[xs qs] g'].
  simpl in *. split; [exact Hitems|]. split; [by apply prefix_cons|].
  intros [|j] Hj; [simpl in Hj; lia|].
  simpl in Hj. rewrite length_app in Hj.
  apply le_n_S, Hbound. lia.
Qed.

(** [_get_instances] is lazy: a consumer that asks for [n] instances
    gets the first [n] of what the backends provide in the order of
    the models (each model queried with the context as the instances
    before it have left it), the managers are queried in the order of
    the models, and when the first [j] models provide [n] instances
    no more than [j] of them are queried. *)
Theorem get_instances_queries_no_more_than_needed meta ctx n instances queried g :
  draw' n (_get_instances meta ctx) = (instances, queried, g) →
  instances = take n (concat (by_model (models meta).*2 ctx)) ∧
  queried `prefix_of` (models meta).*2 ∧
  ∀ j, n ≤ length (concat (take j (by_model (models meta).*2 ctx))) →
       length queried ≤ j.
Proof.
  intros Hdraw.
  destruct (draw_spec n ctx [] (models meta).*2) as (Hitems & Hpre & Hbound).
  unfold _get_instances in Hdraw. rewrite Hdraw in Hitems, Hpre, Hbound.
  simpl in *. by repeat split.
Qed.

End GetInstancesFacts.

(** ** register_signals *)

Lemma elem_of_flat_map {A B} (f : A → list B) (l : list A) (y : B) :
  y ∈ flat_map f l ↔ ∃ x, y ∈ f x ∧ x ∈ l.
Proof.
  induction l as [|a l IH]; simpl.
  - split; [by intros ?%elem_of_nil|by intros (? & _ & ?%elem_of_nil)].
  - rewrite elem_of_app, IH. split.
    + intros [?|(x & ? & ?)]; [exists a; split; [done|by left]|].
      exists x. split; [done|by right].
    + intros (x & Hy & [->|Hx]%elem_of_cons); [by left|]. right. by exists x.
Qed.

Section RegisterSignalsFacts.
Variable seo_models : Options → list nat.
Variable SEO_USE_REDIRECTS : bool.
Variable import_tracked_models : list nat.

Lemma connect_classes_spec classes model_instance calls :
  Forall (λ cls, is_Some (mc_meta cls)) classes →
  connect_classes seo_models classes model_instance calls =
    (Return (from_option (λ cls, Some (bound_model cls)) model_instance (last classes)),
     calls ++ flat_map (class_connections seo_models) classes).
Proof.
  revert model_instance calls.
  induction classes as [|cls classes IH]; intros model_instance calls Hall.
  { simpl. by rewrite app_nil_r. }
  apply Forall_cons in Hall as [[meta Hmeta] Hall]. simpl.
  unfold class_connections at 1. rewrite Hmeta.
  rewrite last_cons.
  destruct (get_model meta "modelinstance") as [m|] eqn:Hm.
  - rewrite IH by done. rewrite (assoc_L (++)).
    destruct (last classes); simpl; [done|].
    unfold bound_model. by rewrite Hmeta; simpl; rewrite Hm.
  - rewrite IH by done. simpl.
    destruct (last classes); simpl; [done|].
    unfold bound_model. by rewrite Hmeta; simpl; rewrite Hm.
Qed.

Lemma connect_redirects_bound redirects_models bound calls :
  connect_redirects redirects_models (Some bound) calls =
    (Return tt,
     calls ++ ((λ model, {| c_signal := pre_save; c_receiver := redirects_callback bound;
                            c_sender := model |}) <$> redirects_models)).
Proof.
  revert calls. induction redirects_models as [|model l IH]; intros calls; simpl.
  - by rewrite app_nil_r.
  - by rewrite IH, <- (assoc_L (++)).
Qed.

Lemma class_connections_elem cls c :
  c ∈ class_connections seo_models cls ↔
  ∃ meta m, mc_meta cls = Some meta ∧ get_model meta "modelinstance" = Some m ∧
    c_sender c ∈ seo_models meta ∧
    (c = {| c_signal := post_save; c_receiver := update_callback m;
            c_sender := c_sender c |} ∨
     c = {| c_signal := pre_delete; c_receiver := delete_callback m;
            c_sender := c_sender c |}).
Proof.
  unfold class_connections.
  destruct (mc_meta cls) as [meta|];
    [|split; [by intros ?%elem_of_nil|by intros (? & ? & ? & _)]].
  destruct (get_model meta "modelinstance") as [m|] eqn:Hm;
    [|split; [by intros ?%elem_of_nil|intros (? & ? & [= <-] & ? & _); congruence]].
  rewrite elem_of_flat_map. split.
  - intros (model & Hc & Hmodel). exists meta, m.
    apply elem_of_cons in Hc as [->|Hc]; [by repeat split; [..|left]|].
    apply list_elem_of_singleton in Hc as ->. by repeat split; [..|right].
  - intros (meta' & m' & [= <-] & Hm' & Hmodel & Hc).
    rewrite Hm in Hm'. injection Hm' as <-.
    exists (c_sender c). split; [|done].
    destruct Hc as [Hc|Hc]; rewrite Hc at 1; [by left|right; by left].
Qed.

(** [register_signals] on a registry whose classes have their [_meta]:
    it fails, on the unbound local [model_instance], exactly when no
    class is registered while redirects are on and a model is tracked,
    and returns otherwise.  A model is connected to [post_save] (with
    the update callback) and to [pre_delete] (with the delete
    callback) for the instance-metadata model [m] exactly when it is
    among the [seo_models] of a registered class whose backend
    "modelinstance" has the model [m]; and every tracked model is
    connected to [pre_save], when redirects are on, with the callback
    bound to what the last registered class left in [model_instance]. *)
Theorem register_signals_connects registry :
  Forall (λ cls, is_Some (mc_meta cls)) registry.*2 →
  let outcome := (register_signals seo_models SEO_USE_REDIRECTS import_tracked_models
                    registry).1 in
  let calls := (register_signals seo_models SEO_USE_REDIRECTS import_tracked_models
                  registry).2 in
  (outcome = Raise UnboundLocalError ↔
     registry = [] ∧ SEO_USE_REDIRECTS = true ∧ import_tracked_models ≠ []) ∧
  (outcome = Return tt ∨ outcome = Raise UnboundLocalError) ∧
  (∀ m model,
     {| c_signal := post_save; c_receiver := update_callback m; c_sender := model |}
       ∈ calls ↔
     ∃ cls meta, cls ∈ registry.*2 ∧ mc_meta cls = Some meta ∧
       get_model meta "modelinstance" = Some m ∧ model ∈ seo_models meta) ∧
  (∀ m model,
     {| c_signal := pre_delete; c_receiver := delete_callback m; c_sender := model |}
       ∈ calls ↔
     ∃ cls meta, cls ∈ registry.*2 ∧ mc_meta cls = Some meta ∧
       get_model meta "modelinstance" = Some m ∧ model ∈ seo_models meta) ∧
  (∀ bound model,
     {| c_signal := pre_save; c_receiver := redirects_callback bound;
        c_sender := model |} ∈ calls ↔
     SEO_USE_REDIRECTS = true ∧ model ∈ import_tracked_models ∧
     ∃ cls, last registry.*2 = Some cls ∧ bound = bound_model cls).
Proof.
  intros Hall outcome calls. subst outcome calls. unfold register_signals.
  rewrite (connect_classes_spec _ None [] Hall). simpl.
  set (classes := registry.*2) in *.
  set (class_calls := flat_map (class_connections seo_models) classes).
  assert (∀ c, c ∈ class_calls ↔
            ∃ cls, cls ∈ classes ∧ c ∈ class_connections seo_models cls) as Hcalls.
  { intros c. unfold class_calls. rewrite elem_of_flat_map.
    split; intros (cls & ? & ?); by exists cls. }
  assert (∀ m model,
     {| c_signal := post_save; c_receiver := update_callback m; c_sender := model |}
       ∈ class_calls ↔
     ∃ cls meta, cls ∈ classes ∧ mc_meta cls = Some meta ∧
       get_model meta "modelinstance" = Some m ∧ model ∈ seo_models meta) as Hpost.
  { intros m model. rewrite Hcalls. split.
    - intros (cls & Hcls & (meta & m' & Hmeta & Hm & Hs & [Hc|Hc])%class_connections_elem);
        [|done].
      injection Hc as ->. by exists cls, meta.
    - intros (cls & meta & Hcls & Hmeta & Hm & Hs). exists cls. split; [done|].
      apply class_connections_elem. exists meta, m. simpl. by repeat split; [..|left]. }
  assert (∀ m model,
     {| c_signal := pre_delete; c_receiver := delete_callback m; c_sender := model |}
       ∈ class_calls ↔
     ∃ cls meta, cls ∈ classes ∧ mc_meta cls = Some meta ∧
       get_model meta "modelinstance" = Some m ∧ model ∈ seo_models meta) as Hdel.
  { intros m model. rewrite Hcalls. split.
    - intros (cls & Hcls & (meta & m' & Hmeta & Hm & Hs & [Hc|Hc])%class_connections_elem);
        [done|].
      injection Hc as ->. by exists cls, meta.
    - intros (cls & meta & Hcls & Hmeta & Hm & Hs). exists cls. split; [done|].
      apply class_connections_elem. exists meta, m. simpl. by repeat split; [..|right]. }
  assert (∀ bound model,
     {| c_signal := pre_save; c_receiver := redirects_callback bound;
        c_sender := model |} ∉ class_calls) as Hpre.
  { intros bound model (cls & _ & (meta & m & _ & _ & _ & [Hc|Hc])%class_connections_elem)%Hcalls;
      done. }
  assert (registry = [] ↔ last classes = None) as Hempty.
  { rewrite last_None. unfold classes. split; [by intros ->|apply fmap_nil_inv]. }
  destruct SEO_USE_REDIRECTS.
  - destruct (last classes) as [cls|] eqn:Hlast; simpl.
    + rewrite connect_redirects_bound. simpl.
      split; [split; [done|intros (Hr & _); by apply Hempty in Hr]|].
      split; [by left|]. split; [|split].
      * intros m model. rewrite elem_of_app, Hpost. split; [|by left].
        intros [?|(? & ? & _)%list_elem_of_fmap]; done.
      * intros m model. rewrite elem_of_app, Hdel. split; [|by left].
        intros [?|(? & ? & _)%list_elem_of_fmap]; done.
      * intros bound model. rewrite elem_of_app, list_elem_of_fmap. split.
        -- intros [?%Hpre|(model' & [= -> ->] & Hin)]; [done|].
           split; [done|]. split; [done|]. by exists cls.
        -- intros (_ & Hin & cls' & [= <-] & ->). right. by exists model.
    + destruct import_tracked_models as [|tracked_model l]; simpl.
      * split; [split; [done|by intros (_ & _ & ?)]|].
        split; [by left|]. split; [exact Hpost|]. split; [exact Hdel|].
        intros bound model. split; [by intros ?%Hpre|].
        by intros (_ & ?%elem_of_nil & _).
      * split; [split; [intros _; by split; [apply Hempty|]|done]|].
        split; [by right|]. split; [exact Hpost|]. split; [exact Hdel|].
        intros bound model. split; [by intros ?%Hpre|].
        by intros (_ & _ & cls & ? & _).
  - simpl. split; [split; [done|by intros (_ & ? & _)]|].
    split; [by left|]. split; [exact Hpost|]. split; [exact Hdel|].
    intros bound model. split; [by intros ?%Hpre|]. by intros (? & _).
Qed.

End RegisterSignalsFacts.

(** ** The redirects after _handle_redirects_callback *)

Lemma get_or_create_redirect_again r rs rs' :
  get_or_create_redirect r rs = Return rs' →
  get_or_create_redirect r rs' = Return rs' ∧
  (rs' = rs ∨ ((r ∉ rs) ∧ rs' = rs ++ [r])).
Proof.
  unfold get_or_create_redirect.
  destruct (filter (λ r', r' = r) rs) as [|x [|y l]] eqn:Hf; [| |done].
  - intros [= <-]. rewrite filter_app, Hf. simpl.
    rewrite filter_cons_True by done. rewrite filter_nil. simpl.
    split; [done|]. right. split; [|done].
    intros Hin. assert (r ∈ filter (λ r', r' = r) rs) as Hx
      by (by apply list_elem_of_filter).
    rewrite Hf in Hx. by apply not_elem_of_nil in Hx.
  - intros [= <-]. rewrite Hf. split; [done|by left].
Qed.

Lemma redirect_for_change_logged sender instance db line :
  redirect_for_change sender instance (add_log db line) =
  match redirect_for_change sender instance db with
  | Return db' => Return (add_log db' line)
  | Raise e => Raise e
  end.
Proof.
  unfold redirect_for_change.
  destruct (t_url instance); [|done]. simpl.
  destruct (t_id instance); [|done]. simpl.
  destruct (head _); [|done]. simpl. destruct (t_url _); [|done]. simpl.
  case_decide; [|done].
  destruct (current_site db); [|done]. simpl.
  by destruct (get_or_create_redirect _ _).
Qed.

Lemma redirect_for_change_again sender instance db db' :
  redirect_for_change sender instance db = Return db' →
  redirect_for_change sender instance db' = Return db' ∧
  tracked db' = tracked db ∧ metadata db' = metadata db ∧
  current_site db' = current_site db ∧ log db' = log db ∧
  (redirects db' = redirects db ∨
   ∃ r, (r ∉ redirects db) ∧ redirects db' = redirects db ++ [r]).
Proof.
  unfold redirect_for_change.
  destruct (t_url instance) as [after|]; [|done]. simpl.
  destruct (t_id instance) as [instance_id|]; [|done]. simpl.
  destruct (head _) as [stored|] eqn:Hstored; [|done]. simpl.
  destruct (t_url stored) as [before|] eqn:Hbefore; [|done]. simpl.
  destruct (decide (before ≠ after)) as [Hne|Hne].
  - destruct (current_site db) as [site_id|] eqn:Hsite; [|done]. simpl.
    destruct (get_or_create_redirect _ _) as [rs'|] eqn:Hget; [|done].
    intros [= <-]. simpl. rewrite Hstored. simpl. rewrite Hbefore. simpl.
    rewrite decide_True by done. rewrite Hsite. simpl.
    destruct (get_or_create_redirect_again _ _ _ Hget) as [-> Hrs]. simpl.
    split; [done|]. repeat split. destruct Hrs as [->|[Hn ->]]; [by left|].
    right. by eexists.
  - intros [= <-]. rewrite Hstored. simpl. rewrite Hbefore. simpl.
    rewrite decide_False by done. repeat split. by left.
Qed.

(** [_handle_redirects_callback] leaves the stored objects, the
    metadata tables and the current site as they are, whether the
    import of [Redirect] succeeds or not; the redirects only grow, by
    at most one, and stay free of duplicates when they were; and a
    second call for the same instance leaves the redirects as the
    first call made them. *)
Theorem handle_redirects_callback_adds_at_most_one import_Redirect sender instance db :
  let db' := (_handle_redirects_callback import_Redirect sender instance db).2 in
  let db'' := (_handle_redirects_callback import_Redirect sender instance db').2 in
  tracked db' = tracked db ∧ metadata db' = metadata db ∧
  current_site db' = current_site db ∧
  redirects db `prefix_of` redirects db' ∧
  length (redirects db') ≤ S (length (redirects db)) ∧
  (NoDup (redirects db) → NoDup (redirects db')) ∧
  redirects db'' = redirects db'.
Proof.
  unfold _handle_redirects_callback.
  destruct import_Redirect as [[]|e]; simpl.
  2:{ repeat split; try done. lia. }
  destruct (pk_truthy (t_pk instance)); simpl.
  2:{ repeat split; try done. lia. }
  destruct (redirect_for_change sender instance db) as [db1|e] eqn:Hfirst; simpl.
  - destruct (redirect_for_change_again _ _ _ _ Hfirst)
      as (Hagain & Htr & Hmd & Hsite & _ & Hrs).
    rewrite Hagain. simpl. split; [done|]. split; [done|]. split; [done|].
    destruct Hrs as [->|(r & Hr & ->)].
    + repeat split; try done. lia.
    + split; [by eexists|]. split; [rewrite length_app; simpl; lia|].
      split; [|done]. intros Hnd. apply NoDup_app. split; [done|].
      split; [|apply NoDup_singleton].
      intros x Hx ->%list_elem_of_singleton. done.
  - rewrite redirect_for_change_logged, Hfirst. simpl.
    repeat split; try done. lia.
Qed.

(** ** Groups *)

Section GroupFacts.
Context {I : Type}.
Variable inst_resolve : I → string → pyval.
Variable strip : string → string.
Implicit Types (fm : FormattedMetadata I) (c : gmap string pyval).

(** The text of a group member: the rendering of its bound field. *)
Local Abbreviation member_text els := (λ (f : string) (v : pyval),
  from_option (λ e, make_safe (BoundMetadataField__init__ e v)) "" (assoc f els)).



End GroupFacts.

(** ** Looking up an object after it was saved *)

Section SavedThenLinked.
Variable md5_hex : string → string.
Variable iri_to_uri : string → string.

Lemma init_returns {I} metadata (instances : iterable I) path site language subdomain :
  (use_cache (_meta metadata) = true → use_i18n (_meta metadata) = true →
   is_Some language) →
  ∃ fm, FormattedMetadata__init__ md5_hex iri_to_uri metadata instances path site
          language subdomain = Return fm ∧
        instances_original fm = instances.
Proof.
  intros Hlang. unfold FormattedMetadata__init__, prefix_bits.
  destruct (use_cache (_meta metadata)) eqn:Hc; [|by eexists].
  destruct (use_i18n (_meta metadata)) eqn:Hi.
  - destruct (Hlang eq_refl eq_refl) as [l ->].
    destruct subdomain as [sd|], (use_subdomains (_meta metadata)); by eexists.
  - destruct subdomain as [sd|], (use_subdomains (_meta metadata)); by eexists.
Qed.

Lemma same_but_table_other model_class db db' m :
  same_but_table model_class db db' → m ≠ model_class → table db' m = table db m.
Proof. intros (_ & _ & _ & _ & Hm) Hne. unfold table. by rewrite Hm. Qed.

(** After the update callback has run for a saved instance on a
    healthy database, [get_linked_metadata] for that instance finds
    the stored row of the instance, whose path is the instance's URL,
    and puts it first, instead of a fresh unsaved one. *)
Theorem linked_metadata_after_update_callback
    registry name cls meta m sender created instance db path site language subdomain :
  _get_metadata_model registry name = Return cls →
  mc_meta cls = Some meta →
  get_model meta "modelinstance" = Some m →
  (∀ m', get_model meta "model" = Some m' →
     m' ≠ m ∧
     length (filter (λ r, _content_type r = Some (t_model instance)) (table db m')) ≤ 1) →
  (use_cache meta = true → use_i18n meta = true → is_Some language) →
  healthy db m → instance ∈ tracked db →
  t_handled instance = false → t_url instance = Return path →
  ∃ db' fm r rest,
    _update_callback m sender instance created db = Return db' ∧
    get_linked_metadata md5_hex iri_to_uri registry instance name site language
      subdomain db' = Return fm ∧
    instances_original fm = PyList (r :: rest) ∧
    r ∈ table db' m ∧ is_Some (row_id r) ∧
    linked_to (t_model instance) (t_pk instance) r ∧ _path r = path.
Proof.
  intros Hcls Hmeta Hm Hmodel Hlang Hh Hin Hhandled Hurl.
  destruct (create_metadata_instance_healthy m instance db Hh Hin)
    as (db' & Hcreate & Hh' & Htr & _ & Hnew).
  { intros e. by rewrite Hurl. }
  destruct (create_metadata_instance_same_but_table _ _ _ _ Hcreate) as [Hsame _].
  destruct (Hnew Hhandled path Hurl) as (r & Hr & Hl & Hp).
  destruct Hh' as (_ & _ & [_ Hsome] & _ & Hone).
  pose proof (filter_singleton_elem _ _ r (Hone _ _) Hr Hl) as Hf.
  assert (∃ rest, linked_instances meta instance db' = Return (r :: rest))
    as [rest Hlinked].
  { unfold linked_instances. rewrite Hm, Hf. simpl.
    destruct (get_model meta "model") as [m'|] eqn:Hm'; simpl; [|by eexists].
    destruct (Hmodel m' eq_refl) as [Hne Hlen].
    rewrite (same_but_table_other _ _ _ _ Hsame Hne).
    rewrite get_or_fresh_at_most_one by done. simpl. by eexists. }
  destruct (init_returns {| class_name := "MetadataBase"; _meta := meta |}
              (PyList (r :: rest)) "" site language subdomain Hlang)
    as (fm & Hinit & Horig).
  exists db', fm, r, rest. split; [exact Hcreate|]. split.
  - unfold get_linked_metadata. rewrite Hcls. simpl.
    unfold meta_of. rewrite Hmeta. simpl. rewrite Hlinked. simpl. exact Hinit.
  - split; [exact Horig|]. split; [exact Hr|]. split; [|by split].
    rewrite Forall_forall in Hsome. by apply Hsome.
Qed.

End SavedThenLinked.

(** ** Loops over a list of instances *)

Lemma concat_replicate_comm {A} (k : nat) (l : list A) :
  concat (replicate k l) ++ l = l ++ concat (replicate k l).
Proof.
  induction k as [|k IH]; simpl; [by rewrite app_nil_r|].
  by rewrite <- (assoc_L (++)), IH.
Qed.

Section ListFacts.
Context {I : Type}.
Implicit Types (fm : FormattedMetadata I) (items : list I).

Lemma instances_runs_list items n k fm :
  instances_original fm = PyList items →
  instances_cache fm = concat (replicate k items) →
  (instances_runs (replicate n never_stop) fm).1.1
    = (λ j, concat (replicate j items)) <$> seq (S k) n ∧
  (instances_runs (replicate n never_stop) fm).1.2 = concat (replicate n items) ∧
  instances_cache (instances_runs (replicate n never_stop) fm).2
    = concat (replicate (k + n) items) ∧
  instances_original (instances_runs (replicate n never_stop) fm).2 = PyList items.
Proof.
  revert k fm. induction n as [|n IH]; intros k fm Ho Hc.
  { simpl. by rewrite Nat.add_0_r. }
  simpl. unfold instances_run. rewrite take_until_never by done.
  rewrite Ho. rewrite take_until_never by done.
  set (fm1 := {| fm_metadata := fm_metadata fm; cache_prefix := cache_prefix fm;
                 instances_original := PyList items;
                 instances_cache := instances_cache fm ++ items |}).
  assert (instances_cache fm ++ items = concat (replicate (S k) items)) as Hc1.
  { rewrite Hc. simpl. apply concat_replicate_comm. }
  destruct (IH (S k) fm1 eq_refl Hc1) as (Hy & Hd & Hcache & Horig).
  destruct (instances_runs (replicate n never_stop) fm1) as [[yields drawn] fm2].
  simpl in *. rewrite Hy, Hd, Hcache, Horig, Hc1.
  repeat split. by replace (k + S n) with (S (k + n)) by lia.
Qed.

(** Over a list of instances, as [get_linked_metadata] passes it, the
    loops that run to their end do not settle: the loop number [j]
    yields [j] copies of the list, and after [n] loops the instance
    cache holds [n] copies of it. *)
Theorem list_instances_repeat_with_every_loop items n fm :
  instances_original fm = PyList items →
  instances_cache fm = [] →
  (instances_runs (replicate n never_stop) fm).1.1
    = (λ j, concat (replicate j items)) <$> seq 1 n ∧
  instances_cache (instances_runs (replicate n never_stop) fm).2
    = concat (replicate n items).
Proof.
  intros Ho Hc.
  destruct (instances_runs_list items n 0 fm Ho Hc) as (Hy & _ & Hcache & _).
  by split.
Qed.

End ListFacts.

(** ** The statements on concrete inputs *)

(** With only the first two instances, the description falls back on
    the title, which the second instance has. *)
Example description_falls_back_on_title :
  (_resolve_value demo_resolve 5 "description" (demo_formatted (PyList [0; 1]))).1
  = Return (PStr "Second title").
Proof. reflexivity. Qed.

(** A cycle of [populate_from] names ends in a [RecursionError]. *)
Example populate_from_cycle_exhausts_stack :
  let loop_meta :=
    {| class_name := "Loop";
       _meta := set_elements (demo_options false false false false)
                  [("a", plain_field 1 (PFName "b")); ("b", plain_field 2 (PFName "a"))] |} in
  (_resolve_value demo_resolve 50 "a"
     {| fm_metadata := loop_meta; cache_prefix := None;
        instances_original := Generator [0]; instances_cache := [] |}).1
  = Raise RecursionError.
Proof. reflexivity. Qed.

Lemma resolve_value_first_nonempty_witness :
  consistent [0; 1; 2] (demo_formatted (Generator [0; 1; 2])) ∧
  ∃ d0, ∀ depth, d0 ≤ depth →
    (_resolve_value demo_resolve depth "description"
       (demo_formatted (Generator [0; 1; 2]))).1
    = Return (PStr "Third description").
Proof.
  split; [reflexivity|].
  apply (resolve_value_first_nonempty demo_resolve [0; 1; 2]
           (demo_formatted (Generator [0; 1; 2])) "description"
           (PStr "Third description")); [reflexivity|].
  apply (resolves_instance demo_resolve [0; 1; 2] demo_elements
           "description" [0; 1] 2 []); [reflexivity| |reflexivity].
  repeat constructor.
Defined.

Lemma getattr_element_read_through_witness :
  let c : gmap string pyval := {["djangoseo.Demo.abc.title" := PStr "cached"]} in
  cache_prefix demo_cached = Some "djangoseo.Demo.abc" ∧
  "djangoseo.Demo.abc" ≠ "" ∧
  assoc "title" (groups (_meta (fm_metadata demo_cached))) = None ∧
  assoc "title" (elements (_meta (fm_metadata demo_cached))) =
    Some (plain_field 1 PFNotSet) ∧
  FormattedMetadata__getattr__ demo_resolve plain_text 5 "title" demo_cached c =
    (Return (Bound (BoundMetadataField__init__ (plain_field 1 PFNotSet) (PStr "cached"))),
     demo_cached, c).
Proof.
  intros c.
  assert ("djangoseo.Demo.abc" ≠ "") as Hne by discriminate.
  split; [reflexivity|]. split; [exact Hne|].
  split; [reflexivity|]. split; [reflexivity|].
  destruct (getattr_element_read_through plain_text demo_resolve demo_resolve
              5 "title" demo_cached c "djangoseo.Demo.abc" (plain_field 1 PFNotSet)
              eq_refl Hne eq_refl eq_refl) as [Hhit _].
  apply Hhit. discriminate.
Defined.

Lemma cache_prefix_layout_and_separation_witness :
  let m := demo_metadata true false true false in
  ∃ fm1 fm2 : FormattedMetadata nat,
    use_cache (_meta m) = true ∧
    FormattedMetadata__init__ plain_text plain_text m (Generator [])
      "/p" None (Some "en") None = Return fm1 ∧
    FormattedMetadata__init__ plain_text plain_text m (Generator [])
      "/p" None (Some "fr") None = Return fm2 ∧
    cache_prefix fm1 = Some "djangoseo.Demo./p.en" ∧
    cache_prefix fm1 ≠ cache_prefix fm2 ∧
    cache_key_of fm1 "title" ≠ cache_key_of fm2 "title".
Proof.
  intros m. eexists _, _.
  split; [reflexivity|]. split; [reflexivity|]. split; [reflexivity|].
  destruct (cache_prefix_layout_and_separation (I:=nat) plain_text plain_text m
              (Generator []) (Generator []) "/p" "/p" None None
              (Some "en") (Some "fr") None None _ _ "title"
              eq_refl eq_refl eq_refl) as (Hlayout & _ & Hlang & _).
  split; [exact Hlayout|].
  apply Hlang; [reflexivity..|discriminate].
Defined.

(** C3, as stated, fails: with use_sites the site domain and the path
    are concatenated before hashing, so the sites "a" and "ab" share
    their prefix for the paths "bc" and "c", whatever the digest; with
    use_i18n and use_subdomains the language "en" with subdomain "x"
    and the language "en.x" without subdomain share theirs; and with
    use_subdomains the key under which the lookup without subdomain
    caches the attribute "title" is the key under which the lookup
    with the subdomain "title" caches [str()]. *)
Lemma cache_key_shared_by_distinct_lookups :
  (domain {| domain := "a" |} ≠ domain {| domain := "ab" |} ∧
   ∀ md5 iri, ∃ fm : FormattedMetadata nat,
     FormattedMetadata__init__ md5 iri (demo_metadata true true false false)
       (Generator []) "bc" (Some {| domain := "a" |}) None None = Return fm ∧
     FormattedMetadata__init__ md5 iri (demo_metadata true true false false)
       (Generator []) "c" (Some {| domain := "ab" |}) None None = Return fm ∧
     is_Some (cache_key_of fm "title")) ∧
  (∀ md5 iri, ∃ fm : FormattedMetadata nat,
     FormattedMetadata__init__ md5 iri (demo_metadata true false true true)
       (Generator []) "/p" None (Some "en") (Some "x") = Return fm ∧
     FormattedMetadata__init__ md5 iri (demo_metadata true false true true)
       (Generator []) "/p" None (Some "en.x") None = Return fm ∧
     is_Some (cache_key_of fm "title")) ∧
  (∀ md5 iri, ∃ fm1 fm2 : FormattedMetadata nat,
     FormattedMetadata__init__ md5 iri (demo_metadata true false false true)
       (Generator []) "/p" None None None = Return fm1 ∧
     FormattedMetadata__init__ md5 iri (demo_metadata true false false true)
       (Generator []) "/p" None None (Some "title") = Return fm2 ∧
     is_Some (cache_key_of fm1 "title") ∧
     cache_key_of fm1 "title" = cache_prefix fm2).
Proof.
  split; [split; [discriminate|]|split].
  - intros md5 iri. eexists. split; [reflexivity|]. split; [reflexivity|].
    erewrite cache_key_enabled; [by eexists|reflexivity|].
    exact (init_prefix_nonempty (I:=nat) md5 iri (demo_metadata true true false false)
             (Generator []) "bc" (Some {| domain := "a" |}) None None _ _
             eq_refl eq_refl).
  - intros md5 iri. eexists. split; [reflexivity|]. split; [reflexivity|].
    erewrite cache_key_enabled; [by eexists|reflexivity|].
    exact (init_prefix_nonempty (I:=nat) md5 iri (demo_metadata true false true true)
             (Generator []) "/p" None (Some "en") (Some "x") _ _ eq_refl eq_refl).
  - intros md5 iri. eexists _, _. split; [reflexivity|]. split; [reflexivity|].
    erewrite cache_key_enabled; [|reflexivity|].
    + by split; [eexists|].
    + exact (init_prefix_nonempty (I:=nat) md5 iri
               (demo_metadata true false false true) (Generator []) "/p" None None
               None _ _ eq_refl eq_refl).
Qed.

Lemma handle_redirects_callback_on_change_witness :
  pk_truthy (t_pk (changed_page 7)) = true ∧
  t_id (changed_page 7) = Return (Some 7%Z) ∧
  redirects (_handle_redirects_callback (Return tt) 1 (changed_page 7)
               (demo_db 7 (Return 1))).2
  = [{| old_path := "/old"; new_path := "/new"; redirect_site := 1;
        all_subdomains := true |}].
Proof.
  split; [reflexivity|]. split; [reflexivity|].
  destruct (handle_redirects_callback_on_change 1 (changed_page 7)
              (demo_db 7 (Return 1)) (Some 7%Z) (stored_page 7) "/old" "/new" 1
              eq_refl eq_refl eq_refl eq_refl eq_refl eq_refl) as [Hdiff _].
  assert ("/old" ≠ "/new") as Hne by discriminate.
  destruct (Hdiff Hne) as (_ & Hnew & _).
  apply Hnew. apply not_elem_of_nil.
Defined.

(** C4, as stated, fails: an instance whose primary key is 0 has a
    primary key, and its URL changed, yet the callback returns at
    [if not instance.pk] and creates nothing; when the current site
    cannot be obtained the exception is swallowed and no redirect is
    created although the URLs differ; and for a model whose primary
    key is not the field [id], [instance.id] raises inside the [try],
    which is logged, and no redirect is created either. *)
Lemma no_redirect_for_zero_pk_or_missing_site :
  (t_pk (changed_page 0) = Some 0%Z ∧
   t_url (stored_page 0) = Return "/old" ∧ t_url (changed_page 0) = Return "/new" ∧
   _handle_redirects_callback (Return tt) 1 (changed_page 0) (demo_db 0 (Return 1))
   = (Return tt, demo_db 0 (Return 1))) ∧
  redirects (_handle_redirects_callback (Return tt) 1 (changed_page 7)
               (demo_db 7 (Raise (OtherError "ImproperlyConfigured")))).2 = [] ∧
  (t_pk (slug_page "/new") = Some 7%Z ∧ t_pk (slug_page "/old") = Some 7%Z ∧
   _handle_redirects_callback (Return tt) 1 (slug_page "/new") slug_db
   = (Return tt, add_log slug_db "Failed to create new redirect")).
Proof. repeat split. Qed.


Lemma get_linked_metadata_falls_back_witness :
  ∃ fm, get_linked_metadata plain_text plain_text [("Demo", demo_class true false)]
          (stored_page 5) None None None None (demo_db 5 (Return 1)) = Return fm ∧
        instances_original fm =
          PyList [fresh_instance_md (stored_page 5); fresh_model_md 1].
Proof.
  destruct (get_linked_metadata_falls_back plain_text plain_text
              [("Demo", demo_class true false)] (stored_page 5) None None None None
              (demo_db 5 (Return 1))) as [_ Hret].
  destruct (Hret (demo_class true false) (demo_options true false false false)
              eq_refl eq_refl) as (fm & Hfm & Hinst & _).
  - intros m _. apply Nat.le_0_l.
  - intros m _. apply Nat.le_0_l.
  - discriminate.
  - exists fm. split; [exact Hfm|exact Hinst].
Defined.

(** C7, as stated, fails: the function does not always return.  With
    caching and use_i18n on, the default language None makes the join
    of the prefix bits raise a TypeError after both missing rows were
    replaced by fresh objects; and a name that is not registered
    raises (line 264). *)
Lemma get_linked_metadata_can_raise :
  get_linked_metadata plain_text plain_text [("Demo", demo_class true true)]
    (stored_page 5) None None None None (demo_db 5 (Return 1))
  = Raise TypeError ∧
  linked_instances (demo_options true false true false) (stored_page 5)
    (demo_db 5 (Return 1))
  = Return [fresh_instance_md (stored_page 5); fresh_model_md 1] ∧
  get_linked_metadata plain_text plain_text [("Demo", demo_class false false)]
    (stored_page 5) (Some "Missing") None None None (demo_db 5 (Return 1))
  = Raise (NoSuchMetadata "Missing").
Proof. repeat split. Qed.


(** The elements of the example come out as title, description: the
    order of their counters, not of the class body. *)
Example demo_elements_sorted :
  (sort_by_counter (collect_fields demo_attrs)).*1 = ["title"; "description"].
Proof. reflexivity. Qed.

(** C9 does not hold for the object [get_linked_metadata] builds: its
    instances are a list, which every loop walks again from its start
    after the cache; the second loop yields each instance twice, and
    both are drawn a second time. *)
Theorem linked_metadata_instances_repeat :
  let a := fresh_instance_md (stored_page 5) in
  let m := fresh_model_md 1 in
  ∃ fm, get_linked_metadata plain_text plain_text [("Demo", demo_class false false)]
          (stored_page 5) None None None None (demo_db 5 (Return 1)) = Return fm ∧
        (instances_runs [never_stop; never_stop] fm).1 =
          ([[a; m]; [a; m; a; m]], [a; m; a; m]).
Proof. intros a m. eexists. split; reflexivity. Qed.

(** C5 does not hold when a row at the instance's path belongs to an
    object that is no longer stored: the function returns from inside
    the loop, and the instance is left without a metadata row, also
    after [populate_metadata]. *)
Theorem orphan_row_leaves_instance_without_metadata :
  t_handled (changed_page 5) = false ∧
  t_url (changed_page 5) = Return "/new" ∧
  create_metadata_instance "DemoModelInstance" (changed_page 5) orphan_db
  = Return orphan_db ∧
  populate_metadata 1 "DemoModelInstance" orphan_db = Return orphan_db ∧
  filter (linked_to 1 (Some 5%Z)) (table orphan_db "DemoModelInstance") = [].
Proof. repeat split. Qed.

Lemma generator_instances_drawn_once_witness :
  let fm := demo_formatted (Generator [0; 1; 2]) in
  instances_original fm = Generator [0; 1; 2] ∧
  instances_cache fm = [] ∧
  (instances_runs [stop_at 1; never_stop; stop_at 0] fm).1 =
    ([[0; 1]; [0; 1; 2]; [0]], [0; 1; 2]) ∧
  Forall (λ ys, ys `prefix_of` [0; 1; 2]) [[0; 1]; [0; 1; 2]; [0]].
Proof.
  intros fm. split; [reflexivity|]. split; [reflexivity|]. split; [reflexivity|].
  destruct (instances_runs [stop_at 1; never_stop; stop_at 0] fm)
    as [[yields drawn] fm'] eqn:Hruns.
  destruct (generator_instances_drawn_once [stop_at 1; never_stop; stop_at 0]
              fm [0; 1; 2] yields drawn fm' eq_refl eq_refl Hruns) as [Hall _].
  vm_compute in Hruns. injection Hruns as <- _ _. exact Hall.
Defined.

(** The stale row is re-pointed to "/moved" and the instance gets a
    row of its own at "/new". *)
Example create_metadata_instance_on_clash :
  match create_metadata_instance "DemoModelInstance" (changed_page 5) clash_db with
  | Return db' => table db' "DemoModelInstance"
  | Raise _ => []
  end
  = [set_path stale_row "/moved";
     {| row_id := Some 2; _content_type := Some 1; _object_id := Some 5%Z;
        _path := "/new" |}].
Proof. reflexivity. Qed.

(** The path of a row comes from the stored object: for an instance
    with the URL "/new" whose stored object still has "/old", the row
    that is created is at "/old"; an instance that is not stored gets
    a row at its own URL; and an instance without primary key gets no
    row, the table refuses it. *)
Example create_metadata_instance_takes_the_stored_url :
  (∃ db', create_metadata_instance "DemoModelInstance" (changed_page 5)
            (demo_db 5 (Return 1)) = Return db' ∧
          table db' "DemoModelInstance" =
            [{| row_id := Some 1; _content_type := Some 1; _object_id := Some 5%Z;
                _path := "/old" |}]) ∧
  (∃ db', create_metadata_instance "DemoModelInstance" (changed_page 6)
            (demo_db 5 (Return 1)) = Return db' ∧
          table db' "DemoModelInstance" =
            [{| row_id := Some 1; _content_type := Some 1; _object_id := Some 6%Z;
                _path := "/new" |}]) ∧
  create_metadata_instance "DemoModelInstance" unsaved_page (demo_db 5 (Return 1))
  = Raise IntegrityError.
Proof. split; [|split]; [by eexists| by eexists|done]. Qed.

Lemma create_metadata_instance_links_witness :
  t_pk (changed_page 5) = Some 5%Z ∧
  head (filter (λ t, t_model t = 1 ∧ t_pk t = Some 5%Z) (tracked clash_db))
    = Some (changed_page 5) ∧
  t_handled (changed_page 5) = false ∧
  t_url (changed_page 5) = Return "/new" ∧
  rows_wf (table clash_db "DemoModelInstance") ∧
  ∃ db', create_metadata_instance "DemoModelInstance" (changed_page 5) clash_db
         = Return db' ∧
         ∃ r, r ∈ table db' "DemoModelInstance" ∧
              linked_to 1 (Some 5%Z) r ∧ _path r = "/new".
Proof.
  assert (rows_wf (table clash_db "DemoModelInstance")) as Hwf.
  { split; [apply NoDup_singleton|]. repeat constructor. by eexists. }
  split; [reflexivity|]. split; [reflexivity|].
  split; [reflexivity|]. split; [reflexivity|]. split; [exact Hwf|].
  destruct (create_metadata_instance_links "DemoModelInstance" (changed_page 5)
              clash_db "/new" 5%Z (changed_page 5) eq_refl eq_refl eq_refl
              eq_refl eq_refl Hwf) as (db' & Hdb' & Hrow & _).
  - intros r Hr _ _. apply list_elem_of_singleton in Hr as ->. by eexists.
  - apply Nat.le_0_l.
  - exists db'. split; [exact Hdb'|exact Hrow].
Defined.

Lemma created_class_groups_and_elements_apart_witness :
  ∃ cls registry' o,
    MetadataBase__new__ demo_Options__init__ [("path", demo_backend "path")]
      ["id"; "pk"] [] "Demo" false demo_attrs = Return (cls, registry') ∧
    mc_meta cls = Some o ∧
    assoc "description" (groups o) = None.
Proof.
  eexists _, _.
  destruct (created_class_groups_and_elements_apart demo_Options__init__
              [("path", demo_backend "path")] ["id"; "pk"] [] "Demo" demo_attrs
              _ _ eq_refl) as (o & Ho & _ & Hel).
  exists o. split; [reflexivity|]. split; [exact Ho|].
  apply Hel. injection Ho as <-. by eexists.
Defined.

Lemma fresh_object_resolves_by_the_chain_witness :
  ∃ fm, FormattedMetadata__init__ plain_text plain_text
          (demo_metadata false false false false) (PyList [0; 1; 2]) "/p"
          None None None = Return fm ∧
        (resolve_all demo_resolve [(5, "title"); (5, "keywords")] fm).1 =
          [Return (PStr "Second title"); Return (PStr "seo")] ∧
        resolves demo_resolve [0; 1; 2] demo_elements "keywords" (PStr "seo").
Proof.
  eexists. split; [reflexivity|]. split; [reflexivity|].
  pose proof (fresh_object_resolves_by_the_chain demo_resolve plain_text plain_text
                (demo_metadata false false false false) (PyList [0; 1; 2]) "/p"
                None None None _ [(5, "keywords")] eq_refl) as Hall.
  apply Forall2_cons_1 in Hall as [Hkeywords _].
  exact (Hkeywords (PStr "seo") eq_refl).
Defined.

(** The title cached by a first lookup of "/p" is what a second lookup
    of "/p" gets, although the backends then have nothing for it. *)
Lemma get_metadata_serves_cached_attributes_witness :
  let registry := [("Demo", demo_class true false)] in
  let c' : gmap string pyval := {["djangoseo.Demo./p.title" := PStr "/new"]} in
  get_metadata plain_text plain_text registry [stale_row] "/p" None None None None
    = Return (demo_page (Generator [stale_row]) []) ∧
  get_metadata plain_text plain_text registry [] "/p" None None None None
    = Return (demo_page (Generator []) []) ∧
  FormattedMetadata__getattr__ row_title plain_text 5 "title"
    (demo_page (Generator [stale_row]) []) ∅
    = (Return (bound_title (PStr "/new")), demo_page (Generator []) [stale_row], c') ∧
  FormattedMetadata__getattr__ row_title plain_text 5 "title"
    (demo_page (Generator []) []) c'
    = (Return (bound_title (PStr "/new")), demo_page (Generator []) [], c').
Proof.
  intros registry c'.
  split; [reflexivity|]. split; [reflexivity|]. split; [reflexivity|].
  exact (proj1 (get_metadata_serves_cached_attributes plain_text plain_text plain_text
                  row_title row_title registry [stale_row] [] "/p" None None None None
                  (demo_page (Generator [stale_row]) []) (demo_page (Generator []) [])
                  "djangoseo.Demo./p" 5 5 "title" ∅ c' (bound_title (PStr "/new"))
                  (demo_page (Generator []) [stale_row]) c'
                  eq_refl eq_refl eq_refl eq_refl eq_refl)).
Defined.

(** The title of the moved page, once cached, is served as the title
    of another page, which has no metadata row of its own. *)
Lemma linked_metadata_cache_is_shared_between_objects_witness :
  let registry := [("Demo", demo_class true false)] in
  let c' : gmap string pyval := {["djangoseo.MetadataBase..title" := PStr "/new"]} in
  let fm1 := demo_linked (PyList [stale_row; fresh_model_md 1]) [] in
  let fm2 := demo_linked (PyList [fresh_instance_md (changed_page 5); fresh_model_md 1]) [] in
  get_linked_metadata plain_text plain_text registry moved_page None None None None
    clash_db = Return fm1 ∧
  get_linked_metadata plain_text plain_text registry (changed_page 5) None None None None
    clash_db = Return fm2 ∧
  FormattedMetadata__getattr__ row_title plain_text 5 "title" fm1 ∅
    = (Return (bound_title (PStr "/new")),
       demo_linked (PyList [stale_row; fresh_model_md 1]) [stale_row], c') ∧
  FormattedMetadata__getattr__ row_title plain_text 5 "title" fm2 c'
    = (Return (bound_title (PStr "/new")), fm2, c') ∧
  (FormattedMetadata__getattr__ row_title plain_text 5 "title" fm2 ∅).1.1
    = Return (bound_title PNone).
Proof.
  intros registry c' fm1 fm2.
  split; [reflexivity|]. split; [reflexivity|]. split; [reflexivity|].
  split; [|reflexivity].
  exact (proj2 (linked_metadata_cache_is_shared_between_objects plain_text plain_text
                  plain_text row_title row_title registry moved_page (changed_page 5)
                  clash_db clash_db None None None None fm1 fm2 eq_refl eq_refl)
           "djangoseo.MetadataBase." 5 5 "title" ∅ c' (bound_title (PStr "/new"))
           (demo_linked (PyList [stale_row; fresh_model_md 1]) [stale_row]) c'
           eq_refl eq_refl eq_refl).
Defined.

(** Rendering the demo object fills the cache; the second rendering
    comes from the cache and leaves the object as it is. *)
Lemma str_is_served_from_cache_witness :
  let fm' : FormattedMetadata nat :=
    {| fm_metadata := demo_metadata true false false false;
       cache_prefix := Some "djangoseo.Demo.abc";
       instances_original := Generator []; instances_cache := [0; 1; 2] |} in
  let c' : gmap string pyval :=
    <["djangoseo.Demo.abc" := PStr demo_head_text]>
      (<["djangoseo.Demo.abc.description" := PStr "Third description"]>
         (<["djangoseo.Demo.abc.title" := PStr "Second title"]> ∅)) in
  FormattedMetadata__str__ demo_resolve plain_text demo_is_head demo_own_attribute
    5 demo_cached ∅ = (Return demo_head_text, fm', c') ∧
  cache_get c' "djangoseo.Demo.abc" = PStr demo_head_text ∧
  cache_get c' "djangoseo.Demo.abc.title" ≠ PNone ∧
  FormattedMetadata__str__ demo_resolve plain_text demo_is_head demo_own_attribute
    5 demo_cached c' = (Return demo_head_text, demo_cached, c').
Proof.
  intros fm' c'.
  assert ("djangoseo.Demo.abc" ≠ "") as Hne by discriminate.
  assert (FormattedMetadata__str__ demo_resolve plain_text demo_is_head
            demo_own_attribute 5 demo_cached ∅ = (Return demo_head_text, fm', c'))
    as Hstr by reflexivity.
  destruct (str_is_served_from_cache plain_text demo_is_head demo_own_attribute
              demo_resolve demo_resolve 5 demo_cached ∅ "djangoseo.Demo.abc"
              demo_head_text fm' c' eq_refl Hne Hstr)
    as (Htext & Hfields & Hagain).
  split; [exact Hstr|]. split; [exact Htext|]. split.
  - apply (Hfields eq_refl "title" (plain_field 1 PFNotSet)); [|reflexivity..].
    by left.
  - by apply Hagain.
Defined.

(** Without caching, rendering the demo object and reading its title
    leave a cache that holds an entry as it is. *)
Lemma uncached_metadata_never_uses_the_cache_witness :
  let c : gmap string pyval := {["djangoseo.Demo.abc.title" := PStr "cached"]} in
  ∃ fm,
    FormattedMetadata__init__ plain_text plain_text (demo_metadata false false false false)
      (Generator [0; 1; 2]) "/p" None None None = Return fm ∧
    (access_all demo_resolve plain_text demo_is_head demo_own_attribute
       [(5, Render); (5, ReadAttribute "title")] fm c).2 = c.
Proof.
  intros c.
  destruct (uncached_metadata_never_uses_the_cache plain_text demo_is_head
              demo_own_attribute demo_resolve plain_text plain_text
              (demo_metadata false false false false) (Generator [0; 1; 2])
              "/p" None None None eq_refl) as (fm & Hinit & Hall).
  exists fm. split; [exact Hinit|].
  by destruct (Hall [(5, Render); (5, ReadAttribute "title")] c ∅) as [_ Hc].
Defined.

(** The demo object renders the title of the second instance and the
    description of the third. *)
Lemma str_joins_the_resolved_head_elements_witness :
  let fm' : FormattedMetadata nat :=
    {| fm_metadata := demo_metadata false false false false; cache_prefix := None;
       instances_original := Generator []; instances_cache := [0; 1; 2] |} in
  FormattedMetadata__str__ demo_resolve plain_text demo_is_head demo_own_attribute
    5 (demo_formatted (Generator [0; 1; 2])) ∅ = (Return demo_head_text, fm', ∅) ∧
  ∃ vs,
    Forall2 (λ fe v, resolves demo_resolve [0; 1; 2] demo_elements fe.1 v)
      (filter (λ fe : string * MetadataField, demo_is_head fe.2) demo_elements) vs ∧
    demo_head_text = String.concat newline
          (zip_with (λ fe v, make_safe (BoundMetadataField__init__ fe.2 v))
             (filter (λ fe : string * MetadataField, demo_is_head fe.2) demo_elements)
             vs).
Proof.
  intros fm'.
  assert (FormattedMetadata__str__ demo_resolve plain_text demo_is_head
            demo_own_attribute 5 (demo_formatted (Generator [0; 1; 2])) ∅
          = (Return demo_head_text, fm', ∅)) as Hstr by reflexivity.
  split; [exact Hstr|].
  apply (str_joins_the_resolved_head_elements demo_resolve plain_text demo_is_head
           demo_own_attribute [0; 1; 2] 5 (demo_formatted (Generator [0; 1; 2])) ∅
           demo_head_text fm' ∅).
  - reflexivity.
  - apply (bool_decide_unpack _). vm_compute. exact I.
  - intros f e Hin _.
    repeat (apply elem_of_cons in Hin as [[= -> ->]|Hin]; [by split|]).
    by apply elem_of_nil in Hin.
  - intros p [=].
  - exact Hstr.
Defined.

(** A second class, "Demo", is registered after "Other": it is found
    under its name, and the lookup without a name now fails. *)
Lemma created_class_is_found_by_name_witness :
  ∃ cls registry',
    MetadataBase__new__ demo_Options__init__ [("path", demo_backend "path")]
      ["id"; "pk"] [("Other", demo_class false false)] "Demo" false demo_attrs
      = Return (cls, registry') ∧
    _get_metadata_model registry' (Some "Demo") = Return cls ∧
    registry'.*1 = ["Other"; "Demo"] ∧
    ∃ msg, _get_metadata_model registry' None = Raise (AssertionError msg).
Proof.
  eexists _, _.
  destruct (created_class_is_found_by_name demo_Options__init__
              [("path", demo_backend "path")] ["id"; "pk"]
              [("Other", demo_class false false)] "Demo" demo_attrs _ _ eq_refl)
    as (Hfound & _ & Hkeys & _ & Hnone).
  split; [reflexivity|]. split; [exact Hfound|]. split; [exact Hkeys|].
  apply Hnone. by intros [[=]|[=]].
Defined.

(** The database with the stale row is healthy: the row belongs to
    the moved page, which is stored and has a URL. *)
Lemma clash_db_healthy : healthy clash_db "DemoModelInstance".
Proof.
  split; [apply (bool_decide_unpack _); vm_compute; exact I|].
  split; [repeat constructor; by eexists|].
  change (table clash_db "DemoModelInstance") with [stale_row].
  split; [split; [apply NoDup_singleton|repeat constructor; by eexists]|].
  split; [repeat constructor; by eexists|].
  intros ct pk. destruct (decide (linked_to ct pk stale_row)).
  - by rewrite filter_cons_True.
  - rewrite filter_cons_False by done. apply Nat.le_0_l.
Qed.

Lemma clash_db_urls t e :
  t ∈ tracked clash_db → t_url t = Raise e → e = AttributeError.
Proof.
  intros Hin. repeat (apply elem_of_cons in Hin as [->|Hin]; [done|]).
  by apply elem_of_nil in Hin.
Qed.

(** Saving the changed page touches only the table of the metadata
    model, which grows by one row. *)
Lemma create_metadata_instance_frame_witness :
  ∃ db', create_metadata_instance "DemoModelInstance" (changed_page 5) clash_db
         = Return db' ∧
    tracked db' = tracked clash_db ∧ redirects db' = [] ∧
    1 ≤ length (table db' "DemoModelInstance").
Proof.
  eexists. split; [reflexivity|].
  destruct (create_metadata_instance_frame "DemoModelInstance" (changed_page 5)
              clash_db _ eq_refl) as ((Htr & Hre & _) & Hlen & _).
  split; [exact Htr|]. split; [exact Hre|exact Hlen].
Defined.

(** After [populate_metadata] both pages have a row at their URL: the
    stale row has moved with its page and the changed page has a row
    of its own. *)
Lemma populate_metadata_gives_every_instance_metadata_witness :
  ∃ db', populate_metadata 1 "DemoModelInstance" clash_db = Return db' ∧
    has_metadata db' "DemoModelInstance" (changed_page 5) "/new" ∧
    has_metadata db' "DemoModelInstance" moved_page "/moved".
Proof.
  destruct (populate_metadata_gives_every_instance_metadata 1 "DemoModelInstance"
              clash_db clash_db_healthy) as (db' & Hpop & _ & _ & Hall & _).
  { intros t e Hin _. by apply clash_db_urls. }
  exists db'. split; [exact Hpop|]. split.
  - apply Hall; [by left|reflexivity..].
  - apply Hall; [right; by left|reflexivity..].
Defined.

(** Saving the changed page a second time changes no row. *)
Lemma create_metadata_instance_twice_witness :
  ∃ db' db'',
    create_metadata_instance "DemoModelInstance" (changed_page 5) clash_db
      = Return db' ∧
    create_metadata_instance "DemoModelInstance" (changed_page 5) db' = Return db'' ∧
    table db'' "DemoModelInstance" = table db' "DemoModelInstance".
Proof.
  destruct (create_metadata_instance_twice "DemoModelInstance" (changed_page 5)
              clash_db clash_db_healthy) as (db' & db'' & H1 & H2 & Htab & _).
  - by left.
  - intros e. apply (clash_db_urls (changed_page 5) e). by left.
  - by exists db', db''.
Defined.

(** A consumer that needs two instances makes one query: the model of
    the second backend is not asked. *)
Lemma get_instances_queries_no_more_than_needed_witness :
  draw demo_manager demo_process_context "/p" None None None 2
    (_get_instances (demo_options false false false false) [])
  = ([0; 1], ["DemoModelInstance"],
     {| backend_context := [0; 1]; pending := []; remaining := ["DemoModel"] |}) ∧
  length ["DemoModelInstance"] ≤ 1.
Proof.
  split; [reflexivity|].
  apply (proj2 (proj2 (get_instances_queries_no_more_than_needed demo_manager
                         demo_process_context "/p" None None None
                         (demo_options false false false false) [] 2 _ _ _ eq_refl))
           1).
  vm_compute. lia.
Defined.

(** With redirects on and no Metadata class registered the call fails
    at the first tracked model; with the demo class registered, model
    1 is connected to the update callback of the class's instance
    metadata. *)
Lemma register_signals_connects_witness :
  (register_signals (λ _, [1]) true [1; 2] []).1 = Raise UnboundLocalError ∧
  {| c_signal := post_save; c_receiver := update_callback "DemoModelInstance";
     c_sender := 1 |}
    ∈ (register_signals (λ _, [1]) true [1; 2] [("Demo", demo_class true false)]).2.
Proof.
  split.
  - pose proof (register_signals_connects (λ _, [1]) true [1; 2] []
                  (Forall_nil_2 _)) as Hspec.
    destruct Hspec as (Hfail & _). by apply Hfail.
  - assert (Forall (λ cls, is_Some (mc_meta cls))
              [("Demo", demo_class true false)].*2) as Hall.
    { repeat constructor. by eexists. }
    pose proof (register_signals_connects (λ _, [1]) true [1; 2]
                  [("Demo", demo_class true false)] Hall) as Hspec.
    destruct Hspec as (_ & _ & Hpost & _). apply Hpost.
    exists (demo_class true false), (demo_options true false false false).
    split; [by left|]. split; [done|]. split; [done|by left].
Defined.


(** After the changed page was saved, its linked metadata starts with
    its stored row at "/new". *)
Lemma linked_metadata_after_update_callback_witness :
  ∃ db' fm r rest,
    _update_callback "DemoModelInstance" 1 (changed_page 5) true clash_db = Return db' ∧
    get_linked_metadata plain_text plain_text [("Demo", demo_class true false)]
      (changed_page 5) None None None None db' = Return fm ∧
    instances_original fm = PyList (r :: rest) ∧
    is_Some (row_id r) ∧ _path r = "/new".
Proof.
  destruct (linked_metadata_after_update_callback plain_text plain_text
              [("Demo", demo_class true false)] None (demo_class true false)
              (demo_options true false false false) "DemoModelInstance" 1 true
              (changed_page 5) clash_db "/new" None None None)
    as (db' & fm & r & rest & Hsave & Hget & Horig & _ & Hid & _ & Hpath).
  - reflexivity.
  - reflexivity.
  - reflexivity.
  - intros m' [= <-]. split; [done|]. apply Nat.le_0_l.
  - intros _ [=].
  - exact clash_db_healthy.
  - by left.
  - reflexivity.
  - reflexivity.
  - by exists db', fm, r, rest.
Defined.

(** Three loops over a list of two instances: the third yields six. *)
Lemma list_instances_repeat_with_every_loop_witness :
  (instances_runs (replicate 3 never_stop) (demo_formatted (PyList [0; 1]))).1.1
    = [[0; 1]; [0; 1; 0; 1]; [0; 1; 0; 1; 0; 1]].
Proof.
  exact (proj1 (list_instances_repeat_with_every_loop [0; 1] 3
                  (demo_formatted (PyList [0; 1])) eq_refl eq_refl)).
Defined.
